(** * lok8s: the network and address resource allocator

    A shallow embedding of the allocator code of lok8s and the properties
    its specification states about it:

    - [pkg/cluster/minikube/manager.go]: control-plane and registry port
      selection, regions and zones, the gateway of a subnet, the load
      balancer options of the kind driver;
    - [pkg/network/network_linux.go]: subnet parameters of a CIDR;
    - the libvirt subnet prober and free-subnet search;
    - [pkg/services/metallb.go]: the MetalLB range partitioner and its
      ledger ([pkg/config/config.go]);
    - [pkg/config/config.go]: the service IP range and the merge of
      project settings;
    - [pkg/util/version/version.go]: version comparison;
    - the load balancer ports of the kind tunnel.

    Go values are modelled as follows.  An [int] is a [Z] taken modulo
    2^64 ([wrap64]); a [byte] is a [Z] taken modulo 256; a [string] is a
    [string]; a slice is a [list]; [map[K]bool] whose every write stores
    [true] is the [gset] of its keys; an [error] is its message, and a
    function returning [(T, error)] returns a [result T].  Warnings sent to
    the logger are collected in a list, debug lines are dropped. *)

From Stdlib Require Import ZArith Lia Bool Ascii String.
From stdpp Require Import base list strings pretty gmap.

Local Open Scope Z_scope.

(* ================================================================== *)
(** * Go primitives *)
(* ================================================================== *)

(** [(T, error)] *)
Inductive result (A : Type) : Type :=
| Ok (a : A)
| Err (e : string).
Arguments Ok {A} a.
Arguments Err {A} e.

(** Two's-complement wrap-around of the 64-bit [int]. *)
Definition wrap64 (z : Z) : Z := (z + 2 ^ 63) `mod` 2 ^ 64 - 2 ^ 63.
Definition add64 (a b : Z) : Z := wrap64 (a + b).
Definition sub64 (a b : Z) : Z := wrap64 (a - b).
Definition mul64 (a b : Z) : Z := wrap64 (a * b).
(** [a / b] truncates toward zero. *)
Definition quot64 (a b : Z) : Z := wrap64 (a ÷ b).

(** The conversion [byte(x)] and byte arithmetic. *)
Definition byte (z : Z) : Z := z `mod` 256.
Definition byte_add (a b : Z) : Z := byte (a + b).
Definition byte_not (a : Z) : Z := 255 - a.

(** The verb [%d] of [fmt.Sprintf]. *)
Definition fmt_d (z : Z) : string := pretty z.

Definition isDigit (c : ascii) : bool :=
  let n := nat_of_ascii c in (48 <=? n)%nat && (n <=? 57)%nat.
Definition digitVal (c : ascii) : Z := Z.of_nat (nat_of_ascii c) - 48.

(** [strings.Split(s, sep)] for a one-character separator. *)
Fixpoint strings_Split (s : string) (sep : ascii) : list string :=
  match s with
  | EmptyString => [EmptyString]
  | String c s' =>
      if Ascii.eqb c sep then EmptyString :: strings_Split s' sep
      else
        match strings_Split s' sep with
        | first :: rest => String c first :: rest
        | [] => [String c EmptyString]
        end
  end.

(** [strings.Contains(s, substr)] *)
Fixpoint strings_Contains (s substr : string) : bool :=
  String.prefix substr s
  || match s with
     | EmptyString => false
     | String _ s' => strings_Contains s' substr
     end.

(** The decimal value of a string of digits ([None] on any other string). *)
Fixpoint digits_go (acc : Z) (s : string) : option Z :=
  match s with
  | EmptyString => Some acc
  | String c s' => if isDigit c then digits_go (acc * 10 + digitVal c) s' else None
  end.
Definition digits (s : string) : option Z :=
  match s with
  | EmptyString => None
  | _ => digits_go 0 s
  end.

(** [strconv.Atoi]: an optional sign and decimal digits, within [int]. *)
Definition strconv_Atoi (s : string) : option Z :=
  let '(neg, body) :=
    match s with
    | String "-" r => (true, r)
    | String "+" r => (false, r)
    | _ => (false, s)
    end in
  match digits body with
  | Some n =>
      let v := if neg then - n else n in
      if (- 2 ^ 63 <=? v) && (v <? 2 ^ 63) then Some v else None
  | None => None
  end.

(** [fmt.Sscanf(str, "%d", &n)] on the bytes of a UTF-8 text.

    [SkipSpace] is the scanner's method of that name when a newline is
    not a space: it passes over the space runes of [fmt]'s table (U+0009
    to U+000D, U+0020, U+0085, U+00A0, U+1680, U+2000 to U+200A, U+2028,
    U+2029, U+202F, U+205F, U+3000), fails on a newline, and stops
    before any other rune; [None] is the error. *)
Definition isSpace3 (n1 n2 n3 : nat) : bool :=
  ((n1 =? 225) && (n2 =? 154) && (n3 =? 128))%nat
  || ((n1 =? 226) && (n2 =? 128)
      && (((128 <=? n3) && (n3 <=? 138)) || (n3 =? 168) || (n3 =? 169) || (n3 =? 175)))%nat
  || ((n1 =? 226) && (n2 =? 129) && (n3 =? 159))%nat
  || ((n1 =? 227) && (n2 =? 128) && (n3 =? 128))%nat.

Fixpoint SkipSpace (s : string) : option string :=
  match s with
  | EmptyString => Some s
  | String c1 r1 =>
      let n1 := nat_of_ascii c1 in
      if (n1 =? 10)%nat then None
      else if (((9 <=? n1) && (n1 <=? 13)) || (n1 =? 32))%nat then SkipSpace r1
      else
        match r1 with
        | EmptyString => Some s
        | String c2 r2 =>
            let n2 := nat_of_ascii c2 in
            if ((n1 =? 194) && ((n2 =? 133) || (n2 =? 160)))%nat then SkipSpace r2
            else
              match r2 with
              | EmptyString => Some s
              | String c3 r3 =>
                  if isSpace3 n1 n2 (nat_of_ascii c3) then SkipSpace r3 else Some s
              end
        end
  end.

(** The longest prefix made of decimal digits, the characters the scanner
    accepts in a number under [%d]. *)
Fixpoint scanNumber (s : string) : string :=
  match s with
  | EmptyString => EmptyString
  | String c r => if isDigit c then String c (scanNumber r) else EmptyString
  end.

(** The integer [fmt.Sscanf(str, "%d", &n)] stores, [None] when it returns
    an error: spaces are skipped, a sign is accepted, the number is read
    as far as it goes and converted by [strconv.ParseInt(tok, 10, 64)],
    which reads as [strconv.Atoi] does; what follows the number is left
    unread. *)
Definition fmt_Sscanf_d (str : string) : option Z :=
  match SkipSpace str with
  | None => None
  | Some s =>
      let '(sign, body) :=
        match s with
        | String c r =>
            if Ascii.eqb c "+" || Ascii.eqb c "-" then (String c EmptyString, r)
            else (EmptyString, s)
        | EmptyString => (EmptyString, s)
        end in
      match scanNumber body with
      | EmptyString => None
      | tok => strconv_Atoi (sign +:+ tok)
      end
  end.

(* ================================================================== *)
(** * Control-plane port selection (manager.go) *)
(* ================================================================== *)

Definition KindControlPlanePort : Z := 7000.

Section Ports.
(** [isPortAvailable]: whether binding the TCP port succeeds now. *)
Variable isPortAvailable : Z -> bool.

(** The ports of [for port := 29000; port <= 30100; port++]. *)
Definition fallbackPorts : list Z := seqZ 29000 (30100 - 29000 + 1).

Definition getAvailablePortPrefix (clusterIndex : Z) : result string :=
  let preferredPort := add64 KindControlPlanePort clusterIndex in
  if isPortAvailable preferredPort then Ok (fmt_d preferredPort)
  else
    match List.find isPortAvailable fallbackPorts with
    | Some port => Ok (fmt_d port)
    | None => Err "no available ports found in range 29000 - 30100"
    end.
End Ports.

(* ================================================================== *)
(** * Go's [net] package *)
(* ================================================================== *)

(** The parts of Go's library that are kept abstract: the theorems hold
    whatever these do.
    - [parseAddr6 s]: the 16 bytes of the address [netip.ParseAddr] reads
      from a text whose first separator is a colon, [None] when it
      rejects the text or the address has a zone;
    - [string6 ip]: the text of a 16-byte address that is not an IPv4 one;
    - [sscan_d s]: the integer [fmt.Sscanf(s, "%d", &n)] stores, [None]
      when it returns an error.
    An address read by [parseAddr6] has 16 bytes. *)
Class GoLib : Type := {
  parseAddr6 : string -> option (list Z);
  string6 : list Z -> string;
  sscan_d : string -> option Z;
  parseAddr6_length : forall s ip, parseAddr6 s = Some ip -> length ip = 16%nat;
}.

(** An instance for IPv4-only text. *)
Definition goLib4 : GoLib :=
  {| parseAddr6 := fun _ => None;
     string6 := fun _ => "::";
     sscan_d := fmt_Sscanf_d;
     parseAddr6_length := fun s ip (E : None = Some ip) =>
       match E in _ = o return match o with None => True | Some _ => _ end with
       | eq_refl => I
       end |}.

(** [net.IP] and [net.IPMask] are byte slices; [nil] is the empty list. *)
Record IPNet : Type := { IP : list Z; Mask : list Z }.

Definition v4InV6Prefix : list Z := [0; 0; 0; 0; 0; 0; 0; 0; 0; 0; 255; 255].

(** [ip.To4()], [None] for [nil]. *)
Definition To4 (ip : list Z) : option (list Z) :=
  if (length ip =? 4)%nat then Some ip
  else if (length ip =? 16)%nat && bool_decide (take 12 ip = v4InV6Prefix)
       then Some (drop 12 ip)
       else None.

(** [net.IPv4(a, b, c, d)]: the 16-byte form. *)
Definition IPv4 (a b c d : Z) : list Z := v4InV6Prefix ++ [a; b; c; d].

Fixpoint maskBytes (l : nat) (n : Z) : list Z :=
  match l with
  | O => []
  | S l' =>
      if 8 <=? n then 255 :: maskBytes l' (n - 8)
      else byte_not (Z.shiftr 255 n) :: maskBytes l' 0
  end.

(** [net.CIDRMask(ones, bits)] *)
Definition CIDRMask (ones bits : Z) : list Z :=
  if negb ((bits =? 32) || (bits =? 128)) then []
  else if (ones <? 0) || (bits <? ones) then []
  else maskBytes (Z.to_nat (bits ÷ 8)) ones.

(** [for v&0x80 != 0 { n++; v <<= 1 }] on a byte. *)
Fixpoint leadingOnes (fuel : nat) (v n : Z) : Z * Z :=
  match fuel with
  | O => (v, n)
  | S fuel' =>
      if Z.land v 128 =? 0 then (v, n)
      else leadingOnes fuel' (byte (Z.shiftl v 1)) (n + 1)
  end.

Fixpoint simpleMaskLength_go (mask : list Z) (n : Z) : Z :=
  match mask with
  | [] => n
  | v :: rest =>
      if v =? 255 then simpleMaskLength_go rest (n + 8)
      else
        let '(v', n') := leadingOnes 8 v n in
        if negb (v' =? 0) then -1
        else if forallb (Z.eqb 0) rest then n' else -1
  end.
Definition simpleMaskLength (mask : list Z) : Z := simpleMaskLength_go mask 0.

(** [m.Size()] *)
Definition IPMask_Size (m : list Z) : Z * Z :=
  let ones := simpleMaskLength m in
  if ones =? -1 then (0, 0) else (ones, Z.of_nat (length m) * 8).

(** [ip.Mask(mask)] *)
Definition IP_Mask (ip mask : list Z) : list Z :=
  let mask :=
    if (length mask =? 16)%nat && (length ip =? 4)%nat
       && forallb (Z.eqb 255) (take 12 mask)
    then drop 12 mask else mask in
  let ip :=
    if (length mask =? 4)%nat && (length ip =? 16)%nat
       && bool_decide (take 12 ip = v4InV6Prefix)
    then drop 12 ip else ip in
  if (length ip =? length mask)%nat then zip_with Z.land ip mask else [].

Definition networkNumberAndMask (n : IPNet) : option (list Z * list Z) :=
  let ip :=
    match To4 (IP n) with
    | Some x => Some x
    | None => if (length (IP n) =? 16)%nat then Some (IP n) else None
    end in
  match ip with
  | None => None
  | Some ip =>
      let m := Mask n in
      if (length m =? 4)%nat then
        if (length ip =? 4)%nat then Some (ip, m) else None
      else if (length m =? 16)%nat then
        if (length ip =? 4)%nat then Some (ip, drop 12 m) else Some (ip, m)
      else None
  end.

(** [n.Contains(ip)] *)
Definition Contains (n : IPNet) (ip : list Z) : bool :=
  let '(nn, m) := default ([], []) (networkNumberAndMask n) in
  let ip := default ip (To4 ip) in
  if (length ip =? length nn)%nat
  then bool_decide (zip_with Z.land nn m = zip_with Z.land ip m)
  else false.

Definition hexDigit (n : Z) : ascii :=
  ascii_of_nat (Z.to_nat (if n <? 10 then 48 + n else 87 + n)).
Fixpoint hexString (b : list Z) : string :=
  match b with
  | [] => ""
  | x :: r => String (hexDigit (x ÷ 16)) (String (hexDigit (x `mod` 16)) (hexString r))
  end.

Section Text.
Context `{GoLib}.

(** [ip.String()] *)
Definition IP_String (ip : list Z) : string :=
  match ip with
  | [] => "<nil>"
  | _ =>
      if negb ((length ip =? 4)%nat || (length ip =? 16)%nat)
      then "?" +:+ hexString ip
      else
        match To4 ip with
        | Some [a; b; c; d] =>
            fmt_d a +:+ "." +:+ fmt_d b +:+ "." +:+ fmt_d c +:+ "." +:+ fmt_d d
        | _ => string6 ip
        end
  end.

(** [n.String()] *)
Definition IPNet_String (n : IPNet) : string :=
  match networkNumberAndMask n with
  | None => "<nil>"
  | Some (nn, m) =>
      let l := simpleMaskLength m in
      if l =? -1
      then IP_String nn +:+ "/" +:+ (match m with [] => "<nil>" | _ => hexString m end)
      else IP_String nn +:+ "/" +:+ fmt_d l
  end.

(** The first of ['.'], [':'] and ['%'] in the text. *)
Fixpoint firstSep (s : string) : option ascii :=
  match s with
  | EmptyString => None
  | String c s' =>
      if Ascii.eqb c "." || Ascii.eqb c ":" || Ascii.eqb c "%" then Some c
      else firstSep s'
  end.

(** A field of a dotted quad: digits, no leading zero, at most 255. *)
Definition parseOctet (f : string) : option Z :=
  if String.prefix "0" f && negb (String.eqb f "0") then None
  else
    match digits f with
    | Some v => if v <=? 255 then Some v else None
    | None => None
    end.

Definition parseIPv4 (s : string) : option (list Z) :=
  match strings_Split s "." with
  | [f0; f1; f2; f3] =>
      match parseOctet f0, parseOctet f1, parseOctet f2, parseOctet f3 with
      | Some a, Some b, Some c, Some d => Some [a; b; c; d]
      | _, _, _, _ => None
      end
  | _ => None
  end.

(** [netip.ParseAddr] with zones rejected: the address and its bit length. *)
Definition ParseAddr (s : string) : option (list Z * Z) :=
  match firstSep s with
  | Some sep =>
      if Ascii.eqb sep "." then
        match parseIPv4 s with
        | Some [a; b; c; d] => Some (IPv4 a b c d, 32)
        | _ => None
        end
      else if Ascii.eqb sep ":" then
        match parseAddr6 s with
        | Some ip => Some (ip, 128)
        | None => None
        end
      else None
  | None => None
  end.

(** [net.ParseIP], [None] for [nil]. *)
Definition ParseIP (s : string) : option (list Z) := fst <$> ParseAddr s.

(** The text before and after the first [sep]. *)
Fixpoint cut (s : string) (sep : ascii) : option (string * string) :=
  match s with
  | EmptyString => None
  | String c s' =>
      if Ascii.eqb c sep then Some (EmptyString, s')
      else
        match cut s' sep with
        | Some (before, after) => Some (String c before, after)
        | None => None
        end
  end.

(** [dtoi] on a whole text: digits below [0xFFFFFF]. *)
Definition dtoi (s : string) : option Z :=
  match digits s with
  | Some n => if n <? 16777215 then Some n else None
  | None => None
  end.

(** [net.ParseCIDR]: the network of the text, [None] on an error. *)
Definition ParseCIDR (s : string) : option IPNet :=
  match cut s "/" with
  | None => None
  | Some (addr, mask) =>
      match ParseAddr addr with
      | None => None
      | Some (ip16, bitLen) =>
          match dtoi mask with
          | None => None
          | Some n =>
              if bitLen <? n then None
              else
                let m := CIDRMask n bitLen in
                Some {| IP := IP_Mask ip16 m; Mask := m |}
          end
      end
  end.
End Text.

(* ================================================================== *)
(** * Subnet parameters of a CIDR (network_linux.go) *)
(* ================================================================== *)

(** Interface contains main network interface parameters. *)
Record Interface : Type := {
  IfaceName : string;
  IfaceIPv4 : string;
  IfaceMTU : Z;
  IfaceMAC : string;
}.

(** Parameters contains main network parameters. *)
Record Parameters : Type := {
  Params_IP : string;
  Netmask : string;
  Prefix : Z;
  CIDR : string;
  Gateway : string;
  ClientMin : string;
  ClientMax : string;
  Broadcast : string;
  IsPrivate : bool;
  Params_Interface : Interface;
}.

(** [s[len(s)-1]++] and [s[len(s)-1]--] on a non-empty byte slice. *)
Definition incLast (s : list Z) : list Z :=
  alter (fun b => byte_add b 1) (Nat.pred (length s)) s.
Definition decLast (s : list Z) : list Z :=
  alter (fun b => byte_add b (-1)) (Nat.pred (length s)) s.

(** [isPrivateIP] checks if an IP address is in a private network range. *)
Definition isPrivateIP (ip : list Z) : bool :=
  let privateRanges :=
    [ {| IP := IPv4 10 0 0 0; Mask := CIDRMask 8 32 |};
      {| IP := IPv4 172 16 0 0; Mask := CIDRMask 12 32 |};
      {| IP := IPv4 192 168 0 0; Mask := CIDRMask 16 32 |} ] in
  existsb (fun r => Contains r ip) privateRanges.

Section SubnetParameters.
Context `{GoLib}.

(** [calculateSubnetParameters] calculates network parameters from a CIDR
    subnet.  [None] is the run-time panic of an index out of range (an
    empty address, or a mask shorter than the address or than 4 bytes). *)
Definition calculateSubnetParameters (ipNet : IPNet) : option Parameters :=
  let '(ones, _) := IPMask_Size (Mask ipNet) in
  let ip := default (IP ipNet) (To4 (IP ipNet)) in
  if (length ip =? 0)%nat then None
  else
    let gateway := incLast ip in
    if (length (Mask ipNet) <? length ip)%nat then None
    else
      let broadcast := zip_with (fun b m => Z.lor b (byte_not m)) ip (Mask ipNet) in
      let clientMin := incLast gateway in
      let clientMax := decLast (decLast broadcast) in
      match Mask ipNet with
      | m0 :: m1 :: m2 :: m3 :: _ =>
          let netmask :=
            fmt_d m0 +:+ "." +:+ fmt_d m1 +:+ "." +:+ fmt_d m2 +:+ "." +:+ fmt_d m3 in
          Some {| Params_IP := IP_String ip;
                  Netmask := netmask;
                  Prefix := ones;
                  CIDR := IPNet_String ipNet;
                  Gateway := IP_String gateway;
                  ClientMin := IP_String clientMin;
                  ClientMax := IP_String clientMax;
                  Broadcast := IP_String broadcast;
                  IsPrivate := isPrivateIP ip;
                  Params_Interface :=
                    {| IfaceName := ""; IfaceIPv4 := ""; IfaceMTU := 0; IfaceMAC := "" |} |}
      | _ => None
      end.
End SubnetParameters.

(** An IPv4 address as a number, and back. *)
Definition ipToZ (ip : list Z) : Z := fold_left (fun acc b => acc * 256 + b) ip 0.
Definition ipOfZ (z : Z) : list Z :=
  [ (z `div` 16777216) `mod` 256; (z `div` 65536) `mod` 256; (z `div` 256) `mod` 256;
    z `mod` 256 ].

(* ================================================================== *)
(** * The libvirt subnet prober and the free-subnet search *)
(* ================================================================== *)

(** [libvirtIPElement] represents an IP element in libvirt network XML. *)
Record libvirtIPElement : Type := {
  Address : string;
  Elem_Prefix : string;
  Elem_Netmask : string;
}.

(** What the libvirt daemon answers.  [ConnectFails msg]: the connection
    fails, [msg] the text of the libvirt error; [ListFails msg]:
    [ListAllNetworks] fails; [Networks nets]: the defined networks, each
    with the IP elements of its XML description, or [None] when the
    description cannot be fetched or unmarshalled. *)
Inductive Libvirt : Type :=
| ConnectFails (msg : string)
| ListFails (msg : string)
| Networks (nets : list (option (list libvirtIPElement))).

Section Prober.
Context `{GoLib}.

(** The prefix length of an IP element, [None] where the loop continues
    with the next element. *)
Definition elemPrefixLen (ipElem : libvirtIPElement) : option Z :=
  let prefixLen :=
    if negb (String.eqb (Elem_Prefix ipElem) "") then sscan_d (Elem_Prefix ipElem)
    else if negb (String.eqb (Elem_Netmask ipElem) "") then
      match ParseIP (Elem_Netmask ipElem) with
      | Some netmaskIP => Some (fst (IPMask_Size (default [] (To4 netmaskIP))))
      | None => None
      end
    else Some 24 in
  (fun prefixLen => if prefixLen =? 0 then 24 else prefixLen) <$> prefixLen.

(** The network of an IP element, [None] where the loop continues. *)
Definition existingNet (ipElem : libvirtIPElement) : option IPNet :=
  if String.eqb (Address ipElem) "" then None
  else
    match ParseIP (Address ipElem) with
    | None => None
    | Some _ =>
        match elemPrefixLen ipElem with
        | None => None
        | Some prefixLen => ParseCIDR (Address ipElem +:+ "/" +:+ fmt_d prefixLen)
        end
    end.

Definition netsOverlap (ipNet existing : IPNet) : bool :=
  Contains existing (IP ipNet) || Contains ipNet (IP existing).

Definition overlapError (ipNet existing : IPNet) : string :=
  "subnet " +:+ IPNet_String ipNet +:+ " overlaps with existing libvirt network "
  +:+ IPNet_String existing.

(** [for _, ipElem := range networkXML.IP] *)
Fixpoint checkElems (ipNet : IPNet) (elems : list libvirtIPElement) : option string :=
  match elems with
  | [] => None
  | ipElem :: rest =>
      match existingNet ipElem with
      | Some existing =>
          if netsOverlap ipNet existing then Some (overlapError ipNet existing)
          else checkElems ipNet rest
      | None => checkElems ipNet rest
      end
  end.

(** [for _, libvirtNet := range nets] *)
Fixpoint checkNets (ipNet : IPNet) (nets : list (option (list libvirtIPElement)))
  : option string :=
  match nets with
  | [] => None
  | net :: rest =>
      match checkElems ipNet (default [] net) with
      | Some e => Some e
      | None => checkNets ipNet rest
      end
  end.

(** [checkLibvirtSubnetOverlap] checks if the given subnet overlaps with
    any existing libvirt network: [None] if the subnet is free, the error
    otherwise. *)
Definition checkLibvirtSubnetOverlap (lv : Libvirt) (ipNet : IPNet) : option string :=
  match lv with
  | ConnectFails msg =>
      Some ("failed to connect to libvirt: failed connecting to libvirt socket: " +:+ msg)
  | ListFails msg => Some ("failed to list libvirt networks: " +:+ msg)
  | Networks nets => checkNets ipNet nets
  end.

(** The octet the search steps: the second one up to /16, else the third. *)
Definition steppedOctet (prefix : Z) : nat := if prefix <=? 16 then 1%nat else 2%nat.

(** [nextIP[i] += byte(step)] *)
Definition stepIP (prefix step : Z) (nextIP : list Z) : list Z :=
  alter (fun b => byte_add b (byte step)) (steppedOctet prefix) nextIP.

(** The body of the loop of [FindFreeLibvirtSubnet] after an overlap: the
    next subnet to try. *)
Definition nextSubnet (step : Z) (currSubnet : string) (ipNet : IPNet) : result string :=
  let '(prefix, _) := IPMask_Size (Mask ipNet) in
  match ParseIP (IP_String (IP ipNet)) ≫= To4 with
  | None => Err ("invalid IPv4 subnet: " +:+ currSubnet)
  | Some nextIP => Ok (IP_String (stepIP prefix step nextIP) +:+ "/" +:+ fmt_d prefix)
  end.

(** The error of a search that used up its tries. *)
Definition noFreeSubnet (tries : Z) (startSubnet : string) : string :=
  "no free subnet found after " +:+ fmt_d tries +:+ " tries starting from " +:+ startSubnet.

Fixpoint findFree_loop (lv : Libvirt) (startSubnet : string) (step tries : Z)
    (fuel : nat) (currSubnet : string) : result string :=
  match fuel with
  | O => Err (noFreeSubnet tries startSubnet)
  | S fuel' =>
      match ParseCIDR currSubnet with
      | None =>
          Err ("failed to parse subnet " +:+ currSubnet +:+ ": invalid CIDR address: "
               +:+ currSubnet)
      | Some ipNet =>
          match checkLibvirtSubnetOverlap lv ipNet with
          | None => Ok currSubnet
          | Some err =>
              if strings_Contains err "overlaps" then
                match nextSubnet step currSubnet ipNet with
                | Err e => Err e
                | Ok next => findFree_loop lv startSubnet step tries fuel' next
                end
              else Ok currSubnet
          end
      end
  end.

(** [FindFreeLibvirtSubnet] finds a free subnet starting from the given
    subnet by checking libvirt networks; the loop
    [for try := 0; try < tries; try++] runs [tries] times at most. *)
Definition FindFreeLibvirtSubnet (lv : Libvirt) (startSubnet : string) (step tries : Z)
  : result string :=
  findFree_loop lv startSubnet step tries (Z.to_nat tries) startSubnet.

(** The subnets the search tries, in order: each is the step of the one
    before, as long as that one parses and can be stepped. *)
Fixpoint candidate (step : Z) (startSubnet : string) (i : nat) : option string :=
  match i with
  | O => Some startSubnet
  | S i' =>
      match candidate step startSubnet i' with
      | Some curr =>
          match ParseCIDR curr with
          | Some ipNet =>
              match nextSubnet step curr ipNet with
              | Ok next => Some next
              | Err _ => None
              end
          | None => None
          end
      | None => None
      end
  end.

(** The prober's verdict on a subnet text, as the search reads it. *)
Definition reportsOverlap (lv : Libvirt) (subnet : string) : bool :=
  match ParseCIDR subnet with
  | Some ipNet =>
      match checkLibvirtSubnetOverlap lv ipNet with
      | Some err => strings_Contains err "overlaps"
      | None => false
      end
  | None => false
  end.
End Prober.

(* ================================================================== *)
(** * The allocation ledger (config.go) *)
(* ================================================================== *)

(** [MetalLBAllocation] tracks IP ranges and node IPs for a cluster. *)
Record MetalLBAllocation : Type := {
  ClusterName : string;
  IPPrefix : string;
  StartOctet : Z;
  EndOctet : Z;
  NodeIPs : list Z;
  IPRange : string;
}.

(** [ProjectConfig], with the fields the allocator reads or writes; the
    other settings of a project are carried along unchanged. *)
Record ProjectConfig : Type := {
  Project : string;
  MetalLBAllocations : list MetalLBAllocation;
}.

(** A project file: one that cannot be read or parsed (with the error
    [LoadConfig] returns), or the configuration it holds. *)
Inductive ConfigFile : Type :=
| Unreadable (err : string)
| Stored (config : ProjectConfig).

(** The configuration directory: the file of each project, and the error
    of creating the directory or writing a file, if any. *)
Record ConfigStore : Type := {
  files : gmap string ConfigFile;
  writeError : option string;
}.

(** [LoadConfig]: [Ok None] when the project has no file. *)
Definition LoadConfig (cm : ConfigStore) (project : string) : result (option ProjectConfig) :=
  match files cm !! project with
  | None => Ok None
  | Some (Unreadable err) => Err err
  | Some (Stored config) => Ok (Some config)
  end.

(** [SaveConfig]: the error, if any, and the directory afterwards. *)
Definition SaveConfig (cm : ConfigStore) (project : string) (config : ProjectConfig)
  : option string * ConfigStore :=
  match writeError cm with
  | Some err => (Some err, cm)
  | None => (None, {| files := <[project := Stored config]> (files cm); writeError := None |})
  end.

(* ================================================================== *)
(** * The MetalLB range partitioner (metallb.go) *)
(* ================================================================== *)

(** [MetalLBManager]; its [configManager] is the [ConfigStore] passed
    along.  [ipAllocations] holds, for each cluster, the allocation of its
    own loop iteration. *)
Record MetalLBManager : Type := {
  minOctetRange : Z;
  maxOctetRange : Z;
  ipAllocations : gmap string MetalLBAllocation;
  usedRanges : gset string;
  allNodeIPs : gset Z;
}.

Definition NewMetalLBManagerWithOptions (minOctetRange maxOctetRange : Z) : MetalLBManager :=
  {| minOctetRange := minOctetRange;
     maxOctetRange := maxOctetRange;
     ipAllocations := ∅;
     usedRanges := ∅;
     allNodeIPs := ∅ |}.

(** [fmt.Sprintf("%s.%d-%d", ipPrefix, startOctet, endOctet)] *)
Definition rangeKey (ipPrefix : string) (startOctet endOctet : Z) : string :=
  ipPrefix +:+ "." +:+ fmt_d startOctet +:+ "-" +:+ fmt_d endOctet.

(** The three updates of the in-memory tracking for one allocation. *)
Definition track (mm : MetalLBManager) (alloc : MetalLBAllocation) : MetalLBManager :=
  {| minOctetRange := minOctetRange mm;
     maxOctetRange := maxOctetRange mm;
     ipAllocations := <[ClusterName alloc := alloc]> (ipAllocations mm);
     usedRanges :=
       {[ rangeKey (IPPrefix alloc) (StartOctet alloc) (EndOctet alloc) ]} ∪ usedRanges mm;
     allNodeIPs := list_to_set (NodeIPs alloc) ∪ allNodeIPs mm |}.

Definition clearTracking (mm : MetalLBManager) : MetalLBManager :=
  NewMetalLBManagerWithOptions (minOctetRange mm) (maxOctetRange mm).

(** [InitializeTracking] initializes IP tracking from saved config or
    starts fresh. *)
Definition InitializeTracking (cm : ConfigStore) (mm : MetalLBManager) (project : string)
  : option string * MetalLBManager :=
  match LoadConfig cm project with
  | Err err => (Some ("failed to load project config: " +:+ err), mm)
  | Ok projectConfig =>
      let allocs := default [] (MetalLBAllocations <$> projectConfig) in
      (None, fold_left track allocs (clearTracking mm))
  end.

(** The add-or-update loop of [SaveAllocation]. *)
Fixpoint upsert (allocs : list MetalLBAllocation) (allocation : MetalLBAllocation)
  : list MetalLBAllocation :=
  match allocs with
  | [] => [allocation]
  | existing :: rest =>
      if String.eqb (ClusterName existing) (ClusterName allocation) then allocation :: rest
      else existing :: upsert rest allocation
  end.

(** [SaveAllocation] saves the IP allocation for a cluster to the project
    config. *)
Definition SaveAllocation (cm : ConfigStore) (mm : MetalLBManager) (project : string)
    (allocation : MetalLBAllocation) : option string * ConfigStore * MetalLBManager :=
  match LoadConfig cm project with
  | Err err => (Some ("failed to load project config: " +:+ err), cm, mm)
  | Ok loaded =>
      let projectConfig :=
        default {| Project := project; MetalLBAllocations := [] |} loaded in
      let projectConfig :=
        {| Project := Project projectConfig;
           MetalLBAllocations := upsert (MetalLBAllocations projectConfig) allocation |} in
      match SaveConfig cm project projectConfig with
      | (Some err, cm') => (Some ("failed to save project config: " +:+ err), cm', mm)
      | (None, cm') => (None, cm', track mm allocation)
      end
  end.

(** A node address of the cluster, and what listing the nodes answers:
    an error, or the addresses of each node. *)
Record NodeAddress : Type := { Addr_Type : string; Addr_Address : string }.
Inductive ClientManager : Type :=
| NodesFail (err : string)
| NodeList (nodes : list (list NodeAddress)).

Section Partitioner.
Context `{GoLib}.

(** The last octet [getNodeIPs] records for an address, if any. *)
Definition nodeOctet (addr : NodeAddress) : option Z :=
  if String.eqb (Addr_Type addr) "InternalIP" || String.eqb (Addr_Type addr) "ExternalIP"
  then
    match ParseIP (Addr_Address addr) ≫= To4 with
    | None => None
    | Some _ =>
        match strings_Split (Addr_Address addr) "." with
        | [_; _; _; last] => strconv_Atoi last
        | _ => None
        end
    end
  else None.

(** [getNodeIPs] retrieves all node IP addresses from the cluster. *)
Definition getNodeIPs (clientManager : ClientManager) : result (gset Z) :=
  match clientManager with
  | NodesFail err => Err ("failed to list nodes: " +:+ err)
  | NodeList nodes => Ok (list_to_set (omap nodeOctet (concat nodes)))
  end.

(** [for octet := startOctet; octet <= endOctet; octet++]: whether some
    octet of the window is a node IP. *)
Definition hasNodeIP (nodeIPs : gset Z) (startOctet endOctet : Z) : bool :=
  existsb (fun octet => bool_decide (octet ∈ nodeIPs))
          (seqZ startOctet (endOctet - startOctet + 1)).

(** [startOctet++], [endOctet = startOctet + rangeSize - 1], and the wrap
    around to [minOctetRange] past [maxOctetRange]. *)
Definition nextWindow (mm : MetalLBManager) (startOctet rangeSize : Z) : Z * Z :=
  let startOctet := add64 startOctet 1 in
  let endOctet := sub64 (add64 startOctet rangeSize) 1 in
  if endOctet >? maxOctetRange mm
  then (minOctetRange mm, sub64 (add64 (minOctetRange mm) rangeSize) 1)
  else (startOctet, endOctet).

(** The warning of a range search that used up its attempts. *)
Definition searchExhausted (attempts : Z) : string :=
  "could not find completely free range after " +:+ fmt_d attempts
  +:+ " attempts, using original range".

Fixpoint findNext_loop (mm : MetalLBManager) (rangeSize : Z) (nodeIPs : gset Z)
    (ipPrefix : string) (fuel : nat) (attempts startOctet endOctet : Z)
  : (Z * Z) * list string :=
  match fuel with
  | O => ((startOctet, endOctet), [searchExhausted attempts])
  | S fuel' =>
      if bool_decide (rangeKey ipPrefix startOctet endOctet ∈ usedRanges mm) then
        let '(s, e) := nextWindow mm startOctet rangeSize in
        findNext_loop mm rangeSize nodeIPs ipPrefix fuel' (add64 attempts 1) s e
      else if negb (hasNodeIP nodeIPs startOctet endOctet) then
        ((startOctet, endOctet), [])
      else
        let '(s, e) := nextWindow mm startOctet rangeSize in
        findNext_loop mm rangeSize nodeIPs ipPrefix fuel' (add64 attempts 1) s e
  end.

(** [findNextAvailableRange] finds the next available IP range that
    doesn't conflict with used ranges; with it, the warnings logged. *)
Definition findNextAvailableRange (mm : MetalLBManager) (startOctet endOctet rangeSize : Z)
    (nodeIPs : gset Z) (ipPrefix : string) : (Z * Z) * list string :=
  findNext_loop mm rangeSize nodeIPs ipPrefix 100 0 startOctet endOctet.

(** The check of a shifted window in [adjustRangeForNodeIPs]. *)
Definition windowFree (mm : MetalLBManager) (nodeIPs : gset Z) (newStart newEnd : Z) : bool :=
  forallb (fun octet => negb (bool_decide (octet ∈ nodeIPs) || (octet >? maxOctetRange mm)))
          (seqZ newStart (newEnd - newStart + 1)).

Fixpoint adjust_loop (mm : MetalLBManager) (nodeIPs : gset Z) (rangeSize : Z)
    (fuel : nat) (newStart newEnd : Z) : option (Z * Z) :=
  match fuel with
  | O => None
  | S fuel' =>
      if windowFree mm nodeIPs newStart newEnd then Some (newStart, newEnd)
      else
        let '(s, e) := nextWindow mm newStart rangeSize in
        adjust_loop mm nodeIPs rangeSize fuel' s e
  end.

(** [adjustRangeForNodeIPs] adjusts the IP range to avoid node IPs; with
    it, the warnings logged. *)
Definition adjustRangeForNodeIPs (mm : MetalLBManager) (startOctet endOctet : Z)
    (nodeIPs : gset Z) (ipPrefix : string) : (Z * Z) * list string :=
  if hasNodeIP nodeIPs startOctet endOctet then
    let rangeSize := add64 (sub64 endOctet startOctet) 1 in
    match adjust_loop mm nodeIPs rangeSize 10 startOctet endOctet with
    | Some w => (w, [])
    | None =>
        ((startOctet, endOctet),
         ["could not find completely free range, using original range with potential overlap"])
    end
  else ((startOctet, endOctet), []).

Definition ipsPerCluster : Z := 20.

(** [maxClusters]: how many clusters fit in the octet window. *)
Definition maxClusters (mm : MetalLBManager) : Z :=
  let totalAvailableIPs := add64 (sub64 (maxOctetRange mm) (minOctetRange mm)) 1 in
  quot64 totalAvailableIPs ipsPerCluster.

(** The start and end octet computed for a cluster before any conflict
    check. *)
Definition candidateWindow (mm : MetalLBManager) (clusterNumber : Z) : Z * Z :=
  let startOctet := add64 (minOctetRange mm) (mul64 (sub64 clusterNumber 1) ipsPerCluster) in
  let endOctet := sub64 (add64 startOctet ipsPerCluster) 1 in
  (startOctet, if endOctet >? maxOctetRange mm then maxOctetRange mm else endOctet).

(** [ipPrefix]: the first three dot-separated parts of the address, when
    it has at least three. *)
Definition ipPrefixOf (minikubeIP : string) : option string :=
  match strings_Split minikubeIP "." with
  | p0 :: p1 :: p2 :: _ => Some (p0 +:+ "." +:+ p1 +:+ "." +:+ p2)
  | _ => None
  end.

(** [currentNodeIPs]: the node IPs of the cluster, none (and a warning)
    when they cannot be listed. *)
Definition currentNodeIPsOf (clientManager : ClientManager) : gset Z * list string :=
  match getNodeIPs clientManager with
  | Ok ips => (ips, [])
  | Err err => (∅, ["failed to get node IPs, continuing without overlap check: " +:+ err])
  end.

(** [combinedNodeIPs]: the tracked node IPs and the current ones. *)
Definition combinedNodeIPsOf (mm : MetalLBManager) (clientManager : ClientManager) : gset Z :=
  allNodeIPs mm ∪ (currentNodeIPsOf clientManager).1.

(** The error of asking for more clusters than fit. *)
Definition notEnoughIPs (mm : MetalLBManager) (totalClusters : Z) : string :=
  "not enough IPs available: need " +:+ fmt_d totalClusters +:+ " clusters but only "
  +:+ fmt_d (maxClusters mm) +:+ " can fit in range " +:+ fmt_d (minOctetRange mm) +:+ "-"
  +:+ fmt_d (maxOctetRange mm) +:+ " (20 IPs per cluster)".

(** The error of an address with fewer than three parts. *)
Definition invalidIPFormat (minikubeIP : string) : string :=
  "invalid minikube IP format: " +:+ minikubeIP.

(** [fmt.Sprintf("%s.%d-%s.%d", ipPrefix, startOctet, ipPrefix, endOctet)] *)
Definition rangeString (ipPrefix : string) (startOctet endOctet : Z) : string :=
  ipPrefix +:+ "." +:+ fmt_d startOctet +:+ "-" +:+ ipPrefix +:+ "." +:+ fmt_d endOctet.

(** [generateMetalLBIPRange] generates a dynamic IP range for MetalLB based
    on cluster network and number; with it, the warnings logged.  The
    node IPs of the allocation are collected by ranging over a Go map,
    whose order is not specified: [elements] stands for one such order. *)
Definition generateMetalLBIPRange (mm : MetalLBManager) (clusterName minikubeIP : string)
    (clusterNumber totalClusters : Z) (clientManager : ClientManager)
  : result (string * MetalLBAllocation) * list string :=
  match ipPrefixOf minikubeIP with
  | None => (Err (invalidIPFormat minikubeIP), [])
  | Some ipPrefix =>
      let '(currentNodeIPs, w1) := currentNodeIPsOf clientManager in
      let combinedNodeIPs := combinedNodeIPsOf mm clientManager in
      if totalClusters >? maxClusters mm then (Err (notEnoughIPs mm totalClusters), w1)
      else
        let '(startOctet, endOctet) := candidateWindow mm clusterNumber in
        let '((startOctet, endOctet), w2) :=
          if bool_decide (rangeKey ipPrefix startOctet endOctet ∈ usedRanges mm)
          then findNextAvailableRange mm startOctet endOctet ipsPerCluster
                 combinedNodeIPs ipPrefix
          else ((startOctet, endOctet), []) in
        let '((startOctet, endOctet), w3) :=
          adjustRangeForNodeIPs mm startOctet endOctet combinedNodeIPs ipPrefix in
        let ipRange := rangeString ipPrefix startOctet endOctet in
        let allocation :=
          {| ClusterName := clusterName;
             IPPrefix := ipPrefix;
             StartOctet := startOctet;
             EndOctet := endOctet;
             NodeIPs := elements currentNodeIPs;
             IPRange := ipRange |} in
        (Ok (ipRange, allocation), w1 ++ w2 ++ w3)
  end.
End Partitioner.

(** The Kubernetes side of a cluster: what creating its client manager
    answers, and the error of applying a manifest, if any. *)
Record ClusterAPI : Type := {
  newClientManager : result ClientManager;
  applyManifest : string -> option string;
}.

(** The IP address pool manifest of [ConfigureMetalLB]. *)
Definition ipPool (ipRange : string) : string :=
  "
apiVersion: metallb.io/v1beta1
kind: IPAddressPool
metadata:
  name: default-pool
  namespace: metallb-system
spec:
  addresses:
  - " +:+ ipRange +:+ "
---
apiVersion: metallb.io/v1beta1
kind: L2Advertisement
metadata:
  name: default-l2
  namespace: metallb-system
spec:
  ipAddressPools:
  - default-pool
".

Section Configure.
Context `{GoLib}.

(** [ConfigureMetalLB] configures MetalLB with IP address pool: the error,
    if any, the warnings logged, and the ledger and the manager
    afterwards. *)
Definition ConfigureMetalLB (cm : ConfigStore) (mm : MetalLBManager) (api : ClusterAPI)
    (clusterName minikubeIp : string) (clusterNumber totalClusters : Z) (project : string)
  : option string * list string * ConfigStore * MetalLBManager :=
  match newClientManager api with
  | Err err => (Some ("failed to create kubernetes client manager: " +:+ err), [], cm, mm)
  | Ok clientManager =>
      match generateMetalLBIPRange mm clusterName minikubeIp clusterNumber totalClusters
              clientManager with
      | (Err err, w) => (Some ("failed to generate MetalLB IP range: " +:+ err), w, cm, mm)
      | (Ok (ipRange, allocation), w) =>
          match applyManifest api (ipPool ipRange) with
          | Some err => (Some ("failed to apply metallb configuration: " +:+ err), w, cm, mm)
          | None =>
              if negb (String.eqb project "") then
                match SaveAllocation cm mm project allocation with
                | (Some err, cm', mm') =>
                    (None,
                     w ++ ["failed to save MetalLB allocation to config: " +:+ err],
                     cm', mm')
                | (None, cm', mm') => (None, w, cm', mm')
                end
              else (None, w, cm, mm)
          end
      end
  end.
End Configure.

(** ** Concrete data for the scenarios *)

(** The manager of the minikube driver: octets 200 to 254. *)
Definition MetalLBRangeMinLastOctet : Z := 200.
Definition MetalLBRangeMaxLastOctet : Z := 254.
Definition mm0 : MetalLBManager :=
  NewMetalLBManagerWithOptions MetalLBRangeMinLastOctet MetalLBRangeMaxLastOctet.

Definition emptyStore : ConfigStore := {| files := ∅; writeError := None |}.

(** A cluster of one node with the given internal address, on which
    every manifest applies. *)
Definition oneNode (address : string) : ClientManager :=
  NodeList [[ {| Addr_Type := "InternalIP"; Addr_Address := address |} ]].
Definition healthy (address : string) : ClusterAPI :=
  {| newClientManager := Ok (oneNode address); applyManifest := fun _ => None |}.

(* ================================================================== *)
(** * Notions used in the statements *)
(* ================================================================== *)

Definition isByte (b : Z) : Prop := 0 <= b < 256.

(** The network [net.ParseCIDR] gives for the IPv4 text [a.b.c.d/p]. *)
Definition cidr4 (a b c d p : Z) : IPNet :=
  {| IP := zip_with Z.land [a; b; c; d] (CIDRMask p 32); Mask := CIDRMask p 32 |}.

(** The prefix length of a network, as the code reads it. *)
Definition prefixOf (n : IPNet) : Z := fst (IPMask_Size (Mask n)).

Fixpoint noChar (c : ascii) (s : string) : bool :=
  match s with
  | EmptyString => true
  | String x s' => negb (Ascii.eqb x c) && noChar c s'
  end.

Fixpoint allDigits (s : string) : bool :=
  match s with
  | EmptyString => true
  | String x s' => isDigit x && allDigits s'
  end.

(** Checks run over every byte and every prefix length. *)
Definition octetTextOk (v : Z) : bool :=
  allDigits (fmt_d v) && bool_decide (parseOctet (fmt_d v) = Some v).
Definition prefixTextOk (p : Z) : bool :=
  allDigits (fmt_d p) && bool_decide (dtoi (fmt_d p) = Some p).
Definition maskBytes4 : list Z := [0; 128; 192; 224; 240; 248; 252; 254; 255].
Definition mask4Ok (p : Z) : bool :=
  match CIDRMask p 32 with
  | [m0; m1; m2; m3] =>
      forallb (fun m => bool_decide (m ∈ maskBytes4)) [m0; m1; m2; m3]
      && bool_decide (IPMask_Size (CIDRMask p 32) = (p, 32))
  | _ => false
  end.

Definition landMaskOk (a : Z) : bool :=
  forallb (fun m =>
             let x := Z.land a m in
             (0 <=? x) && (x <=? m) && (Z.lor x (byte_not m) =? x + (255 - m)))
          maskBytes4.


(** A libvirt daemon with one network, 10.250.0.0/16. *)
Definition lvDemo : Libvirt :=
  Networks [Some [ {| Address := "10.250.0.1"; Elem_Prefix := "";
                      Elem_Netmask := "255.255.0.0" |} ]].


(** A subnet text is an IPv4 one when it parses to a network with a
    4-byte address. *)
Definition isIPv4Subnet `{GoLib} (subnet : string) : Prop :=
  exists ipNet, ParseCIDR subnet = Some ipNet /\ length (IP ipNet) = 4%nat.

(** The address a step of the search moves to: [step] added, modulo 256,
    to the second octet up to /16 and to the third octet otherwise. *)
Definition advance (prefix step : Z) (ip : list Z) : list Z :=
  match ip with
  | [a; b; c; d] =>
      if prefix <=? 16 then [a; (b + step) `mod` 256; c; d]
      else [a; b; (c + step) `mod` 256; d]
  | _ => ip
  end.


(** The network of the text 10.250.0.0/16, and the prober's report on it
    under [lvDemo]. *)
Definition net_10_250 : IPNet := {| IP := [10; 250; 0; 0]; Mask := [255; 255; 0; 0] |}.
Definition overlap_10_250 : string :=
  "subnet 10.250.0.0/16 overlaps with existing libvirt network 10.250.0.0/16".


(** A check run over every prefix length: the host part of an IPv4 mask
    counts [2 ^ (32 - p) - 1] addresses, and up to /30 its last byte leaves
    the two low bits to the hosts. *)
Definition hostMaskOk (p : Z) : bool :=
  match CIDRMask p 32 with
  | [m0; m1; m2; m3] =>
      (ipToZ [255 - m0; 255 - m1; 255 - m2; 255 - m3] =? 2 ^ (32 - p) - 1)
      && ((30 <? p) || (m3 <=? 252))
  | _ => false
  end.

(** The networks of the texts 10.89.0.0/16, 10.0.0.255/32 and 10.0.0.0/31. *)
Definition net_10_89 : IPNet := {| IP := [10; 89; 0; 0]; Mask := [255; 255; 0; 0] |}.
Definition net_slash32 : IPNet := {| IP := [10; 0; 0; 255]; Mask := [255; 255; 255; 255] |}.
Definition net_slash31 : IPNet := {| IP := [10; 0; 0; 0]; Mask := [255; 255; 255; 254] |}.


(** The two-cluster scenario: cluster demo-1, with node 192.168.102.50, is
    configured first, from an empty ledger; [store1] and [mm1] are the
    ledger and the manager afterwards. *)
Definition afterCluster1 : option string * list string * ConfigStore * MetalLBManager :=
  @ConfigureMetalLB goLib4 emptyStore mm0 (healthy "192.168.102.50")
    "demo-1" "192.168.102.50" 1 2 "demo".
Definition store1 : ConfigStore := afterCluster1.1.2.
Definition mm1 : MetalLBManager := afterCluster1.2.


(** The persisted allocations of a project, none when it has no readable
    file. *)
Definition ledger (cm : ConfigStore) (project : string) : list MetalLBAllocation :=
  match LoadConfig cm project with
  | Ok (Some config) => MetalLBAllocations config
  | _ => []
  end.

(** The range key of an allocation, and the indexes of a list of
    allocations. *)
Definition keyOf (alloc : MetalLBAllocation) : string :=
  rangeKey (IPPrefix alloc) (StartOctet alloc) (EndOctet alloc).
Definition keysOf (allocs : list MetalLBAllocation) : gset string :=
  list_to_set (keyOf <$> allocs).
Definition nodesOf (allocs : list MetalLBAllocation) : gset Z :=
  list_to_set (concat (NodeIPs <$> allocs)).

(** The in-memory indexes mirror the ledger of the project, as they do
    after [InitializeTracking]. *)
Definition mirrors (cm : ConfigStore) (mm : MetalLBManager) (project : string) : Prop :=
  usedRanges mm = keysOf (ledger cm project) /\ allNodeIPs mm = nodesOf (ledger cm project).

(** Re-provisioning with a different range: demo-1 is recorded with
    octets 200 to 219 and node 100, the tracking is initialised, and an
    allocation of 201 to 220 with node 101 is saved for demo-1. *)
Definition allocA : MetalLBAllocation :=
  {| ClusterName := "demo-1"; IPPrefix := "192.168.102"; StartOctet := 200;
     EndOctet := 219; NodeIPs := [100]; IPRange := "192.168.102.200-192.168.102.219" |}.
Definition allocB : MetalLBAllocation :=
  {| ClusterName := "demo-1"; IPPrefix := "192.168.102"; StartOctet := 201;
     EndOctet := 220; NodeIPs := [101]; IPRange := "192.168.102.201-192.168.102.220" |}.
Definition storeA : ConfigStore :=
  {| files := {[ "demo" := Stored {| Project := "demo"; MetalLBAllocations := [allocA] |} ]};
     writeError := None |}.
Definition mmA : MetalLBManager := (InitializeTracking storeA mm0 "demo").2.
Definition storeB : ConfigStore := (SaveAllocation storeA mmA "demo" allocB).1.2.
Definition mmB : MetalLBManager := (SaveAllocation storeA mmA "demo" allocB).2.
Definition mmC : MetalLBManager := (InitializeTracking storeB mmB "demo").2.


(** Saving demo-1 for the first time, from an empty ledger. *)
Definition storeS : ConfigStore := (SaveAllocation emptyStore mm0 "demo" allocA).1.2.
Definition mmS : MetalLBManager := (SaveAllocation emptyStore mm0 "demo" allocA).2.


(** A ledger with one recorded allocation, octets 201 to 220 for demo-2,
    and the tracking initialised from it. *)
Definition allocK : MetalLBAllocation :=
  {| ClusterName := "demo-2"; IPPrefix := "192.168.102"; StartOctet := 201;
     EndOctet := 220; NodeIPs := []; IPRange := "192.168.102.201-192.168.102.220" |}.
Definition storeK : ConfigStore :=
  {| files := {[ "demo" := Stored {| Project := "demo"; MetalLBAllocations := [allocK] |} ]};
     writeError := None |}.
Definition mmK : MetalLBManager := (InitializeTracking storeK mm0 "demo").2.

(** Cluster demo-1 configured from an empty ledger while its node has the
    address 192.168.102.205, inside the octet window. *)
Definition afterShift : option string * list string * ConfigStore * MetalLBManager :=
  @ConfigureMetalLB goLib4 emptyStore mm0 (healthy "192.168.102.205")
    "demo-1" "192.168.102.205" 1 2 "demo".
Definition storeO : ConfigStore := afterShift.1.2.
Definition mmO : MetalLBManager := afterShift.2.

(** Two intervals of octets overlap. *)
Definition overlap (s1 e1 s2 e2 : Z) : Prop := s1 <= e2 /\ s2 <= e1.


(** The allocations of the scenarios. *)
Definition alloc2 : MetalLBAllocation :=
  {| ClusterName := "demo-2"; IPPrefix := "192.168.102"; StartOctet := 220;
     EndOctet := 239; NodeIPs := [51]; IPRange := "192.168.102.220-192.168.102.239" |}.
Definition allocShift : MetalLBAllocation :=
  {| ClusterName := "demo-1"; IPPrefix := "192.168.102"; StartOctet := 201;
     EndOctet := 220; NodeIPs := [200]; IPRange := "192.168.102.201-192.168.102.220" |}.
Definition allocO : MetalLBAllocation :=
  {| ClusterName := "demo-1"; IPPrefix := "192.168.102"; StartOctet := 206;
     EndOctet := 225; NodeIPs := [205]; IPRange := "192.168.102.206-192.168.102.225" |}.


(** Two IPv6 texts, read and written as Go does: an instance of the
    library for the IPv6 scenario. *)
Definition fd00 : list Z := [253; 0; 0; 0; 0; 0; 0; 0; 0; 0; 0; 0; 0; 0; 0; 0].
Definition fd00_1 : list Z := [253; 0; 0; 0; 0; 0; 0; 0; 0; 0; 0; 0; 0; 0; 0; 1].
Definition parseAddr6_demo (s : string) : option (list Z) :=
  if String.eqb s "fd00::" then Some fd00
  else if String.eqb s "fd00::1" then Some fd00_1
  else None.
Definition string6_demo (ip : list Z) : string :=
  if bool_decide (ip = fd00) then "fd00::"
  else if bool_decide (ip = fd00_1) then "fd00::1"
  else "::".
Definition goLib6 : GoLib :=
  {| parseAddr6 := parseAddr6_demo;
     string6 := string6_demo;
     sscan_d := fmt_Sscanf_d;
     parseAddr6_length :=
       ltac:(intros s ip; unfold parseAddr6_demo;
             destruct (String.eqb s "fd00::");
             [ intros [= <-]; reflexivity
             | destruct (String.eqb s "fd00::1");
               [ intros [= <-]; reflexivity | discriminate ] ]) |}.

(** A libvirt daemon with one IPv6 network, fd00::/64, and the network of
    the text fd00::/64. *)
Definition lv6 : Libvirt :=
  Networks [Some [ {| Address := "fd00::1"; Elem_Prefix := "64"; Elem_Netmask := "" |} ]].
Definition net_fd00 : IPNet :=
  {| IP := fd00; Mask := [255; 255; 255; 255; 255; 255; 255; 255; 0; 0; 0; 0; 0; 0; 0; 0] |}.


(** A libvirt daemon with one network given by a prefix attribute,
    10.250.0.0/16, and the network of the text 10.250.5.0/24, inside it. *)
Definition lvPrefix16 : Libvirt :=
  Networks [Some [ {| Address := "10.250.0.1"; Elem_Prefix := "16"; Elem_Netmask := "" |} ]].
Definition net_10_250_5 : IPNet := {| IP := [10; 250; 5; 0]; Mask := [255; 255; 255; 0] |}.

(** A libvirt daemon with one network whose prefix attribute is 0; the
    network of the text 10.0.0.1/0, which has every IPv4 address, the one
    of the text 10.0.0.1/24, and the one of the text 192.168.5.0/24. *)
Definition lvPrefix0 : Libvirt :=
  Networks [Some [ {| Address := "10.0.0.1"; Elem_Prefix := "0"; Elem_Netmask := "" |} ]].
Definition net_slash0 : IPNet := {| IP := [0; 0; 0; 0]; Mask := [0; 0; 0; 0] |}.
Definition net_10_0_0 : IPNet := {| IP := [10; 0; 0; 0]; Mask := [255; 255; 255; 0] |}.
Definition net_192_168_5 : IPNet := {| IP := [192; 168; 5; 0]; Mask := [255; 255; 255; 0] |}.

(** A libvirt daemon with one network, 10.250.0.0/24. *)
Definition lvPrefix24 : Libvirt :=
  Networks [Some [ {| Address := "10.250.0.1"; Elem_Prefix := "24"; Elem_Netmask := "" |} ]].
Definition net_10_250_0 : IPNet := {| IP := [10; 250; 0; 0]; Mask := [255; 255; 255; 0] |}.

(** The ledger entry a save replaces: the first one with the cluster name
    of the saved allocation, if there is one. *)
Definition replaced (allocs : list MetalLBAllocation) (allocation : MetalLBAllocation)
  : option MetalLBAllocation :=
  List.find (fun existing => String.eqb (ClusterName existing) (ClusterName allocation)) allocs.

(** Re-provisioning demo-1 next to a second cluster that lists the same
    node: the ledger holds demo-1 with octets 200 to 219 and node 100, and
    demo-2 with octets 220 to 239 and nodes 100 and 51; the tracking is
    initialised, and an allocation of 201 to 220 with node 101 is saved
    for demo-1. *)
Definition allocD : MetalLBAllocation :=
  {| ClusterName := "demo-2"; IPPrefix := "192.168.102"; StartOctet := 220;
     EndOctet := 239; NodeIPs := [100; 51]; IPRange := "192.168.102.220-192.168.102.239" |}.
Definition storeD : ConfigStore :=
  {| files :=
       {[ "demo" := Stored {| Project := "demo"; MetalLBAllocations := [allocA; allocD] |} ]};
     writeError := None |}.
Definition mmD : MetalLBManager := (InitializeTracking storeD mm0 "demo").2.
Definition storeE : ConfigStore := (SaveAllocation storeD mmD "demo" allocB).1.2.
Definition mmE : MetalLBManager := (SaveAllocation storeD mmD "demo" allocB).2.

(** An IPv4-mapped IPv6 text, read as Go does: an instance of the library
    for a start that is not IPv4 although its address has a 4-byte form;
    a libvirt daemon with the network 10.0.0.0/8. *)
Definition parseAddr6_mapped (s : string) : option (list Z) :=
  if String.eqb s "::ffff:10.0.0.0" then Some (IPv4 10 0 0 0) else None.
Definition goLibMapped : GoLib :=
  {| parseAddr6 := parseAddr6_mapped;
     string6 := fun _ => "::";
     sscan_d := fmt_Sscanf_d;
     parseAddr6_length :=
       ltac:(intros s ip; unfold parseAddr6_mapped;
             destruct (String.eqb s "::ffff:10.0.0.0");
             [ intros [= <-]; reflexivity | discriminate ]) |}.
Definition lv10 : Libvirt :=
  Networks [Some [ {| Address := "10.0.0.1"; Elem_Prefix := ""; Elem_Netmask := "255.0.0.0" |} ]].

(* ================================================================== *)
(** * More of the kind driver (manager.go) *)
(* ================================================================== *)

Definition KindRegistryPort : Z := 5000.

Section RegistryPort.
(** [isPortAvailable]: whether binding the TCP port succeeds now. *)
Variable isPortAvailable : Z -> bool.

(** The ports of [for port := 30000; port <= 65535; port++]. *)
Definition registryPorts : list Z := seqZ 30000 (65535 - 30000 + 1).

(** [getAvailableRegistryPort] returns an available registry port: 5000
    first, then the ports from 30000 up. *)
Definition getAvailableRegistryPort : result Z :=
  if isPortAvailable KindRegistryPort then Ok KindRegistryPort
  else
    match List.find isPortAvailable registryPorts with
    | Some port => Ok port
    | None => Err "no available ports found above 30000"
    end.
End RegistryPort.

(** [getRegion] returns a region name based on index. *)
Definition getRegion (index : Z) : string :=
  let regions := ["us-east1"; "us-east2"; "us-west1"; "us-west2"] in
  if (index <? 0) || (index >=? Z.of_nat (length regions)) then nth 0 regions ""
  else nth (Z.to_nat index) regions "".

(** [getZone] returns a zone name based on index. *)
Definition getZone (index : Z) : string :=
  let zones := ["us-east1-a"; "us-east2-a"; "us-west1-a"; "us-west2-a"] in
  if (index <? 0) || (index >=? Z.of_nat (length zones)) then nth 0 zones ""
  else nth (Z.to_nat index) zones "".

Section Gateway.
Context `{GoLib}.

(** [generateGatewayIPFromSubnet] generates a gateway IP from a subnet
    CIDR: the network address with its last byte incremented.  [None] is
    the run-time panic of indexing an empty address. *)
Definition generateGatewayIPFromSubnet (subnetCIDR : string) : option (result string) :=
  match ParseCIDR subnetCIDR with
  | None =>
      Some (Err ("failed to parse subnet CIDR " +:+ subnetCIDR +:+ ": invalid CIDR address: "
                 +:+ subnetCIDR))
  | Some ipNet =>
      let ip := default (IP ipNet) (To4 (IP ipNet)) in
      if (length ip =? 0)%nat then None
      else
        let gateway := incLast ip in
        Some (Ok (IP_String gateway))
  end.
End Gateway.

Module Kind.
(** [CreateOptions] contains options for creating kind clusters. *)
Record CreateOptions : Type := {
  Project : string;
  GatewayIP : string;
  SubnetCIDR : string;
  NumClusters : Z;
  NodeCount : Z;
  K8sVersion : string;
  InstallMetalLB : bool;
  InstallCloudProvider : bool;
  CNI : string;
  ContainerRuntime : string;
  PreferredContainerEngine : string;
  Recreate : bool;
}.

(** The assignments [opts.InstallMetalLB = v] and
    [opts.InstallCloudProvider = v]. *)
Definition setInstallMetalLB (v : bool) (opts : CreateOptions) : CreateOptions :=
  {| Project := Project opts; GatewayIP := GatewayIP opts; SubnetCIDR := SubnetCIDR opts;
     NumClusters := NumClusters opts; NodeCount := NodeCount opts;
     K8sVersion := K8sVersion opts; InstallMetalLB := v;
     InstallCloudProvider := InstallCloudProvider opts; CNI := CNI opts;
     ContainerRuntime := ContainerRuntime opts;
     PreferredContainerEngine := PreferredContainerEngine opts; Recreate := Recreate opts |}.
Definition setInstallCloudProvider (v : bool) (opts : CreateOptions) : CreateOptions :=
  {| Project := Project opts; GatewayIP := GatewayIP opts; SubnetCIDR := SubnetCIDR opts;
     NumClusters := NumClusters opts; NodeCount := NodeCount opts;
     K8sVersion := K8sVersion opts; InstallMetalLB := InstallMetalLB opts;
     InstallCloudProvider := v; CNI := CNI opts;
     ContainerRuntime := ContainerRuntime opts;
     PreferredContainerEngine := PreferredContainerEngine opts; Recreate := Recreate opts |}.

(** [validateLoadBalancerOptions] validates that MetalLB and
    cloud-provider-kind are not both enabled and sets default to
    cloud-provider-kind for kind clusters: the error, if any, the options
    afterwards, and the warnings logged.  [isDarwin] is
    [config.IsDarwin()]. *)
Definition validateLoadBalancerOptions (isDarwin : bool) (opts : CreateOptions)
  : option string * CreateOptions * list string :=
  let '(opts, w) :=
    if InstallMetalLB opts && isDarwin then
      (setInstallCloudProvider true (setInstallMetalLB false opts),
       ["⚠️ MetalLB on Darwin is not effective due to Docker's networking limitations";
        "⚠️ Docker on macOS doesn't support proper networking to expose load balancer IPs";
        "⚠️ automatically switching to cloud-provider-kind for load balancer functionality"])
    else (opts, []) in
  let opts :=
    if negb (InstallMetalLB opts) && negb (InstallCloudProvider opts)
    then setInstallCloudProvider true opts else opts in
  if InstallMetalLB opts && InstallCloudProvider opts then
    (Some "MetalLB and cloud-provider-kind cannot be installed together - they conflict with each other",
     opts, w)
  else (None, opts, w).
End Kind.

(* ================================================================== *)
(** * Project settings (config.go) *)
(* ================================================================== *)

Definition MinikubeServiceIPRangeBase : string := "10.255".

(** [fmt.Sprintf("%02d", n)]: at least two characters, zero-padded; the
    sign of a negative number counts as one. *)
Definition fmt_02d (n : Z) : string :=
  if (0 <=? n) && (n <? 10) then "0" +:+ fmt_d n else fmt_d n.

Fixpoint inCutset (c : ascii) (cutset : string) : bool :=
  match cutset with
  | EmptyString => false
  | String x cutset' => Ascii.eqb c x || inCutset c cutset'
  end.

(** [strings.TrimLeft(s, cutset)] for a cutset of one-byte characters. *)
Fixpoint strings_TrimLeft (s cutset : string) : string :=
  match s with
  | EmptyString => EmptyString
  | String c s' => if inCutset c cutset then strings_TrimLeft s' cutset else s
  end.

(** [GetMinikubeServiceIPRange] returns the service cluster IP range for
    a given cluster index. *)
Definition GetMinikubeServiceIPRange (clusterIndex : Z) : string :=
  let twoDigits := fmt_02d clusterIndex in
  let indexStr := strings_TrimLeft twoDigits "0" in
  let indexStr := if String.eqb indexStr "" then "0" else indexStr in
  MinikubeServiceIPRangeBase +:+ "." +:+ indexStr +:+ ".0/24".

Module Settings.
(** [ProjectConfig] represents the configuration for a specific project,
    with all its fields. *)
Record ProjectConfig : Type := {
  Project : string;
  Environment : string;
  NumClusters : Z;
  NodeCount : Z;
  K8sVersion : string;
  GatewayIP : string;
  SubnetCIDR : string;
  Bridge : string;
  CPU : string;
  Memory : string;
  DiskSize : string;
  CNI : string;
  ContainerRuntime : string;
  ContainerEngine : string;
  InstallMetalLB : bool;
  InstallCloudProvider : bool;
  SkipMetalLB : bool;
  MetalLBAllocations : list MetalLBAllocation;
}.


End Settings.

(* ================================================================== *)
(** * Version comparison (version.go) *)
(* ================================================================== *)

(** The rest of [s] after [prefix], when [s] starts with it. *)
Fixpoint stripPrefix (prefix s : string) : option string :=
  match prefix, s with
  | EmptyString, _ => Some s
  | String a prefix', String b s' => if Ascii.eqb a b then stripPrefix prefix' s' else None
  | String _ _, EmptyString => None
  end.

(** [strings.TrimPrefix(s, prefix)] *)
Definition strings_TrimPrefix (s prefix : string) : string :=
  default s (stripPrefix prefix s).

(** [for len(parts) < maxLen { parts = append(parts, "0") }] *)
Definition padParts (parts : list string) (maxLen : nat) : list string :=
  parts ++ replicate (maxLen - length parts) "0".

(** The loop of [Compare] over the padded parts; strings are compared
    byte by byte, as Go's [<] does. *)
Fixpoint compareParts (parts1 parts2 : list string) : Z :=
  match parts1, parts2 with
  | p1 :: rest1, p2 :: rest2 =>
      match strconv_Atoi p1, strconv_Atoi p2 with
      | Some num1, Some num2 =>
          if num1 <? num2 then -1
          else if num1 >? num2 then 1
          else compareParts rest1 rest2
      | _, _ =>
          if String.ltb p1 p2 then -1
          else if String.ltb p2 p1 then 1
          else compareParts rest1 rest2
      end
  | _, _ => 0
  end.

(** [Compare] compares two semantic versions: -1 if v1 < v2, 0 if
    v1 == v2, 1 if v1 > v2. *)
Definition Compare (v1 v2 : string) : Z :=
  let v1 := strings_TrimPrefix v1 "v" in
  let v2 := strings_TrimPrefix v2 "v" in
  if String.eqb v1 v2 then 0
  else
    let parts1 := strings_Split v1 "." in
    let parts2 := strings_Split v2 "." in
    let maxLen := Nat.max (length parts1) (length parts2) in
    compareParts (padParts parts1 maxLen) (padParts parts2 maxLen).

(** A match of [[0-9]+]. *)
Definition digitRun (s : string) : bool := negb (String.eqb s "") && allDigits s.

(** [IsValidSemver] checks if a version string is a valid semantic
    version: a match of [^[0-9]+\.[0-9]+\.[0-9]+$] after the prefix
    "v". *)
Definition IsValidSemver (version : string) : bool :=
  let version := strings_TrimPrefix version "v" in
  match strings_Split version "." with
  | [major; minor; patch] => digitRun major && digitRun minor && digitRun patch
  | _ => false
  end.

(* ================================================================== *)
(** * Load balancer ports of the kind tunnel (part_002) *)
(* ================================================================== *)

Module Tunnel.
(** [LoadBalancerPortInfo] represents port information for load balancer
    containers. *)
Record LoadBalancerPortInfo : Type := {
  ClusterName : string;
  LoadBalancerName : string;
  HostPort : string;
  ServicePort : string;
  Protocol : string;
  IPVersion : string;
  URL : string;
}.

(** The key of an entry: [fmt.Sprintf("%s:%s:%s:%s:%s", ...)], the IP
    family ignored. *)
Definition portKey (info : LoadBalancerPortInfo) : string :=
  ClusterName info +:+ ":" +:+ LoadBalancerName info +:+ ":" +:+ HostPort info +:+ ":"
  +:+ ServicePort info +:+ ":" +:+ Protocol info.

(** The loop of [deduplicatePorts], [seen] being the keys met so far. *)
Fixpoint dedup_loop (seen : gset string) (portInfos : list LoadBalancerPortInfo)
  : list LoadBalancerPortInfo :=
  match portInfos with
  | [] => []
  | info :: rest =>
      if bool_decide (portKey info ∈ seen) then dedup_loop seen rest
      else info :: dedup_loop ({[ portKey info ]} ∪ seen) rest
  end.

(** [deduplicatePorts] removes duplicate port entries, keeping only one
    entry per unique combination of cluster, load balancer, host port,
    service port, and protocol. *)
Definition deduplicatePorts (portInfos : list LoadBalancerPortInfo)
  : list LoadBalancerPortInfo :=
  dedup_loop ∅ portInfos.
End Tunnel.

(* ================================================================== *)
(** * Further notions used in the statements *)
(* ================================================================== *)

(** The network the prober reads from an IP element: the element has an
    address, which parses; its prefix length is the number read from the
    prefix attribute when there is one, else the number of leading ones of
    the netmask attribute when there is one, else 24, and 24 again when
    that number is 0; and the address under that length parses as a
    CIDR. *)
Definition readsAs `{GoLib} (ipElem : libvirtIPElement) (existing : IPNet) : Prop :=
  Address ipElem <> "" /\ is_Some (ParseIP (Address ipElem))
  /\ exists read,
       (Elem_Prefix ipElem <> "" /\ sscan_d (Elem_Prefix ipElem) = Some read
        \/ Elem_Prefix ipElem = "" /\ Elem_Netmask ipElem <> ""
           /\ (exists netmaskIP,
                 ParseIP (Elem_Netmask ipElem) = Some netmaskIP
                 /\ read = fst (IPMask_Size (default [] (To4 netmaskIP))))
        \/ Elem_Prefix ipElem = "" /\ Elem_Netmask ipElem = "" /\ read = 24)
       /\ ParseCIDR (Address ipElem +:+ "/" +:+ fmt_d (if read =? 0 then 24 else read))
          = Some existing.

(** The private ranges of RFC 1918, on the first two bytes of an IPv4
    address: 10/8, 172.16/12 and 192.168/16. *)
Definition rfc1918 (a b : Z) : bool :=
  (a =? 10) || ((a =? 172) && (16 <=? b) && (b <=? 31)) || ((a =? 192) && (b =? 168)).

(** Checks run over every byte. *)
Definition privateOk (a : Z) : bool :=
  forallb (fun b => Bool.eqb (isPrivateIP [a; b; 0; 0]) (rfc1918 a b)) (seqZ 0 256).
Definition gatewayMaskOk (d : Z) : bool :=
  forallb (fun m =>
             (m =? 255)
             || (let x := Z.land d m in
                 (x + 1 <? 256) && (Z.land (x + 1) m =? x)))
          maskBytes4.
(** A check run over every prefix length: up to /31 the last byte of
    the mask leaves the lowest bit to the hosts. *)
Definition lastMaskOk (p : Z) : bool :=
  match CIDRMask p 32 with
  | [_; _; _; m3] => (31 <? p) || negb (m3 =? 255)
  | _ => false
  end.

(** The numeric order of two lists of numbers, component by component. *)
Fixpoint lexCompare (l1 l2 : list Z) : Z :=
  match l1, l2 with
  | x :: rest1, y :: rest2 =>
      if x <? y then -1 else if x >? y then 1 else lexCompare rest1 rest2
  | _, _ => 0
  end.

(** The numbers of a dotted version text, the prefix "v" ignored. *)
Definition versionNumbers (version : string) : list Z :=
  omap digits (strings_Split (strings_TrimPrefix version "v") ".").

(* ================================================================== *)
(** * Properties *)
(* ================================================================== *)

#[local] Set Warnings "-clear-no-such-hyp".

(** ** Go integers *)

Lemma wrap64_small (z : Z) : - 2 ^ 63 <= z < 2 ^ 63 -> wrap64 z = z.
Proof.
  intros Hz. unfold wrap64.
  rewrite Z.mod_small by lia. lia.
Qed.

Lemma byte_range (z : Z) : 0 <= byte z < 256.
Proof. unfold byte. apply Z.mod_pos_bound. lia. Qed.

Lemma byte_small (z : Z) : 0 <= z < 256 -> byte z = z.
Proof. intros Hz. unfold byte. apply Z.mod_small. lia. Qed.

(** ** Bounded search in a range of integers *)

Lemma find_seqZ_first (f : Z -> bool) (n lo p : Z) :
  lo <= p < lo + n ->
  f p = true ->
  (forall q, lo <= q < p -> f q = false) ->
  List.find f (seqZ lo n) = Some p.
Proof.
  intros Hp Hfp Hbefore.
  remember (Z.to_nat (p - lo)) as k eqn:Hk.
  revert lo n Hp Hbefore Hk.
  induction k as [|k IH]; intros lo n Hp Hbefore Hk.
  - assert (p = lo) as -> by lia.
    rewrite seqZ_cons by lia. simpl. by rewrite Hfp.
  - rewrite seqZ_cons by lia. simpl.
    rewrite (Hbefore lo) by lia.
    apply IH; [lia | intros q Hq; apply Hbefore; lia | lia].
Qed.

Lemma find_seqZ_none (f : Z -> bool) (lo n : Z) :
  List.find f (seqZ lo n) = None <-> forall q, lo <= q < lo + n -> f q = false.
Proof.
  split.
  - intros Hnone q Hq.
    apply (find_none f _ Hnone q).
    apply list_elem_of_In, elem_of_seqZ. lia.
  - intros Hall. destruct (List.find f (seqZ lo n)) as [x|] eqn:Hfind; [|done].
    apply find_some in Hfind as [Hin Hfx].
    apply list_elem_of_In, elem_of_seqZ in Hin.
    rewrite Hall in Hfx by lia. discriminate.
Qed.

(** ** Control-plane port selection *)

(** C9.  [getAvailablePortPrefix] returns the preferred port, 7000 plus
    the cluster index, whenever that port can be bound; otherwise the
    first port of 29000..30100, scanned upwards, that can be bound; and it
    fails, with the no-port error, exactly when the preferred port and
    every port of 29000..30100 cannot be bound. *)
Theorem getAvailablePortPrefix_spec (isPortAvailable : Z -> bool) (clusterIndex : Z) :
  let preferredPort := add64 KindControlPlanePort clusterIndex in
  (- 2 ^ 62 <= clusterIndex <= 2 ^ 62 -> preferredPort = 7000 + clusterIndex)
  /\ (isPortAvailable preferredPort = true ->
      getAvailablePortPrefix isPortAvailable clusterIndex = Ok (fmt_d preferredPort))
  /\ (forall port,
        isPortAvailable preferredPort = false ->
        29000 <= port <= 30100 ->
        isPortAvailable port = true ->
        (forall q, 29000 <= q < port -> isPortAvailable q = false) ->
        getAvailablePortPrefix isPortAvailable clusterIndex = Ok (fmt_d port))
  /\ (forall e,
        getAvailablePortPrefix isPortAvailable clusterIndex = Err e <->
        e = "no available ports found in range 29000 - 30100"
        /\ isPortAvailable preferredPort = false
        /\ forall port, 29000 <= port <= 30100 -> isPortAvailable port = false).
Proof.
  cbv zeta. unfold getAvailablePortPrefix, fallbackPorts.
  split; [|split; [|split]].
  - intros Hidx. unfold add64, KindControlPlanePort. apply wrap64_small. lia.
  - intros ->. done.
  - intros port Hpref Hport Havail Hfirst. rewrite Hpref.
    rewrite (find_seqZ_first isPortAvailable _ _ port); [done | lia | done | done].
  - intros e. split.
    + destruct (isPortAvailable _); [discriminate|].
      destruct (List.find _ _) as [x|] eqn:Hfind; [discriminate|].
      intros [= <-]. split; [done|]. split; [done|].
      intros port Hport. apply (proj1 (find_seqZ_none _ _ _) Hfind). lia.
    + intros (-> & -> & Hall).
      rewrite (proj2 (find_seqZ_none isPortAvailable 29000 (30100 - 29000 + 1))); [done|].
      intros q Hq. apply Hall. lia.
Qed.

(** ** Checking a property of every integer of a range by computation *)

Lemma forallb_seqZ (P : Z -> bool) (lo n : Z) :
  forallb P (seqZ lo n) = true -> forall z, lo <= z < lo + n -> P z = true.
Proof.
  intros Hall z Hz. rewrite forallb_forall in Hall.
  apply Hall, list_elem_of_In, elem_of_seqZ. lia.
Qed.

(** ** The text of addresses and networks *)

Lemma allDigits_noChar (c : ascii) (s : string) :
  isDigit c = false -> allDigits s = true -> noChar c s = true.
Proof.
  intros Hc. induction s as [|x s IH]; simpl; [done|].
  intros [Hx Hs]%andb_true_iff. rewrite IH by done.
  destruct (Ascii.eqb_spec x c) as [->|]; [congruence | done].
Qed.

Lemma noChar_app (c : ascii) (s t : string) :
  noChar c (s +:+ t) = noChar c s && noChar c t.
Proof. induction s as [|x s IH]; simpl; [done|]. by rewrite IH, andb_assoc. Qed.

Lemma strings_Split_nosep (sep : ascii) (s : string) :
  noChar sep s = true -> strings_Split s sep = [s].
Proof.
  induction s as [|x s IH]; simpl; [done|].
  intros [Hx Hs]%andb_true_iff. apply negb_true_iff in Hx. rewrite Hx, IH; done.
Qed.

Lemma strings_Split_app (sep : ascii) (s t : string) :
  noChar sep s = true ->
  strings_Split (s +:+ String sep t) sep = s :: strings_Split t sep.
Proof.
  induction s as [|x s IH]; simpl.
  - intros _. by rewrite Ascii.eqb_refl.
  - intros [Hx Hs]%andb_true_iff. apply negb_true_iff in Hx. rewrite Hx, IH; done.
Qed.

Lemma cut_app (sep : ascii) (s t : string) :
  noChar sep s = true -> cut (s +:+ String sep t) sep = Some (s, t).
Proof.
  induction s as [|x s IH]; simpl.
  - intros _. by rewrite Ascii.eqb_refl.
  - intros [Hx Hs]%andb_true_iff. apply negb_true_iff in Hx. rewrite Hx, IH; done.
Qed.

Lemma firstSep_digits_dot (s t : string) :
  allDigits s = true -> firstSep (s +:+ String "." t) = Some "."%char.
Proof.
  induction s as [|x s IH]; simpl; [done|].
  intros [Hx Hs]%andb_true_iff.
  destruct (Ascii.eqb_spec x "."%char) as [->|]; [done|].
  destruct (Ascii.eqb_spec x ":"%char) as [->|]; [done|].
  destruct (Ascii.eqb_spec x "%"%char) as [->|]; [done|].
  simpl. by apply IH.
Qed.

(** The decimal text of a byte reads back as the byte. *)
Lemma octetText (v : Z) :
  isByte v -> allDigits (fmt_d v) = true /\ parseOctet (fmt_d v) = Some v.
Proof.
  intros Hv.
  assert (octetTextOk v = true) as Hok.
  { apply (forallb_seqZ octetTextOk 0 256); [by vm_compute | unfold isByte in Hv; lia]. }
  apply andb_true_iff in Hok as [? ?%bool_decide_eq_true]. done.
Qed.

(** The decimal text of a prefix length reads back as the length. *)
Lemma prefixText (p : Z) :
  0 <= p <= 128 -> allDigits (fmt_d p) = true /\ dtoi (fmt_d p) = Some p.
Proof.
  intros Hp.
  assert (prefixTextOk p = true) as Hok.
  { apply (forallb_seqZ prefixTextOk 0 129); [by vm_compute | lia]. }
  apply andb_true_iff in Hok as [? ?%bool_decide_eq_true]. done.
Qed.

(** An IPv4 mask is four bytes out of nine, and its size is its prefix. *)
Lemma CIDRMask_v4 (p : Z) :
  0 <= p <= 32 ->
  exists m0 m1 m2 m3,
    CIDRMask p 32 = [m0; m1; m2; m3]
    /\ m0 ∈ maskBytes4 /\ m1 ∈ maskBytes4 /\ m2 ∈ maskBytes4 /\ m3 ∈ maskBytes4
    /\ IPMask_Size (CIDRMask p 32) = (p, 32).
Proof.
  intros Hp.
  assert (mask4Ok p = true) as Hok.
  { apply (forallb_seqZ mask4Ok 0 33); [by vm_compute | lia]. }
  unfold mask4Ok in Hok.
  destruct (CIDRMask p 32) as [|m0 [|m1 [|m2 [|m3 [|? ?]]]]]; try discriminate.
  apply andb_true_iff in Hok as [Hm Hsize%bool_decide_eq_true].
  simpl in Hm. rewrite !andb_true_iff, !bool_decide_eq_true in Hm.
  destruct Hm as (? & ? & ? & ? & _).
  exists m0, m1, m2, m3. done.
Qed.

Lemma land_mask (a m : Z) :
  isByte a -> m ∈ maskBytes4 ->
  0 <= Z.land a m <= m /\ Z.lor (Z.land a m) (byte_not m) = Z.land a m + (255 - m).
Proof.
  intros Ha Hm.
  assert (landMaskOk a = true) as Hok.
  { apply (forallb_seqZ landMaskOk 0 256); [by vm_compute | unfold isByte in Ha; lia]. }
  unfold landMaskOk in Hok. rewrite forallb_forall in Hok.
  specialize (Hok m (proj1 (list_elem_of_In _ _) Hm)). simpl in Hok.
  rewrite !andb_true_iff in Hok. destruct Hok as [[H0 H1] H2].
  apply Z.leb_le in H0, H1. apply Z.eqb_eq in H2. done.
Qed.

Lemma maskBytes4_range (m : Z) : m ∈ maskBytes4 -> 0 <= m <= 255.
Proof.
  unfold maskBytes4. rewrite !elem_of_cons, elem_of_nil. lia.
Qed.

Lemma land_mask_byte (a m : Z) : isByte a -> m ∈ maskBytes4 -> isByte (Z.land a m).
Proof.
  intros Ha Hm. destruct (land_mask a m Ha Hm) as [? _].
  apply maskBytes4_range in Hm. unfold isByte. lia.
Qed.

Section TextProps.
Context `{GoLib}.

Lemma IP_String_v4 (a b c d : Z) :
  IP_String [a; b; c; d]
  = fmt_d a +:+ String "." (fmt_d b +:+ String "." (fmt_d c +:+ String "." (fmt_d d))).
Proof. reflexivity. Qed.

Lemma parseIPv4_String (a b c d : Z) :
  isByte a -> isByte b -> isByte c -> isByte d ->
  parseIPv4 (IP_String [a; b; c; d]) = Some [a; b; c; d].
Proof.
  intros [Da Pa]%octetText [Db Pb]%octetText [Dc Pc]%octetText [Dd Pd]%octetText.
  rewrite IP_String_v4. unfold parseIPv4.
  rewrite !strings_Split_app, strings_Split_nosep by (by apply allDigits_noChar).
  by rewrite Pa, Pb, Pc, Pd.
Qed.

Lemma ParseAddr_String (a b c d : Z) :
  isByte a -> isByte b -> isByte c -> isByte d ->
  ParseAddr (IP_String [a; b; c; d]) = Some (IPv4 a b c d, 32).
Proof.
  intros Ha Hb Hc Hd. unfold ParseAddr.
  rewrite parseIPv4_String by done.
  rewrite IP_String_v4, firstSep_digits_dot; [done|].
  by apply octetText.
Qed.

(** Reading back the text of an IPv4 address gives the address. *)
Lemma ParseIP_String (a b c d : Z) :
  isByte a -> isByte b -> isByte c -> isByte d ->
  ParseIP (IP_String [a; b; c; d]) ≫= To4 = Some [a; b; c; d].
Proof.
  intros Ha Hb Hc Hd. unfold ParseIP. by rewrite ParseAddr_String.
Qed.

Lemma IP_String_noSlash (a b c d : Z) :
  isByte a -> isByte b -> isByte c -> isByte d ->
  noChar "/" (IP_String [a; b; c; d]) = true.
Proof.
  intros [Da _]%octetText [Db _]%octetText [Dc _]%octetText [Dd _]%octetText.
  rewrite IP_String_v4.
  repeat (rewrite noChar_app; simpl).
  rewrite !allDigits_noChar by done. done.
Qed.

Lemma IP_Mask_v4 (a b c d p : Z) :
  0 <= p <= 32 ->
  IP_Mask (IPv4 a b c d) (CIDRMask p 32) = zip_with Z.land [a; b; c; d] (CIDRMask p 32).
Proof.
  intros Hp. destruct (CIDRMask_v4 p Hp) as (m0 & m1 & m2 & m3 & -> & _). reflexivity.
Qed.

(** Reading back the text of an IPv4 network gives the network. *)
Lemma ParseCIDR_String (a b c d p : Z) :
  isByte a -> isByte b -> isByte c -> isByte d -> 0 <= p <= 32 ->
  ParseCIDR (IP_String [a; b; c; d] +:+ "/" +:+ fmt_d p) = Some (cidr4 a b c d p).
Proof.
  intros Ha Hb Hc Hd Hp. unfold ParseCIDR.
  change ("/" +:+ fmt_d p) with (String "/" (fmt_d p)).
  rewrite cut_app by (by apply IP_String_noSlash).
  rewrite ParseAddr_String by done.
  destruct (prefixText p) as [_ ->]; [lia|].
  destruct (Z.ltb_spec 32 p); [lia|].
  unfold cidr4. by rewrite IP_Mask_v4.
Qed.

Lemma maskBytes_length (l : nat) (n : Z) : length (maskBytes l n) = l.
Proof.
  revert n. induction l as [|l IH]; intros n; [done|].
  cbn [maskBytes]. destruct (8 <=? n); cbn [length]; by rewrite IH.
Qed.

Lemma IP_Mask_length16 (ip m : list Z) :
  length ip = 16%nat -> length m = 16%nat -> length (IP_Mask ip m) = 16%nat.
Proof.
  intros Hip Hm. unfold IP_Mask. rewrite Hm, Hip.
  change ((16 =? 16)%nat && (16 =? 4)%nat && forallb (Z.eqb 255) (take 12 m)) with false.
  cbv iota zeta. rewrite Hm.
  change ((16 =? 4)%nat && (16 =? 16)%nat && bool_decide (take 12 ip = v4InV6Prefix))
    with false.
  cbv iota. rewrite Hip. change (16 =? 16)%nat with true. cbv iota.
  rewrite length_zip_with, Hm, Hip. done.
Qed.

Lemma digits_go_nonneg (s : string) (acc v : Z) :
  0 <= acc -> digits_go acc s = Some v -> 0 <= v.
Proof.
  revert acc. induction s as [|x s IH]; simpl; intros acc Hacc.
  - intros [= <-]. done.
  - destruct (isDigit x) eqn:Hx; [|discriminate].
    apply IH. unfold isDigit in Hx. unfold digitVal.
    apply andb_true_iff in Hx as [Hlo%Nat.leb_le _]. lia.
Qed.

Lemma digits_nonneg (s : string) (v : Z) : digits s = Some v -> 0 <= v.
Proof.
  destruct s; [discriminate|]. unfold digits. by apply digits_go_nonneg.
Qed.

Lemma parseOctet_byte (f : string) (v : Z) : parseOctet f = Some v -> isByte v.
Proof.
  unfold parseOctet.
  destruct (String.prefix "0" f && negb (String.eqb f "0")); [discriminate|].
  destruct (digits f) as [v0|] eqn:Hd; [|discriminate].
  destruct (Z.leb_spec v0 255); [|discriminate].
  intros [= <-]. apply digits_nonneg in Hd. unfold isByte. lia.
Qed.

(** Every network [ParseCIDR] reads with a 4-byte address is the network
    of an IPv4 text [a.b.c.d/p]. *)
Lemma ParseCIDR_v4_inv (s : string) (n : IPNet) :
  ParseCIDR s = Some n -> length (IP n) = 4%nat ->
  exists a b c d p,
    isByte a /\ isByte b /\ isByte c /\ isByte d /\ 0 <= p <= 32 /\ n = cidr4 a b c d p.
Proof.
  unfold ParseCIDR. intros Hparse Hlen.
  destruct (cut s "/") as [[addr mask]|]; [|discriminate].
  destruct (ParseAddr addr) as [[ip16 bitLen]|] eqn:Haddr; [|discriminate].
  destruct (dtoi mask) as [p|] eqn:Hmask; [|discriminate].
  destruct (Z.ltb_spec bitLen p) as [|Hle]; [discriminate|].
  injection Hparse as <-. simpl in Hlen.
  assert (0 <= p) as Hp0.
  { unfold dtoi in Hmask. destruct (digits mask) as [p'|] eqn:Hd; [|discriminate].
    destruct (p' <? 16777215); [|discriminate]. injection Hmask as <-.
    by apply digits_nonneg in Hd. }
  unfold ParseAddr in Haddr.
  destruct (firstSep addr) as [sep|]; [|discriminate].
  destruct (Ascii.eqb sep ".").
  - unfold parseIPv4 in Haddr.
    destruct (strings_Split addr ".") as [|f0 [|f1 [|f2 [|f3 [|? ?]]]]]; try discriminate.
    destruct (parseOctet f0) as [a|] eqn:Ha; [|discriminate].
    destruct (parseOctet f1) as [b|] eqn:Hb; [|discriminate].
    destruct (parseOctet f2) as [c|] eqn:Hc; [|discriminate].
    destruct (parseOctet f3) as [d|] eqn:Hd; [|discriminate].
    injection Haddr as <- <-.
    exists a, b, c, d, p. repeat split; try (by eapply parseOctet_byte); try lia.
    unfold cidr4. by rewrite IP_Mask_v4 by lia.
  - destruct (Ascii.eqb sep ":"); [|discriminate].
    destruct (parseAddr6 addr) as [ip|] eqn:H6; [|discriminate].
    injection Haddr as <- <-. apply parseAddr6_length in H6.
    assert (length (CIDRMask p 128) = 16%nat) as Hm.
    { unfold CIDRMask. change (negb ((128 =? 32) || (128 =? 128))) with false. cbv iota.
      destruct (Z.ltb_spec p 0); [lia|]. destruct (Z.ltb_spec 128 p); [lia|].
      cbv iota beta delta [orb]. apply maskBytes_length. }
    rewrite (IP_Mask_length16 _ _ H6 Hm) in Hlen. discriminate.
Qed.
End TextProps.

(** ** The subnet prober *)

Lemma strings_Contains_app_r (a b sub : string) :
  strings_Contains b sub = true -> strings_Contains (a +:+ b) sub = true.
Proof.
  intros Hb. induction a as [|x a IH]; [done|].
  change (String x a +:+ b) with (String x (a +:+ b)).
  cbn [strings_Contains]. rewrite IH. apply orb_true_r.
Qed.

Section ProberProps.
Context `{GoLib}.

(** The overlap error is the one error the search reads as an overlap. *)
Lemma overlapError_overlaps (ipNet existing : IPNet) :
  strings_Contains (overlapError ipNet existing) "overlaps" = true.
Proof.
  unfold overlapError.
  apply (strings_Contains_app_r "subnet ").
  apply strings_Contains_app_r. reflexivity.
Qed.

Lemma checkElems_Some (ipNet : IPNet) (elems : list libvirtIPElement) (e : string) :
  checkElems ipNet elems = Some e ->
  exists ipElem existing,
    ipElem ∈ elems /\ existingNet ipElem = Some existing
    /\ netsOverlap ipNet existing = true /\ e = overlapError ipNet existing.
Proof.
  induction elems as [|x elems IH]; [discriminate|]. cbn [checkElems].
  destruct (existingNet x) as [existing|] eqn:Hx.
  - destruct (netsOverlap ipNet existing) eqn:Hov.
    + intros [= <-]. exists x, existing. repeat split; [left | done | done].
    + intros (y & ex & Hy & ?)%IH. exists y, ex. split; [by right | done].
  - intros (y & ex & Hy & ?)%IH. exists y, ex. split; [by right | done].
Qed.

Lemma checkElems_None (ipNet : IPNet) (elems : list libvirtIPElement) :
  checkElems ipNet elems = None ->
  forall ipElem existing,
    ipElem ∈ elems -> existingNet ipElem = Some existing -> netsOverlap ipNet existing = false.
Proof.
  induction elems as [|x elems IH]; intros Hnone ipElem existing Hin Hex.
  - by apply elem_of_nil in Hin.
  - cbn [checkElems] in Hnone. apply elem_of_cons in Hin as [->|Hin].
    + rewrite Hex in Hnone. by destruct (netsOverlap ipNet existing).
    + destruct (existingNet x) as [ex|]; [destruct (netsOverlap ipNet ex); [done|]|];
        by eapply IH.
Qed.

Lemma checkNets_Some (ipNet : IPNet) (nets : list (option (list libvirtIPElement)))
    (e : string) :
  checkNets ipNet nets = Some e ->
  exists elems ipElem existing,
    Some elems ∈ nets /\ ipElem ∈ elems /\ existingNet ipElem = Some existing
    /\ netsOverlap ipNet existing = true /\ e = overlapError ipNet existing.
Proof.
  induction nets as [|net nets IH]; [discriminate|]. cbn [checkNets].
  destruct (checkElems ipNet (default [] net)) as [e'|] eqn:Hel.
  - intros [= <-]. apply checkElems_Some in Hel as (x & ex & Hx & ?).
    destruct net as [elems|]; [|by apply elem_of_nil in Hx].
    exists elems, x, ex. split; [left | done].
  - intros (elems & x & ex & Hin & ?)%IH. exists elems, x, ex. split; [by right | done].
Qed.

Lemma checkNets_None (ipNet : IPNet) (nets : list (option (list libvirtIPElement))) :
  checkNets ipNet nets = None ->
  forall elems ipElem existing,
    Some elems ∈ nets -> ipElem ∈ elems -> existingNet ipElem = Some existing ->
    netsOverlap ipNet existing = false.
Proof.
  induction nets as [|net nets IH]; intros Hnone elems ipElem existing Hin Hel Hex.
  - by apply elem_of_nil in Hin.
  - cbn [checkNets] in Hnone.
    destruct (checkElems ipNet (default [] net)) as [e'|] eqn:Hchk; [discriminate|].
    apply elem_of_cons in Hin as [<-|Hin].
    + by eapply checkElems_None.
    + by eapply IH.
Qed.

(** The network the prober compares with, read off the attributes of an
    IP element. *)
Lemma existingNet_Some (ipElem : libvirtIPElement) (existing : IPNet) :
  existingNet ipElem = Some existing
  <-> Address ipElem <> "" /\ is_Some (ParseIP (Address ipElem))
      /\ exists read,
           (Elem_Prefix ipElem <> "" /\ sscan_d (Elem_Prefix ipElem) = Some read
            \/ Elem_Prefix ipElem = "" /\ Elem_Netmask ipElem <> ""
               /\ (exists netmaskIP,
                     ParseIP (Elem_Netmask ipElem) = Some netmaskIP
                     /\ read = fst (IPMask_Size (default [] (To4 netmaskIP))))
            \/ Elem_Prefix ipElem = "" /\ Elem_Netmask ipElem = "" /\ read = 24)
           /\ ParseCIDR (Address ipElem +:+ "/" +:+ fmt_d (if read =? 0 then 24 else read))
              = Some existing.
Proof.
  unfold existingNet, elemPrefixLen.
  destruct (String.eqb_spec (Address ipElem) "") as [Ha|Ha].
  { split; [done | by intros [? _]]. }
  destruct (ParseIP (Address ipElem)) as [ip|] eqn:Hip.
  2:{ split; [done | by intros (_ & [? ?] & _)]. }
  destruct (String.eqb_spec (Elem_Prefix ipElem) "") as [Hp|Hp]; cbn [negb].
  - destruct (String.eqb_spec (Elem_Netmask ipElem) "") as [Hm|Hm]; cbn [negb].
    + cbn [fmap option_fmap option_map]. split.
      * intros Hex. split; [done|]. split; [by eexists|]. exists 24. split; [|done].
        right. by right.
      * intros (_ & _ & read & [[? _]|[(_ & ? & _)|(_ & _ & ->)]] & Hex); done.
    + destruct (ParseIP (Elem_Netmask ipElem)) as [netmaskIP|] eqn:Hmask;
        cbn [fmap option_fmap option_map].
      * split.
        -- intros Hex. split; [done|]. split; [by eexists|]. eexists. split; [|exact Hex].
           right. left. split; [done|]. split; [done|]. by exists netmaskIP.
        -- intros (_ & _ & read & [[? _]|[(_ & _ & m & [= <-] & ->)|(_ & ? & _)]] & Hex);
             done.
      * split; [done|].
        intros (_ & _ & read & [[? _]|[(_ & _ & m & ? & _)|(_ & ? & _)]] & _); done.
  - destruct (sscan_d (Elem_Prefix ipElem)) as [n|] eqn:Hscan;
      cbn [fmap option_fmap option_map].
    + split.
      * intros Hex. split; [done|]. split; [by eexists|]. exists n. split; [|done].
        left. done.
      * intros (_ & _ & read & [[_ [= <-]]|[(? & _)|(? & _)]] & Hex); done.
    + split; [done|].
      intros (_ & _ & read & [[_ ?]|[(? & _)|(? & _)]] & _); done.
Qed.

(** C7, as the code has it.  The prober reports an overlap for a
    candidate exactly when the daemon answers with its networks and some
    IP element of a network whose description can be read has a network
    that contains the candidate's network address, or whose network
    address the candidate contains.  The network of an element is read as
    follows: the element has an address, which parses; its prefix length
    is the number [fmt.Sscanf] reads from the prefix attribute when there
    is one, else the number of leading ones of the netmask attribute,
    taken as an IPv4 mask (0 when it is not a mask), when there is one,
    else 24; a length of 0 is replaced by 24; and the address with that
    length parses as a CIDR.  The elements of which one of these fails
    are passed over.  When the daemon answers with its networks the
    prober has no other error, and when it does not, the error is that
    of the connection or of the listing. *)
Theorem checkLibvirtSubnetOverlap_iff (lv : Libvirt) (ipNet : IPNet) :
  ((exists existing,
       checkLibvirtSubnetOverlap lv ipNet = Some (overlapError ipNet existing))
   <->
   (exists nets elems ipElem read existing,
       lv = Networks nets /\ Some elems ∈ nets /\ ipElem ∈ elems
       /\ Address ipElem <> "" /\ is_Some (ParseIP (Address ipElem))
       /\ (Elem_Prefix ipElem <> "" /\ sscan_d (Elem_Prefix ipElem) = Some read
           \/ Elem_Prefix ipElem = "" /\ Elem_Netmask ipElem <> ""
              /\ (exists netmaskIP,
                    ParseIP (Elem_Netmask ipElem) = Some netmaskIP
                    /\ read = fst (IPMask_Size (default [] (To4 netmaskIP))))
           \/ Elem_Prefix ipElem = "" /\ Elem_Netmask ipElem = "" /\ read = 24)
       /\ ParseCIDR (Address ipElem +:+ "/" +:+ fmt_d (if read =? 0 then 24 else read))
          = Some existing
       /\ (Contains existing (IP ipNet) = true \/ Contains ipNet (IP existing) = true)))
  /\ (forall nets e,
        lv = Networks nets -> checkLibvirtSubnetOverlap lv ipNet = Some e ->
        exists existing, e = overlapError ipNet existing)
  /\ (forall msg,
        lv = ConnectFails msg ->
        checkLibvirtSubnetOverlap lv ipNet
        = Some ("failed to connect to libvirt: failed connecting to libvirt socket: " +:+ msg))
  /\ (forall msg,
        lv = ListFails msg ->
        checkLibvirtSubnetOverlap lv ipNet = Some ("failed to list libvirt networks: " +:+ msg)).
Proof.
  split; [split|split; [|split]].
  - intros [existing Hcheck]. destruct lv as [msg|msg|nets]; cbn in Hcheck.
    + discriminate.
    + discriminate.
    + apply checkNets_Some in Hcheck as (elems & x & ex & Hin & Hx & Hex & Hov & _).
      apply existingNet_Some in Hex as (Ha & Hip & read & Hread & Hcidr).
      exists nets, elems, x, read, ex. repeat split; try done.
      unfold netsOverlap in Hov. by apply orb_true_iff in Hov.
  - intros (nets & elems & x & read & ex & -> & Hin & Hx & Ha & Hip & Hread & Hcidr & Hov).
    assert (existingNet x = Some ex) as Hex.
    { apply existingNet_Some. split; [done|]. split; [done|]. by exists read. }
    cbn.
    destruct (checkNets ipNet nets) as [e|] eqn:Hchk.
    + apply checkNets_Some in Hchk as (_ & _ & ex' & _ & _ & _ & _ & ->). by exists ex'.
    + exfalso. pose proof (checkNets_None _ _ Hchk _ _ _ Hin Hx Hex) as Hno.
      unfold netsOverlap in Hno. apply orb_false_iff in Hno as [? ?].
      destruct Hov; congruence.
  - intros nets e -> Hchk. cbn in Hchk.
    apply checkNets_Some in Hchk as (_ & _ & ex' & _ & _ & _ & _ & ->). by exists ex'.
  - by intros msg ->.
  - by intros msg ->.
Qed.
End ProberProps.

(** The candidate 10.250.5.0/24 against a network declared as 10.250.0.1
    with prefix 16: the prober reports the overlap with 10.250.0.0/16. *)
Lemma checkLibvirtSubnetOverlap_iff_witness :
  @ParseCIDR goLib4 "10.250.5.0/24" = Some net_10_250_5
  /\ (exists existing,
         @checkLibvirtSubnetOverlap goLib4 lvPrefix16 net_10_250_5
         = Some (@overlapError goLib4 net_10_250_5 existing))
  /\ @checkLibvirtSubnetOverlap goLib4 lvPrefix16 net_10_250_5
     = Some "subnet 10.250.5.0/24 overlaps with existing libvirt network 10.250.0.0/16".
Proof.
  split; [reflexivity|]. split; [|reflexivity].
  apply (proj2 (proj1 (@checkLibvirtSubnetOverlap_iff goLib4 lvPrefix16 net_10_250_5))).
  exists [Some [ {| Address := "10.250.0.1"; Elem_Prefix := "16"; Elem_Netmask := "" |} ]],
    [ {| Address := "10.250.0.1"; Elem_Prefix := "16"; Elem_Netmask := "" |} ],
    {| Address := "10.250.0.1"; Elem_Prefix := "16"; Elem_Netmask := "" |},
    16, net_10_250.
  split; [reflexivity|]. split; [apply list_elem_of_here|]. split; [apply list_elem_of_here|].
  split; [discriminate|]. split; [by eexists|].
  split; [left; split; [discriminate | reflexivity]|].
  split; [reflexivity|]. left. reflexivity.
Defined.

(** C7 fails as stated for a network declared with the prefix 0.  The
    range of 10.0.0.1/0 is every IPv4 address, the network address of the
    candidate 192.168.5.0/24 among them; the prober reads the prefix 0 as
    24, compares the candidate with 10.0.0.0/24, and reports no
    overlap. *)
Lemma checkLibvirtSubnetOverlap_prefix_zero :
  @ParseCIDR goLib4 "10.0.0.1/0" = Some net_slash0
  /\ @ParseCIDR goLib4 "192.168.5.0/24" = Some net_192_168_5
  /\ Contains net_slash0 (IP net_192_168_5) = true
  /\ @existingNet goLib4 {| Address := "10.0.0.1"; Elem_Prefix := "0"; Elem_Netmask := "" |}
     = Some net_10_0_0
  /\ @checkLibvirtSubnetOverlap goLib4 lvPrefix0 net_192_168_5 = None.
Proof. repeat split; reflexivity. Qed.

(** ** The free-subnet search *)

Section SearchProps.
Context `{GoLib}.

Lemma cidr4_shape (a b c d p : Z) :
  isByte a -> isByte b -> isByte c -> isByte d -> 0 <= p <= 32 ->
  exists n0 n1 n2 n3,
    IP (cidr4 a b c d p) = [n0; n1; n2; n3]
    /\ isByte n0 /\ isByte n1 /\ isByte n2 /\ isByte n3
    /\ prefixOf (cidr4 a b c d p) = p.
Proof.
  intros Ha Hb Hc Hd Hp.
  destruct (CIDRMask_v4 p Hp) as (m0 & m1 & m2 & m3 & Hm & H0 & H1 & H2 & H3 & Hsize).
  unfold cidr4, prefixOf. cbn [IP Mask]. rewrite Hsize, Hm.
  exists (Z.land a m0), (Z.land b m1), (Z.land c m2), (Z.land d m3).
  repeat split; try reflexivity; apply land_mask_byte; done.
Qed.

Lemma stepIP_advance (prefix step a b c d : Z) :
  stepIP prefix step [a; b; c; d] = advance prefix step [a; b; c; d].
Proof.
  unfold stepIP, steppedOctet, advance, byte_add, byte.
  destruct (prefix <=? 16); cbn; by rewrite Z.add_mod_idemp_r.
Qed.

Lemma advance_bytes (prefix step a b c d : Z) :
  isByte a -> isByte b -> isByte c -> isByte d ->
  exists a' b' c' d',
    advance prefix step [a; b; c; d] = [a'; b'; c'; d']
    /\ isByte a' /\ isByte b' /\ isByte c' /\ isByte d'.
Proof.
  intros Ha Hb Hc Hd. unfold advance, isByte in *.
  pose proof (Z.mod_pos_bound (b + step) 256).
  pose proof (Z.mod_pos_bound (c + step) 256).
  destruct (prefix <=? 16); eexists _, _, _, _; (split; [reflexivity|]); lia.
Qed.

(** One step from an IPv4 subnet: the next text, which is an IPv4 subnet of
    the same prefix length. *)
Lemma nextSubnet_v4 (step : Z) (curr : string) (ipNet : IPNet) :
  ParseCIDR curr = Some ipNet -> length (IP ipNet) = 4%nat ->
  let next :=
    IP_String (advance (prefixOf ipNet) step (IP ipNet)) +:+ "/" +:+ fmt_d (prefixOf ipNet) in
  nextSubnet step curr ipNet = Ok next
  /\ exists ipNet',
       ParseCIDR next = Some ipNet' /\ length (IP ipNet') = 4%nat
       /\ prefixOf ipNet' = prefixOf ipNet.
Proof.
  intros Hparse Hlen.
  destruct (ParseCIDR_v4_inv _ _ Hparse Hlen)
    as (a & b & c & d & p & Ha & Hb & Hc & Hd & Hp & ->).
  destruct (cidr4_shape a b c d p Ha Hb Hc Hd Hp)
    as (n0 & n1 & n2 & n3 & Hip & H0 & H1 & H2 & H3 & Hpre).
  cbv zeta. rewrite Hpre, Hip.
  destruct (advance_bytes p step n0 n1 n2 n3 H0 H1 H2 H3)
    as (a' & b' & c' & d' & Hadv & Ha' & Hb' & Hc' & Hd').
  split.
  - unfold nextSubnet. fold (prefixOf (cidr4 a b c d p)).
    destruct (IPMask_Size (Mask (cidr4 a b c d p))) as [ones bits] eqn:Hsize.
    assert (ones = p) as -> by (unfold prefixOf in Hpre; by rewrite Hsize in Hpre).
    rewrite Hip, ParseIP_String by done. by rewrite stepIP_advance.
  - rewrite Hadv, ParseCIDR_String by done.
    exists (cidr4 a' b' c' d' p).
    destruct (cidr4_shape a' b' c' d' p Ha' Hb' Hc' Hd' Hp)
      as (? & ? & ? & ? & Hip' & _ & _ & _ & _ & Hpre').
    by rewrite Hip', Hpre'.
Qed.

Lemma isIPv4Subnet_next (step : Z) (curr : string) (ipNet : IPNet) :
  ParseCIDR curr = Some ipNet -> length (IP ipNet) = 4%nat ->
  exists next, nextSubnet step curr ipNet = Ok next /\ isIPv4Subnet next.
Proof.
  intros Hparse Hlen.
  destruct (nextSubnet_v4 step curr ipNet Hparse Hlen) as [Hnext (n' & ? & ? & _)].
  eexists. split; [exact Hnext|]. by exists n'.
Qed.

(** The candidate after [S i] steps from a subnet is the candidate after
    [i] steps from its successor. *)
Lemma candidate_shift (step : Z) (curr next : string) (ipNet : IPNet) (i : nat) :
  ParseCIDR curr = Some ipNet -> nextSubnet step curr ipNet = Ok next ->
  candidate step curr (S i) = candidate step next i.
Proof.
  intros Hparse Hnext. induction i as [|i IH].
  - cbn. by rewrite Hparse, Hnext.
  - change (candidate step curr (S (S i)))
      with (match candidate step curr (S i) with
            | Some curr0 =>
                match ParseCIDR curr0 with
                | Some n0 =>
                    match nextSubnet step curr0 n0 with
                    | Ok nx => Some nx
                    | Err _ => None
                    end
                | None => None
                end
            | None => None
            end).
    by rewrite IH.
Qed.

(** From an IPv4 subnet, the loop either returns the first candidate the
    prober does not report as overlapping, or, when all [fuel] candidates
    overlap, fails with the no-free-subnet error. *)
Lemma findFree_loop_cases (lv : Libvirt) (start : string) (step tries : Z)
    (fuel : nat) (curr : string) :
  isIPv4Subnet curr ->
  (exists i c,
      (i < fuel)%nat /\ candidate step curr i = Some c /\ reportsOverlap lv c = false
      /\ (forall j, (j < i)%nat ->
            exists c', candidate step curr j = Some c' /\ reportsOverlap lv c' = true)
      /\ findFree_loop lv start step tries fuel curr = Ok c)
  \/ ((forall i, (i < fuel)%nat ->
         exists c, candidate step curr i = Some c /\ reportsOverlap lv c = true)
      /\ findFree_loop lv start step tries fuel curr = Err (noFreeSubnet tries start)).
Proof.
  revert curr. induction fuel as [|fuel IH]; intros curr (ipNet & Hparse & Hlen).
  - right. split; [intros i Hi; lia | reflexivity].
  - cbn [findFree_loop]. rewrite Hparse.
    assert (reportsOverlap lv curr = false ->
            exists i c,
              (i < S fuel)%nat /\ candidate step curr i = Some c
              /\ reportsOverlap lv c = false
              /\ (forall j, (j < i)%nat ->
                    exists c', candidate step curr j = Some c'
                               /\ reportsOverlap lv c' = true)
              /\ Ok curr = Ok c) as Hstop.
    { intros Hno. exists 0%nat, curr. repeat split; [lia | done | intros j Hj; lia]. }
    destruct (checkLibvirtSubnetOverlap lv ipNet) as [err|] eqn:Hchk.
    2:{ left. apply Hstop. unfold reportsOverlap. by rewrite Hparse, Hchk. }
    destruct (strings_Contains err "overlaps") eqn:Hov.
    2:{ left. apply Hstop. unfold reportsOverlap. by rewrite Hparse, Hchk. }
    assert (reportsOverlap lv curr = true) as Hcurr.
    { unfold reportsOverlap. by rewrite Hparse, Hchk. }
    destruct (isIPv4Subnet_next step curr ipNet Hparse Hlen) as (next & Hnext & Hv4).
    rewrite Hnext.
    destruct (IH next Hv4) as [(i & c & Hi & Hc & Hfree & Hbefore & Hres)|[Hall Hres]].
    + left. exists (S i), c. repeat split; [lia | | done | | done].
      * by rewrite (candidate_shift step curr next ipNet).
      * intros [|j] Hj; [by exists curr|].
        rewrite (candidate_shift step curr next ipNet) by done. apply Hbefore. lia.
    + right. split; [|done].
      intros [|i] Hi; [by exists curr|].
      rewrite (candidate_shift step curr next ipNet) by done. apply Hall. lia.
Qed.
(** *** The search from any start *)

Lemma findFree_loop_Ok (lv : Libvirt) (start : string) (step tries : Z) (fuel : nat)
    (cur c : string) :
  findFree_loop lv start step tries fuel cur = Ok c ->
  exists i ipNet,
    (i < fuel)%nat /\ candidate step cur i = Some c /\ ParseCIDR c = Some ipNet
    /\ reportsOverlap lv c = false
    /\ (forall j, (j < i)%nat ->
          exists c', candidate step cur j = Some c' /\ reportsOverlap lv c' = true).
Proof.
  revert cur. induction fuel as [|fuel IH]; intros cur; cbn [findFree_loop]; [done|].
  destruct (ParseCIDR cur) as [ipNet|] eqn:Hp; [|done].
  destruct (checkLibvirtSubnetOverlap lv ipNet) as [err|] eqn:Hc.
  - destruct (strings_Contains err "overlaps") eqn:Ho.
    + destruct (nextSubnet step cur ipNet) as [next|e] eqn:Hn; [|done].
      intros Hf. destruct (IH next Hf) as (i & n' & Hi & Hcand & Hp' & Hr & Hbefore).
      exists (S i), n'. split; [lia|].
      split; [by rewrite (candidate_shift step cur next ipNet i Hp Hn)|].
      split; [done|]. split; [done|].
      intros [|j] Hj.
      * exists cur. split; [done|]. unfold reportsOverlap. by rewrite Hp, Hc.
      * destruct (Hbefore j ltac:(lia)) as (c' & Hc' & Hr').
        exists c'. split; [|done].
        by rewrite (candidate_shift step cur next ipNet j Hp Hn).
    + intros [= <-]. exists 0%nat, ipNet. split; [lia|]. split; [done|]. split; [done|].
      split; [unfold reportsOverlap; by rewrite Hp, Hc | intros j Hj; lia].
  - intros [= <-]. exists 0%nat, ipNet. split; [lia|]. split; [done|]. split; [done|].
    split; [unfold reportsOverlap; by rewrite Hp, Hc | intros j Hj; lia].
Qed.

(** The step fails with the invalid-IPv4 error, and only when the network
    address, printed and read again, has no 4-byte form. *)
Lemma nextSubnet_Err (step : Z) (cur e : string) (ipNet : IPNet) :
  nextSubnet step cur ipNet = Err e
  <-> ParseIP (IP_String (IP ipNet)) ≫= To4 = None /\ e = "invalid IPv4 subnet: " +:+ cur.
Proof.
  unfold nextSubnet. destruct (IPMask_Size (Mask ipNet)) as [prefix bits].
  destruct (ParseIP (IP_String (IP ipNet)) ≫= To4).
  - split; [done | by intros [? _]].
  - split; [by intros [= <-] | by intros [_ ->]].
Qed.

Lemma candidate_succ (step : Z) (cur c : string) (i : nat) :
  candidate step cur (S i) = Some c ->
  exists ipNet next,
    ParseCIDR cur = Some ipNet /\ nextSubnet step cur ipNet = Ok next
    /\ candidate step next i = Some c.
Proof.
  revert c. induction i as [|i IH]; intros c.
  - cbn. destruct (ParseCIDR cur) as [ipNet|]; [|done].
    destruct (nextSubnet step cur ipNet) as [next|] eqn:Hn; [|done].
    intros [= <-]. by exists ipNet, next.
  - change (candidate step cur (S (S i)))
      with (match candidate step cur (S i) with
            | Some curr0 =>
                match ParseCIDR curr0 with
                | Some n0 =>
                    match nextSubnet step curr0 n0 with
                    | Ok nx => Some nx
                    | Err _ => None
                    end
                | None => None
                end
            | None => None
            end).
    destruct (candidate step cur (S i)) as [c0|] eqn:Hc0; [|done].
    destruct (IH c0 eq_refl) as (ipNet & next & Hp & Hn & Hc).
    intros Hstep. exists ipNet, next. split; [done|]. split; [done|].
    cbn [candidate]. by rewrite Hc.
Qed.

(** The loop at the [i]-th candidate, when the candidates before it are
    reported as overlapping. *)
Lemma findFree_loop_reach (lv : Libvirt) (start : string) (step tries : Z) (i : nat) :
  forall (fuel : nat) (cur c : string),
    (i < fuel)%nat ->
    candidate step cur i = Some c ->
    (forall j c', (j < i)%nat -> candidate step cur j = Some c' ->
                  reportsOverlap lv c' = true) ->
    findFree_loop lv start step tries fuel cur
    = findFree_loop lv start step tries (fuel - i) c.
Proof.
  induction i as [|i IH]; intros fuel cur c Hi Hc Hbefore.
  - cbn in Hc. injection Hc as <-. by rewrite Nat.sub_0_r.
  - destruct fuel as [|fuel]; [lia|].
    destruct (candidate_succ _ _ _ _ Hc) as (ipNet & next & Hp & Hn & Hc').
    pose proof (Hbefore 0%nat cur ltac:(lia) eq_refl) as Hov.
    unfold reportsOverlap in Hov. rewrite Hp in Hov.
    destruct (checkLibvirtSubnetOverlap lv ipNet) as [err|] eqn:Hchk; [|done].
    cbn [findFree_loop]. rewrite Hp, Hchk, Hov, Hn.
    change (S fuel - S i)%nat with (fuel - i)%nat.
    apply IH; [lia | done |].
    intros j c' Hj Hcj. apply (Hbefore (S j) c'); [lia|].
    by rewrite (candidate_shift step cur next ipNet j Hp Hn).
Qed.

Lemma noFreeSubnet_head (tries : Z) (start : string) :
  exists rest, noFreeSubnet tries start = String "n" rest.
Proof. unfold noFreeSubnet. by eexists. Qed.

(** The loop fails with the no-free-subnet error exactly when each of its
    candidates is reported as overlapping and can be stepped. *)
Lemma findFree_loop_noFree (lv : Libvirt) (start : string) (step tries : Z) (fuel : nat) :
  forall cur,
    findFree_loop lv start step tries fuel cur = Err (noFreeSubnet tries start)
    <-> forall i, (i < fuel)%nat ->
          exists c, candidate step cur i = Some c /\ reportsOverlap lv c = true
                    /\ is_Some (candidate step cur (S i)).
Proof.
  destruct (noFreeSubnet_head tries start) as [rest Hhead].
  induction fuel as [|fuel IH]; intros cur.
  - split; [intros _ i Hi; lia | done].
  - cbn [findFree_loop].
    assert (reportsOverlap lv cur = false ->
            ~ (forall i, (i < S fuel)%nat ->
                 exists c, candidate step cur i = Some c /\ reportsOverlap lv c = true
                           /\ is_Some (candidate step cur (S i)))) as Hstop.
    { intros Hfree Hall. destruct (Hall 0%nat ltac:(lia)) as (c & [= <-] & Hov & _).
      congruence. }
    destruct (ParseCIDR cur) as [ipNet|] eqn:Hp.
    2:{ split; [rewrite Hhead; discriminate|].
        intros Hall. exfalso. apply Hstop; [|done]. unfold reportsOverlap. by rewrite Hp. }
    destruct (checkLibvirtSubnetOverlap lv ipNet) as [err|] eqn:Hchk.
    2:{ split; [done|].
        intros Hall. exfalso. apply Hstop; [|done].
        unfold reportsOverlap. by rewrite Hp, Hchk. }
    destruct (strings_Contains err "overlaps") eqn:Hov.
    2:{ split; [done|].
        intros Hall. exfalso. apply Hstop; [|done].
        unfold reportsOverlap. by rewrite Hp, Hchk. }
    assert (reportsOverlap lv cur = true) as Hcur.
    { unfold reportsOverlap. by rewrite Hp, Hchk. }
    destruct (nextSubnet step cur ipNet) as [next|e] eqn:Hn.
    + rewrite IH. split.
      * intros Hall [|i] Hi.
        -- exists cur. split; [done|]. split; [done|]. cbn. rewrite Hp, Hn. by eexists.
        -- rewrite !(candidate_shift step cur next ipNet) by done. apply Hall. lia.
      * intros Hall i Hi. specialize (Hall (S i) ltac:(lia)).
        by rewrite !(candidate_shift step cur next ipNet) in Hall by done.
    + pose proof Hn as Hn0. apply nextSubnet_Err in Hn as [_ ->].
      split; [rewrite Hhead; discriminate|].
      intros Hall. destruct (Hall 0%nat ltac:(lia)) as (c & _ & _ & [x Hx]).
      destruct (candidate_succ _ _ _ _ Hx) as (n' & next & Hp' & Hn' & _).
      rewrite Hp in Hp'. injection Hp' as <-. congruence.
Qed.
Lemma findFree_loop_Err (lv : Libvirt) (start : string) (step tries : Z) (fuel : nat)
    (cur e : string) :
  findFree_loop lv start step tries fuel cur = Err e ->
  e = noFreeSubnet tries start
  \/ exists i c,
       (i < fuel)%nat /\ candidate step cur i = Some c
       /\ (forall j, (j < i)%nat ->
             exists c', candidate step cur j = Some c' /\ reportsOverlap lv c' = true)
       /\ (e = "failed to parse subnet " +:+ c +:+ ": invalid CIDR address: " +:+ c
           /\ ParseCIDR c = None
           \/ e = "invalid IPv4 subnet: " +:+ c
              /\ reportsOverlap lv c = true
              /\ exists ipNet,
                   ParseCIDR c = Some ipNet
                   /\ ParseIP (IP_String (IP ipNet)) ≫= To4 = None).
Proof.
  revert cur. induction fuel as [|fuel IH]; intros cur; cbn [findFree_loop].
  - intros [= <-]. by left.
  - destruct (ParseCIDR cur) as [ipNet|] eqn:Hp.
    + destruct (checkLibvirtSubnetOverlap lv ipNet) as [err|] eqn:Hc; [|done].
      destruct (strings_Contains err "overlaps") eqn:Ho; [|done].
      assert (reportsOverlap lv cur = true) as Hcur.
      { unfold reportsOverlap. by rewrite Hp, Hc. }
      destruct (nextSubnet step cur ipNet) as [next|e'] eqn:Hn.
      * intros Hf.
        destruct (IH next Hf) as [->|(i & c & Hi & Hcand & Hbefore & Hcase)]; [by left|].
        right. exists (S i), c. split; [lia|].
        split; [by rewrite (candidate_shift step cur next ipNet i Hp Hn)|].
        split; [|done].
        intros [|j] Hj; [by exists cur|].
        rewrite (candidate_shift step cur next ipNet j Hp Hn). apply Hbefore. lia.
      * intros [= <-]. apply nextSubnet_Err in Hn as [H4 ->].
        right. exists 0%nat, cur. split; [lia|]. split; [done|].
        split; [intros j Hj; lia|]. right. split; [done|]. split; [done|]. by exists ipNet.
    + intros [= <-]. right. exists 0%nat, cur. split; [lia|]. split; [done|].
      split; [intros j Hj; lia|]. by left.
Qed.
End SearchProps.

Lemma mod256_wrap (x : Z) : 256 <= x < 512 -> x `mod` 256 = x - 256.
Proof. intros Hx. symmetry. apply (Z.mod_unique x 256 1); lia. Qed.

Section SearchTheorems.
Context `{GoLib}.

(** C5, as the code has it.  Whatever the start is,
    [FindFreeLibvirtSubnet] returns the current candidate at once when the
    prober reports no overlap for it (a start reported free is returned on
    the first probe) and likewise when the prober fails with an error
    whose text does not have the word "overlaps".  It fails with the
    no-free-subnet error exactly when each of the [tries] candidates is
    reported, in that sense, as overlapping and can be stepped to a next
    candidate; from an IPv4 start every candidate can be stepped, so that
    the error comes exactly when each candidate is reported as
    overlapping, and the search has no other error.  A candidate reported
    as overlapping whose network address, printed and read again, has no
    4-byte form ends the search with the invalid-IPv4-subnet error, a
    candidate that does not parse ends it with the parse error, and these
    are all the errors of the search. *)
Theorem FindFreeLibvirtSubnet_spec (lv : Libvirt) (start : string) (step tries : Z) :
  (forall i cur ipNet,
      (i < Z.to_nat tries)%nat ->
      candidate step start i = Some cur ->
      ParseCIDR cur = Some ipNet ->
      (forall j c, (j < i)%nat -> candidate step start j = Some c ->
                   reportsOverlap lv c = true) ->
      (checkLibvirtSubnetOverlap lv ipNet = None ->
       FindFreeLibvirtSubnet lv start step tries = Ok cur)
      /\ (forall err,
            checkLibvirtSubnetOverlap lv ipNet = Some err ->
            strings_Contains err "overlaps" = false ->
            FindFreeLibvirtSubnet lv start step tries = Ok cur)
      /\ (forall err,
            checkLibvirtSubnetOverlap lv ipNet = Some err ->
            strings_Contains err "overlaps" = true ->
            ParseIP (IP_String (IP ipNet)) ≫= To4 = None ->
            FindFreeLibvirtSubnet lv start step tries = Err ("invalid IPv4 subnet: " +:+ cur)))
  /\ (forall i cur,
        (i < Z.to_nat tries)%nat ->
        candidate step start i = Some cur ->
        ParseCIDR cur = None ->
        (forall j c, (j < i)%nat -> candidate step start j = Some c ->
                     reportsOverlap lv c = true) ->
        FindFreeLibvirtSubnet lv start step tries
        = Err ("failed to parse subnet " +:+ cur +:+ ": invalid CIDR address: " +:+ cur))
  /\ (forall ipNet,
        0 < tries -> ParseCIDR start = Some ipNet ->
        checkLibvirtSubnetOverlap lv ipNet = None ->
        FindFreeLibvirtSubnet lv start step tries = Ok start)
  /\ (FindFreeLibvirtSubnet lv start step tries = Err (noFreeSubnet tries start)
      <-> forall i, (i < Z.to_nat tries)%nat ->
            exists c, candidate step start i = Some c /\ reportsOverlap lv c = true
                      /\ is_Some (candidate step start (S i)))
  /\ (isIPv4Subnet start ->
      (FindFreeLibvirtSubnet lv start step tries = Err (noFreeSubnet tries start)
       <-> forall i, (i < Z.to_nat tries)%nat ->
             exists c, candidate step start i = Some c /\ reportsOverlap lv c = true)
      /\ (forall e,
            FindFreeLibvirtSubnet lv start step tries = Err e ->
            e = noFreeSubnet tries start))
  /\ (forall e,
        FindFreeLibvirtSubnet lv start step tries = Err e ->
        e = noFreeSubnet tries start
        \/ exists i cur,
             (i < Z.to_nat tries)%nat /\ candidate step start i = Some cur
             /\ (forall j, (j < i)%nat ->
                   exists c, candidate step start j = Some c /\ reportsOverlap lv c = true)
             /\ (e = "failed to parse subnet " +:+ cur +:+ ": invalid CIDR address: " +:+ cur
                 /\ ParseCIDR cur = None
                 \/ e = "invalid IPv4 subnet: " +:+ cur
                    /\ reportsOverlap lv cur = true
                    /\ exists ipNet,
                         ParseCIDR cur = Some ipNet
                         /\ ParseIP (IP_String (IP ipNet)) ≫= To4 = None)).
Proof.
  unfold FindFreeLibvirtSubnet.
  assert (forall i cur,
             (i < Z.to_nat tries)%nat ->
             candidate step start i = Some cur ->
             (forall j c, (j < i)%nat -> candidate step start j = Some c ->
                          reportsOverlap lv c = true) ->
             exists fuel,
               findFree_loop lv start step tries (Z.to_nat tries) start
               = findFree_loop lv start step tries (S fuel) cur) as Hreach.
  { intros i cur Hi Hcur Hbefore.
    rewrite (findFree_loop_reach lv start step tries i _ start cur Hi Hcur Hbefore).
    exists (Z.to_nat tries - i - 1)%nat. f_equal. lia. }
  split; [|split; [|split; [|split; [|split]]]].
  - intros i cur ipNet Hi Hcur Hparse Hbefore.
    destruct (Hreach i cur Hi Hcur Hbefore) as [fuel ->]. cbn [findFree_loop].
    rewrite Hparse. split; [|split].
    + by intros ->.
    + by intros err -> ->.
    + intros err -> -> H4.
      destruct (nextSubnet step cur ipNet) as [next|e] eqn:Hn.
      * assert (nextSubnet step cur ipNet = Err ("invalid IPv4 subnet: " +:+ cur)) as Hn'
          by (by apply nextSubnet_Err).
        congruence.
      * by apply nextSubnet_Err in Hn as [_ ->].
  - intros i cur Hi Hcur Hparse Hbefore.
    destruct (Hreach i cur Hi Hcur Hbefore) as [fuel ->]. cbn [findFree_loop].
    by rewrite Hparse.
  - intros ipNet Htries Hparse Hchk.
    destruct (Z.to_nat tries) as [|fuel] eqn:Hfuel; [lia|].
    cbn [findFree_loop]. by rewrite Hparse, Hchk.
  - apply findFree_loop_noFree.
  - intros Hv4.
    pose proof (findFree_loop_cases lv start step tries (Z.to_nat tries) start Hv4) as Hcases.
    split; [split|].
    + intros Herr.
      destruct Hcases as [(i' & c & _ & _ & _ & _ & Hres)|[Hall _]]; [congruence | done].
    + intros Hall.
      destruct Hcases as [(i' & c & Hi' & Hc & Hcfree & _ & _)|[_ Hres]]; [|done].
      destruct (Hall i' Hi') as (c' & Hc' & Hov). congruence.
    + intros e Herr.
      destruct Hcases as [(i' & c & _ & _ & _ & _ & Hres)|[_ Hres]]; congruence.
  - intros e. apply findFree_loop_Err.
Qed.

(** C8, as the code has it.  When the prober reports an overlap for the
    current candidate and the candidate is an IPv4 subnet, the search
    steps the candidate's network address by [step], modulo 256, in the
    second octet if the prefix length is at most 16 and in the third
    octet otherwise, and keeps the prefix length: the stepped text is
    again an IPv4 subnet of that prefix length.  If tries are left, the
    stepped candidate is probed next: it is the result of the search when
    the prober reports no overlap for it, or fails otherwise than with an
    overlap, and the search goes on from it with one try less; on the
    last try the search ends with the no-free-subnet error.  When the
    network address of the overlapping candidate, printed and read again,
    has no 4-byte form, the search does not step: it ends with the
    invalid-IPv4-subnet error. *)
Theorem findFree_loop_advances (lv : Libvirt) (start : string) (step tries : Z)
    (fuel : nat) (cur : string) (ipNet : IPNet) (err : string) :
  ParseCIDR cur = Some ipNet ->
  checkLibvirtSubnetOverlap lv ipNet = Some err ->
  strings_Contains err "overlaps" = true ->
  (length (IP ipNet) = 4%nat ->
   let prefix := prefixOf ipNet in
   let next := IP_String (advance prefix step (IP ipNet)) +:+ "/" +:+ fmt_d prefix in
   (exists a b c d,
       IP ipNet = [a; b; c; d]
       /\ advance prefix step (IP ipNet)
          = if prefix <=? 16 then [a; (b + step) `mod` 256; c; d]
            else [a; b; (c + step) `mod` 256; d])
   /\ candidate step cur 1 = Some next
   /\ (exists ipNet',
          ParseCIDR next = Some ipNet' /\ length (IP ipNet') = 4%nat
          /\ prefixOf ipNet' = prefix
          /\ (checkLibvirtSubnetOverlap lv ipNet' = None ->
              findFree_loop lv start step tries (S (S fuel)) cur = Ok next)
          /\ (forall err',
                checkLibvirtSubnetOverlap lv ipNet' = Some err' ->
                strings_Contains err' "overlaps" = false ->
                findFree_loop lv start step tries (S (S fuel)) cur = Ok next))
   /\ findFree_loop lv start step tries (S fuel) cur
      = findFree_loop lv start step tries fuel next
   /\ findFree_loop lv start step tries 1 cur = Err (noFreeSubnet tries start))
  /\ (ParseIP (IP_String (IP ipNet)) ≫= To4 = None ->
      findFree_loop lv start step tries (S fuel) cur = Err ("invalid IPv4 subnet: " +:+ cur)
      /\ candidate step cur 1 = None).
Proof.
  intros Hparse Hchk Hov. split.
  - intros Hlen. cbv zeta.
    destruct (nextSubnet_v4 step cur ipNet Hparse Hlen) as [Hnext (n' & Hp' & Hlen' & Hpre')].
    assert (forall k,
               findFree_loop lv start step tries (S k) cur
               = findFree_loop lv start step tries k
                   (IP_String (advance (prefixOf ipNet) step (IP ipNet)) +:+ "/"
                    +:+ fmt_d (prefixOf ipNet))) as Hstep.
    { intros k. cbn [findFree_loop]. by rewrite Hparse, Hchk, Hov, Hnext. }
    split; [|split; [|split; [|split]]].
    + destruct (IP ipNet) as [|a [|b [|c [|d [|? ?]]]]]; try discriminate.
      by exists a, b, c, d.
    + cbn [candidate]. by rewrite Hparse, Hnext.
    + exists n'. split; [done|]. split; [done|]. split; [done|]. split.
      * intros Hfree. rewrite Hstep. cbn [findFree_loop]. by rewrite Hp', Hfree.
      * intros err' Herr' Hno. rewrite Hstep. cbn [findFree_loop].
        by rewrite Hp', Herr', Hno.
    + apply Hstep.
    + by rewrite Hstep.
  - intros H4.
    assert (nextSubnet step cur ipNet = Err ("invalid IPv4 subnet: " +:+ cur)) as Hn
      by (by apply nextSubnet_Err).
    split.
    + cbn [findFree_loop]. by rewrite Hparse, Hchk, Hov, Hn.
    + cbn [candidate]. by rewrite Hparse, Hn.
Qed.
(** C10.  The stepped octet is a byte: after an overlap of an IPv4
    candidate the next candidate carries the octet of the network address
    plus [step] modulo 256, so an octet that would pass 255 comes back
    through 0 to a lower number; the step does not fail, and the search
    goes on with the wrapped candidate. *)
Theorem findFree_loop_octet_wraps (lv : Libvirt) (start : string) (step tries : Z)
    (fuel : nat) (cur : string) (ipNet : IPNet) (err : string) (a b c d : Z) :
  ParseCIDR cur = Some ipNet ->
  IP ipNet = [a; b; c; d] ->
  checkLibvirtSubnetOverlap lv ipNet = Some err ->
  strings_Contains err "overlaps" = true ->
  let prefix := prefixOf ipNet in
  let octet := if prefix <=? 16 then b else c in
  let octet' := (octet + step) `mod` 256 in
  let next :=
    IP_String (if prefix <=? 16 then [a; octet'; c; d] else [a; b; octet'; d])
    +:+ "/" +:+ fmt_d prefix in
  0 <= octet' < 256
  /\ (0 <= step < 256 -> 255 < octet + step ->
      octet' = octet + step - 256 /\ octet' < octet)
  /\ nextSubnet step cur ipNet = Ok next
  /\ findFree_loop lv start step tries (S fuel) cur
     = findFree_loop lv start step tries fuel next
  /\ isIPv4Subnet next.
Proof.
  intros Hparse Hip Hchk Hov. cbv zeta.
  assert (length (IP ipNet) = 4%nat) as Hlen by (by rewrite Hip).
  destruct (nextSubnet_v4 step cur ipNet Hparse Hlen) as [Hnext (n' & Hn' & Hlen' & _)].
  revert Hnext Hn'. rewrite Hip. unfold advance.
  destruct (ParseCIDR_v4_inv _ _ Hparse Hlen)
    as (a0 & b0 & c0 & d0 & p & Ha & Hb & Hc & Hd & Hp & Heq).
  destruct (cidr4_shape a0 b0 c0 d0 p Ha Hb Hc Hd Hp)
    as (n0 & n1 & n2 & n3 & Hip' & H0 & H1 & H2 & H3 & _).
  rewrite <- Heq, Hip in Hip'. injection Hip' as -> -> -> ->.
  unfold isByte in *.
  destruct (prefixOf ipNet <=? 16); intros Hnext Hn';
    (split; [apply Z.mod_pos_bound; lia|]);
    (split; [intros Hstep Hwrap; rewrite mod256_wrap by lia; lia|]);
    (split; [exact Hnext|]);
    (split; [cbn [findFree_loop]; by rewrite Hparse, Hchk, Hov, Hnext | by exists n']).
Qed.
End SearchTheorems.

(** The search from 10.250.0.0/16 by steps of 8 against [lvDemo]: the
    start overlaps, the second candidate, 10.2.0.0/16, is free. *)
Lemma FindFreeLibvirtSubnet_spec_witness :
  @FindFreeLibvirtSubnet goLib4 lvDemo "10.250.0.0/16" 8 3 = Ok "10.2.0.0/16".
Proof.
  destruct (@FindFreeLibvirtSubnet_spec goLib4 lvDemo "10.250.0.0/16" 8 3) as [Hiter _].
  refine (proj1 (Hiter 1%nat "10.2.0.0/16"
                   {| IP := [10; 2; 0; 0]; Mask := [255; 255; 0; 0] |} _ _ _ _) _).
  - simpl. lia.
  - reflexivity.
  - reflexivity.
  - intros j c Hj Hc. assert (j = 0%nat) as -> by lia.
    injection Hc as <-. reflexivity.
  - reflexivity.
Defined.

(** The search from 10.250.0.0/24 by steps of 8 against a daemon with the
    network 10.250.0.0/24: the start overlaps, the third octet is stepped,
    and 10.250.8.0/24, probed next and free, is returned. *)
Lemma findFree_loop_advances_witness :
  @candidate goLib4 8 "10.250.0.0/24" 1 = Some "10.250.8.0/24"
  /\ @FindFreeLibvirtSubnet goLib4 lvPrefix24 "10.250.0.0/24" 8 2 = Ok "10.250.8.0/24".
Proof.
  destruct (@findFree_loop_advances goLib4 lvPrefix24 "10.250.0.0/24" 8 2 0
              "10.250.0.0/24" net_10_250_0
              "subnet 10.250.0.0/24 overlaps with existing libvirt network 10.250.0.0/24"
              eq_refl eq_refl eq_refl) as [Hv4 _].
  destruct (Hv4 eq_refl) as (_ & Hcand & (ipNet' & Hparse & _ & _ & Hfree & _) & _).
  split; [exact Hcand|].
  injection Hparse as <-. exact (Hfree eq_refl).
Defined.

(** C8 fails as stated for a candidate that is not IPv4.  The prober
    reports an overlap for fd00::/64, and the search, with 50 tries to
    make, does not step the candidate and does not try again: it ends
    with the invalid-IPv4-subnet error. *)
Lemma findFree_loop_does_not_advance :
  @ParseCIDR goLib6 "fd00::/64" = Some net_fd00
  /\ @checkLibvirtSubnetOverlap goLib6 lv6 net_fd00
     = Some "subnet fd00::/64 overlaps with existing libvirt network fd00::/64"
  /\ @candidate goLib6 1 "fd00::/64" 1 = None
  /\ @FindFreeLibvirtSubnet goLib6 lv6 "fd00::/64" 1 50 = Err "invalid IPv4 subnet: fd00::/64".
Proof. repeat split; reflexivity. Qed.

Lemma findFree_loop_octet_wraps_witness :
  @nextSubnet goLib4 8 "10.250.0.0/16" net_10_250 = Ok "10.2.0.0/16"
  /\ @FindFreeLibvirtSubnet goLib4 lvDemo "10.250.0.0/16" 8 2 = Ok "10.2.0.0/16".
Proof.
  destruct (@findFree_loop_octet_wraps goLib4 lvDemo "10.250.0.0/16" 8 2 1
              "10.250.0.0/16" net_10_250 overlap_10_250 10 250 0 0
              eq_refl eq_refl eq_refl eq_refl) as (_ & _ & Hnext & Hloop & _).
  split; [exact Hnext|].
  unfold FindFreeLibvirtSubnet. change (Z.to_nat 2) with 2%nat.
  rewrite Hloop. reflexivity.
Defined.

(** C5 fails as stated, in two ways.  The search reads an overlap off the
    word "overlaps" in the error text: a connection error whose text has
    the word is taken for an overlap, and the search fails instead of
    returning the candidate.  And a start that is not IPv4 ends the search
    at its first overlap with the invalid-IPv4-subnet error: with one try,
    every candidate is reported as overlapping and the error is not the
    no-free-subnet one. *)
Lemma FindFreeLibvirtSubnet_not_every_start :
  (@checkLibvirtSubnetOverlap goLib4 (ConnectFails "range overlaps") net_10_250
   = Some "failed to connect to libvirt: failed connecting to libvirt socket: range overlaps"
   /\ @FindFreeLibvirtSubnet goLib4 (ConnectFails "range overlaps") "10.250.0.0/16" 8 1
      = Err (noFreeSubnet 1 "10.250.0.0/16"))
  /\ (@ParseCIDR goLib6 "fd00::/64" = Some net_fd00
      /\ @reportsOverlap goLib6 lv6 "fd00::/64" = true
      /\ @FindFreeLibvirtSubnet goLib6 lv6 "fd00::/64" 1 1
         = Err "invalid IPv4 subnet: fd00::/64"
      /\ @FindFreeLibvirtSubnet goLib6 lv6 "fd00::/64" 1 1
         <> Err (noFreeSubnet 1 "fd00::/64")).
Proof.
  split; [split; reflexivity|].
  split; [reflexivity|]. split; [reflexivity|]. split; [reflexivity|].
  vm_compute. discriminate.
Qed.

(** A start that is not IPv4 but whose address has a 4-byte form: from
    ::ffff:10.0.0.0/112, reported as overlapping, the search steps to the
    text 10.0.1.0/112, which is no CIDR; with one try it ends with the
    no-free-subnet error, with more it ends with the parse error. *)
Example FindFreeLibvirtSubnet_mapped_start :
  @reportsOverlap goLibMapped lv10 "::ffff:10.0.0.0/112" = true
  /\ @candidate goLibMapped 1 "::ffff:10.0.0.0/112" 1 = Some "10.0.1.0/112"
  /\ @ParseCIDR goLibMapped "10.0.1.0/112" = None
  /\ @FindFreeLibvirtSubnet goLibMapped lv10 "::ffff:10.0.0.0/112" 1 1
     = Err (noFreeSubnet 1 "::ffff:10.0.0.0/112")
  /\ @FindFreeLibvirtSubnet goLibMapped lv10 "::ffff:10.0.0.0/112" 1 50
     = Err "failed to parse subnet 10.0.1.0/112: invalid CIDR address: 10.0.1.0/112".
Proof. repeat split; reflexivity. Qed.

(** The step is taken from the network address, and the next text is
    parsed again: under a prefix that does not cover the stepped octet the
    step is masked away, and from 10.0.0.0/8 every candidate after the
    first is 10.1.0.0/8. *)
Example candidate_masked :
  @candidate goLib4 1 "10.0.0.0/8" 1 = Some "10.1.0.0/8"
  /\ @candidate goLib4 1 "10.0.0.0/8" 2 = Some "10.1.0.0/8"
  /\ @candidate goLib4 1 "10.0.0.0/8" 3 = Some "10.1.0.0/8".
Proof. repeat split; reflexivity. Qed.

(** ** Subnet parameters *)

Lemma ipToZ_4 (a b c d : Z) : ipToZ [a; b; c; d] = a * 16777216 + b * 65536 + c * 256 + d.
Proof. unfold ipToZ. cbn. lia. Qed.

Lemma ipOfZ_ipToZ (a b c d : Z) :
  isByte a -> isByte b -> isByte c -> isByte d -> ipOfZ (ipToZ [a; b; c; d]) = [a; b; c; d].
Proof.
  unfold isByte. intros Ha Hb Hc Hd. rewrite ipToZ_4. unfold ipOfZ.
  repeat f_equal; Z.div_mod_to_equations; lia.
Qed.

Lemma hostMask (p : Z) :
  0 <= p <= 32 ->
  exists m0 m1 m2 m3,
    CIDRMask p 32 = [m0; m1; m2; m3]
    /\ ipToZ [255 - m0; 255 - m1; 255 - m2; 255 - m3] = 2 ^ (32 - p) - 1
    /\ (p <= 30 -> m3 <= 252).
Proof.
  intros Hp.
  assert (hostMaskOk p = true) as Hok.
  { apply (forallb_seqZ hostMaskOk 0 33); [by vm_compute | lia]. }
  unfold hostMaskOk in Hok.
  destruct (CIDRMask p 32) as [|m0 [|m1 [|m2 [|m3 [|? ?]]]]]; try discriminate.
  apply andb_true_iff in Hok as [Hsum%Z.eqb_eq Hlast].
  exists m0, m1, m2, m3. split; [done|]. split; [done|].
  intros Hp30. apply orb_true_iff in Hlast as [Hlt%Z.ltb_lt|Hle%Z.leb_le]; lia.
Qed.

Section SubnetProps.
Context `{GoLib}.

(** C3, as the code has it.  For every IPv4 CIDR text with a prefix
    length of at most 30, the parameters are computed and the gateway is
    the network address plus 1, the first client address the gateway plus
    1, the broadcast address the last address of the network and the last
    client address the broadcast address minus 2; the netmask is the
    dotted mask and the prefix the prefix length. *)
Theorem calculateSubnetParameters_v4 (subnet : string) (ipNet : IPNet) :
  ParseCIDR subnet = Some ipNet ->
  length (IP ipNet) = 4%nat ->
  prefixOf ipNet <= 30 ->
  exists params,
    calculateSubnetParameters ipNet = Some params
    /\ let network := ipToZ (IP ipNet) in
       let gateway := network + 1 in
       let broadcast := network + 2 ^ (32 - prefixOf ipNet) - 1 in
       Gateway params = IP_String (ipOfZ gateway)
       /\ ClientMin params = IP_String (ipOfZ (gateway + 1))
       /\ Broadcast params = IP_String (ipOfZ broadcast)
       /\ ClientMax params = IP_String (ipOfZ (broadcast - 2))
       /\ Netmask params = IP_String (Mask ipNet)
       /\ Prefix params = prefixOf ipNet.
Proof.
  intros Hparse Hlen Hp30.
  destruct (ParseCIDR_v4_inv _ _ Hparse Hlen)
    as (a & b & c & d & p & Ha & Hb & Hc & Hd & Hp & ->).
  destruct (cidr4_shape a b c d p Ha Hb Hc Hd Hp) as (? & ? & ? & ? & _ & _ & _ & _ & _ & Hpre).
  rewrite Hpre in *. clear Hlen.
  destruct (CIDRMask_v4 p Hp) as (m0 & m1 & m2 & m3 & Hm & H0 & H1 & H2 & H3 & Hsize).
  destruct (hostMask p Hp) as (m0' & m1' & m2' & m3' & Hm' & Hsum & Hlast).
  rewrite Hm in Hm'. injection Hm' as <- <- <- <-. specialize (Hlast Hp30).
  destruct (land_mask a m0 Ha H0) as [Ba La].
  destruct (land_mask b m1 Hb H1) as [Bb Lb].
  destruct (land_mask c m2 Hc H2) as [Bc Lc].
  destruct (land_mask d m3 Hd H3) as [Bd Ld].
  apply maskBytes4_range in H0, H1, H2, H3.
  unfold calculateSubnetParameters, cidr4. cbn [IP Mask]. rewrite Hsize, Hm.
  set (n0 := Z.land a m0) in *. set (n1 := Z.land b m1) in *.
  set (n2 := Z.land c m2) in *. set (n3 := Z.land d m3) in *.
  change (zip_with Z.land [a; b; c; d] [m0; m1; m2; m3]) with [n0; n1; n2; n3].
  cbn [To4 length Nat.eqb default Nat.ltb Nat.leb zip_with incLast decLast Nat.pred].
  eexists. split; [reflexivity|]. cbn [Gateway ClientMin Broadcast ClientMax Netmask Prefix].
  unfold incLast, decLast.
  cbn [id zip_with length Nat.pred alter list_alter].
  rewrite Lc, Ld, La, Lb.
  assert (byte_add n3 1 = n3 + 1) as -> by (unfold byte_add; apply byte_small; lia).
  assert (byte_add (n3 + 1) 1 = n3 + 2) as ->.
  { unfold byte_add. rewrite byte_small by lia. lia. }
  assert (byte_add (n3 + (255 - m3)) (-1) = n3 + (255 - m3) - 1) as ->.
  { unfold byte_add. rewrite byte_small by lia. lia. }
  assert (byte_add (n3 + (255 - m3) - 1) (-1) = n3 + (255 - m3) - 2) as ->.
  { unfold byte_add. rewrite byte_small by lia. lia. }
  rewrite ipToZ_4 in Hsum.
  assert (forall y0 y1 y2 y3 z,
             isByte y0 -> isByte y1 -> isByte y2 -> isByte y3 ->
             z = ipToZ [y0; y1; y2; y3] ->
             IP_String [y0; y1; y2; y3] = IP_String (ipOfZ z)) as Hstr.
  { intros y0 y1 y2 y3 z ? ? ? ? ->. by rewrite ipOfZ_ipToZ. }
  unfold isByte in *.
  split; [|split; [|split; [|split; [|split]]]]; try reflexivity;
    (apply Hstr; unfold isByte; try lia; rewrite !ipToZ_4; lia).
Qed.
End SubnetProps.

(** The scenario of the specification: subnet 10.89.0.0/16. *)
Lemma calculateSubnetParameters_v4_witness :
  exists params,
    @calculateSubnetParameters goLib4 net_10_89 = Some params
    /\ Gateway params = "10.89.0.1"
    /\ Netmask params = "255.255.0.0"
    /\ ClientMin params = "10.89.0.2"
    /\ Broadcast params = "10.89.255.255"
    /\ ClientMax params = "10.89.255.253".
Proof.
  destruct (@calculateSubnetParameters_v4 goLib4 "10.89.0.0/16" net_10_89)
    as (params & Hcalc & Hgw & Hmin & Hbc & Hmax & Hmask & _).
  - reflexivity.
  - reflexivity.
  - vm_compute. discriminate.
  - exists params. rewrite Hcalc, Hgw, Hmin, Hbc, Hmax, Hmask.
    repeat split; reflexivity.
Defined.

(** C3 fails as stated: the last octet is incremented and decremented as
    a byte, without carry.  For 10.0.0.255/32 the gateway is 10.0.0.0, not
    the network address plus 1, which is 10.0.1.0; for 10.0.0.0/31 the
    broadcast address is 10.0.0.1 and the last client address 10.0.0.255,
    not the broadcast address minus 2. *)
Lemma calculateSubnetParameters_no_carry :
  (@ParseCIDR goLib4 "10.0.0.255/32" = Some net_slash32
   /\ exists params,
        @calculateSubnetParameters goLib4 net_slash32 = Some params
        /\ Gateway params = "10.0.0.0"
        /\ @IP_String goLib4 (ipOfZ (ipToZ (IP net_slash32) + 1)) = "10.0.1.0"
        /\ Gateway params <> @IP_String goLib4 (ipOfZ (ipToZ (IP net_slash32) + 1)))
  /\ (@ParseCIDR goLib4 "10.0.0.0/31" = Some net_slash31
      /\ exists params,
           @calculateSubnetParameters goLib4 net_slash31 = Some params
           /\ Broadcast params = "10.0.0.1"
           /\ ClientMax params = "10.0.0.255"
           /\ ClientMax params
              <> @IP_String goLib4 (ipOfZ (ipToZ (IP net_slash31) + 2 ^ (32 - 31) - 1 - 2))).
Proof.
  split; (split; [reflexivity|]); eexists; (split; [reflexivity|]);
    repeat split; try reflexivity; vm_compute; discriminate.
Qed.

(** ** The range partitioner *)

Lemma maxClusters_formula (mm : MetalLBManager) :
  - 2 ^ 32 <= minOctetRange mm <= 2 ^ 32 ->
  - 2 ^ 32 <= maxOctetRange mm <= 2 ^ 32 ->
  maxClusters mm = (maxOctetRange mm - minOctetRange mm + 1) ÷ 20.
Proof.
  intros Hmin Hmax. unfold maxClusters, quot64, add64, sub64, ipsPerCluster.
  rewrite (wrap64_small (_ - _)) by lia. rewrite (wrap64_small (_ + 1)) by lia.
  apply wrap64_small.
  pose proof (Z.quot_rem' (maxOctetRange mm - minOctetRange mm + 1) 20).
  pose proof (Z.rem_bound_abs (maxOctetRange mm - minOctetRange mm + 1) 20).
  lia.
Qed.

Lemma candidateWindow_formula (mm : MetalLBManager) (clusterNumber : Z) :
  - 2 ^ 32 <= minOctetRange mm <= 2 ^ 32 ->
  - 2 ^ 32 <= maxOctetRange mm <= 2 ^ 32 ->
  - 2 ^ 32 <= clusterNumber <= 2 ^ 32 ->
  candidateWindow mm clusterNumber
  = (minOctetRange mm + (clusterNumber - 1) * 20,
     Z.min (minOctetRange mm + (clusterNumber - 1) * 20 + 19) (maxOctetRange mm)).
Proof.
  intros Hmin Hmax Hk. unfold candidateWindow, add64, sub64, mul64, ipsPerCluster.
  rewrite (wrap64_small (clusterNumber - 1)) by lia.
  rewrite (wrap64_small (_ * 20)) by lia.
  rewrite (wrap64_small (minOctetRange mm + _)) by lia.
  rewrite (wrap64_small (_ + 20)) by lia.
  rewrite (wrap64_small (_ - 1)) by lia.
  f_equal. destruct (Z.gtb_spec (minOctetRange mm + (clusterNumber - 1) * 20 + 20 - 1)
                                (maxOctetRange mm)); lia.
Qed.

Section PartitionerProps.
Context `{GoLib}.

Lemma adjustRangeForNodeIPs_free (mm : MetalLBManager) (startOctet endOctet : Z)
    (nodeIPs : gset Z) (ipPrefix : string) :
  hasNodeIP nodeIPs startOctet endOctet = false ->
  adjustRangeForNodeIPs mm startOctet endOctet nodeIPs ipPrefix
  = ((startOctet, endOctet), []).
Proof. intros Hfree. unfold adjustRangeForNodeIPs. by rewrite Hfree. Qed.

(** The allocation record and the range text of a successful call. *)
Lemma generateMetalLBIPRange_Ok (mm : MetalLBManager) (clusterName minikubeIP : string)
    (clusterNumber totalClusters : Z) (clientManager : ClientManager)
    (ipRange : string) (allocation : MetalLBAllocation) (w : list string) :
  generateMetalLBIPRange mm clusterName minikubeIP clusterNumber totalClusters clientManager
  = (Ok (ipRange, allocation), w) ->
  ipPrefixOf minikubeIP = Some (IPPrefix allocation)
  /\ ipRange = rangeString (IPPrefix allocation) (StartOctet allocation) (EndOctet allocation)
  /\ IPRange allocation = ipRange
  /\ ClusterName allocation = clusterName
  /\ totalClusters <= maxClusters mm.
Proof.
  unfold generateMetalLBIPRange.
  destruct (ipPrefixOf minikubeIP) as [ipPrefix|]; [|discriminate].
  destruct (currentNodeIPsOf clientManager) as [cur w1].
  destruct (Z.gtb_spec totalClusters (maxClusters mm)); [discriminate|].
  destruct (candidateWindow mm clusterNumber) as [s0 e0].
  destruct (if bool_decide _ then _ else _) as [[s1 e1] w2].
  destruct (adjustRangeForNodeIPs _ _ _ _ _) as [[s2 e2] w3].
  intros [= <- <- <-]. cbn. repeat split; first [done | lia].
Qed.

(** C6.  The window computed for a cluster starts at the minimum octet
    plus 20 times the ordinal minus one and ends 19 octets later, or at
    the maximum octet if that comes first; the range text of a successful
    call is [prefix.start-prefix.end] for the prefix and the octets of the
    allocation; and when the window's key is not recorded and no known
    node IP lies in the window, the call returns that window. *)
Theorem generateMetalLBIPRange_window (mm : MetalLBManager) (clusterName minikubeIP : string)
    (clusterNumber totalClusters : Z) (clientManager : ClientManager) :
  - 2 ^ 32 <= minOctetRange mm <= 2 ^ 32 ->
  - 2 ^ 32 <= maxOctetRange mm <= 2 ^ 32 ->
  - 2 ^ 32 <= clusterNumber <= 2 ^ 32 ->
  let candidateStart := minOctetRange mm + (clusterNumber - 1) * 20 in
  let candidateEnd := Z.min (candidateStart + 19) (maxOctetRange mm) in
  candidateWindow mm clusterNumber = (candidateStart, candidateEnd)
  /\ (forall ipRange allocation w,
        generateMetalLBIPRange mm clusterName minikubeIP clusterNumber totalClusters
          clientManager = (Ok (ipRange, allocation), w) ->
        ipRange
        = IPPrefix allocation +:+ "." +:+ fmt_d (StartOctet allocation) +:+ "-"
          +:+ IPPrefix allocation +:+ "." +:+ fmt_d (EndOctet allocation)
        /\ IPRange allocation = ipRange
        /\ ipPrefixOf minikubeIP = Some (IPPrefix allocation))
  /\ (forall ipPrefix,
        ipPrefixOf minikubeIP = Some ipPrefix ->
        totalClusters <= maxClusters mm ->
        rangeKey ipPrefix candidateStart candidateEnd ∉ usedRanges mm ->
        hasNodeIP (combinedNodeIPsOf mm clientManager) candidateStart candidateEnd = false ->
        exists allocation w,
          generateMetalLBIPRange mm clusterName minikubeIP clusterNumber totalClusters
            clientManager
          = (Ok (rangeString ipPrefix candidateStart candidateEnd, allocation), w)
          /\ StartOctet allocation = candidateStart
          /\ EndOctet allocation = candidateEnd).
Proof.
  intros Hmin Hmax Hk. cbv zeta.
  pose proof (candidateWindow_formula mm clusterNumber Hmin Hmax Hk) as Hwin.
  split; [exact Hwin|]. split.
  - intros ipRange allocation w Hgen.
    apply generateMetalLBIPRange_Ok in Hgen as (Hpre & Hrange & Hfield & _).
    done.
  - intros ipPrefix Hpre Htotal Hkey Hnode. unfold generateMetalLBIPRange.
    rewrite Hpre, Hwin.
    destruct (currentNodeIPsOf clientManager) as [cur w1] eqn:Hcur.
    destruct (Z.gtb_spec totalClusters (maxClusters mm)); [lia|].
    rewrite bool_decide_eq_false_2 by done.
    rewrite adjustRangeForNodeIPs_free by done.
    eexists _, _. split; [reflexivity|]. done.
Qed.
End PartitionerProps.

(** The scenarios of the specification, with octets 200 to 254: cluster 1
    of 2 with node 192.168.102.50 and nothing recorded gets
    192.168.102.200-192.168.102.219; once that is recorded, cluster 2 gets
    the window 220 to 239, whose key is not recorded. *)
Lemma generateMetalLBIPRange_window_witness :
  candidateWindow mm0 1 = (200, 219)
  /\ fst (@generateMetalLBIPRange goLib4 mm0 "demo-1" "192.168.102.50" 1 2
            (oneNode "192.168.102.50"))
     = Ok ("192.168.102.200-192.168.102.219",
           {| ClusterName := "demo-1"; IPPrefix := "192.168.102"; StartOctet := 200;
              EndOctet := 219; NodeIPs := [50];
              IPRange := "192.168.102.200-192.168.102.219" |})
  /\ candidateWindow mm1 2 = (220, 239)
  /\ (rangeKey "192.168.102" 220 239 ∉ usedRanges mm1)
  /\ fst (@generateMetalLBIPRange goLib4 mm1 "demo-2" "192.168.102.51" 2 2
            (oneNode "192.168.102.51"))
     = Ok ("192.168.102.220-192.168.102.239",
           {| ClusterName := "demo-2"; IPPrefix := "192.168.102"; StartOctet := 220;
              EndOctet := 239; NodeIPs := [51];
              IPRange := "192.168.102.220-192.168.102.239" |}).
Proof.
  split; [|split; [|split; [|split]]].
  - refine (proj1 (@generateMetalLBIPRange_window goLib4 mm0 "demo-1" "192.168.102.50" 1 2
                     (oneNode "192.168.102.50") _ _ _)); vm_compute; split; discriminate.
  - vm_compute. reflexivity.
  - refine (proj1 (@generateMetalLBIPRange_window goLib4 mm1 "demo-2" "192.168.102.51" 2 2
                     (oneNode "192.168.102.51") _ _ _)); vm_compute; split; discriminate.
  - refine (proj1 (bool_decide_eq_false _) _). vm_compute. reflexivity.
  - vm_compute. reflexivity.
Defined.

Lemma ipPrefixOf_is_Some (minikubeIP : string) :
  is_Some (ipPrefixOf minikubeIP) <-> (3 <= length (strings_Split minikubeIP "."))%nat.
Proof.
  unfold ipPrefixOf.
  destruct (strings_Split minikubeIP ".") as [|p0 [|p1 [|p2 rest]]]; cbn; split;
    try (intros [? [=]]); try lia; eauto.
Qed.

Section CapacityProps.
Context `{GoLib}.

(** C2, as the code has it.  A call for more clusters than fit in the
    octet window always fails: with the not-enough-IPs error when the
    address has at least three dot-separated parts, and with the
    invalid-format error otherwise, that check coming first.  In both
    cases [ConfigureMetalLB] returns an error and leaves the ledger and
    the tracking as they were.  The number of clusters that fit is the
    size of the window divided by 20, truncated. *)
Theorem generateMetalLBIPRange_capacity (cm : ConfigStore) (mm : MetalLBManager)
    (api : ClusterAPI) (clusterName minikubeIP : string) (clusterNumber totalClusters : Z)
    (clientManager : ClientManager) (project : string) :
  totalClusters > maxClusters mm ->
  ((3 <= length (strings_Split minikubeIP "."))%nat ->
   fst (generateMetalLBIPRange mm clusterName minikubeIP clusterNumber totalClusters
          clientManager) = Err (notEnoughIPs mm totalClusters))
  /\ ((length (strings_Split minikubeIP ".") < 3)%nat ->
      fst (generateMetalLBIPRange mm clusterName minikubeIP clusterNumber totalClusters
             clientManager) = Err (invalidIPFormat minikubeIP))
  /\ (exists err w,
        ConfigureMetalLB cm mm api clusterName minikubeIP clusterNumber totalClusters project
        = (Some err, w, cm, mm))
  /\ (- 2 ^ 32 <= minOctetRange mm <= 2 ^ 32 ->
      - 2 ^ 32 <= maxOctetRange mm <= 2 ^ 32 ->
      maxClusters mm = (maxOctetRange mm - minOctetRange mm + 1) ÷ 20).
Proof.
  intros Htotal.
  assert (forall cmgr,
             exists e w,
               generateMetalLBIPRange mm clusterName minikubeIP clusterNumber totalClusters
                 cmgr = (Err e, w)
               /\ e = match ipPrefixOf minikubeIP with
                      | Some _ => notEnoughIPs mm totalClusters
                      | None => invalidIPFormat minikubeIP
                      end) as Hfail.
  { intros cmgr. unfold generateMetalLBIPRange.
    destruct (ipPrefixOf minikubeIP) as [ipPrefix|]; [|by eexists _, _].
    destruct (currentNodeIPsOf cmgr) as [cur w1].
    destruct (Z.gtb_spec totalClusters (maxClusters mm)); [by eexists _, _ | lia]. }
  split; [|split; [|split]].
  - intros [ipPrefix Hpre]%ipPrefixOf_is_Some.
    destruct (Hfail clientManager) as (e & w & -> & ->). by rewrite Hpre.
  - intros Hlen. destruct (Hfail clientManager) as (e & w & -> & ->).
    destruct (ipPrefixOf minikubeIP) eqn:Hpre; [|done].
    assert (is_Some (ipPrefixOf minikubeIP)) as Hsome%ipPrefixOf_is_Some by eauto. lia.
  - unfold ConfigureMetalLB.
    destruct (newClientManager api) as [cmgr|err]; [|by eexists _, _].
    destruct (Hfail cmgr) as (e & w & -> & _). by eexists _, _.
  - apply maxClusters_formula.
Qed.
End CapacityProps.

(** The scenario of the specification: octets 200 to 254 hold 2 clusters
    (55 / 20, truncated), and a call for 3 clusters fails. *)
Lemma generateMetalLBIPRange_capacity_witness :
  maxClusters mm0 = 2
  /\ fst (@generateMetalLBIPRange goLib4 mm0 "demo-3" "192.168.102.52" 3 3
            (oneNode "192.168.102.52"))
     = Err "not enough IPs available: need 3 clusters but only 2 can fit in range 200-254 (20 IPs per cluster)".
Proof.
  split; [reflexivity|].
  refine (proj1 (@generateMetalLBIPRange_capacity goLib4 emptyStore mm0
                   (healthy "192.168.102.52") "demo-3" "192.168.102.52" 3 3
                   (oneNode "192.168.102.52") "demo" _) _).
  - reflexivity.
  - vm_compute. lia.
Defined.

(** C2 fails as stated: with an address of fewer than three parts the
    call for too many clusters fails with the invalid-format error, which
    is not the not-enough-IPs error. *)
Lemma generateMetalLBIPRange_invalid_ip_first :
  3 > maxClusters mm0
  /\ @generateMetalLBIPRange goLib4 mm0 "demo-3" "10.0" 3 3 (oneNode "10.0.0.2")
     = (Err "invalid minikube IP format: 10.0", [])
  /\ @generateMetalLBIPRange goLib4 mm0 "demo-3" "10.0" 3 3 (oneNode "10.0.0.2")
     <> (Err (notEnoughIPs mm0 3), []).
Proof.
  split; [reflexivity|]. split; [reflexivity|]. vm_compute. discriminate.
Qed.

(** ** The ledger round trip *)

Lemma fold_track_usedRanges (allocs : list MetalLBAllocation) (mm : MetalLBManager) :
  usedRanges (fold_left track allocs mm) = keysOf allocs ∪ usedRanges mm.
Proof.
  revert mm. induction allocs as [|x allocs IH]; intros mm; cbn [fold_left].
  - unfold keysOf. cbn. set_solver.
  - rewrite IH. unfold keysOf, keyOf. cbn. set_solver.
Qed.

Lemma fold_track_allNodeIPs (allocs : list MetalLBAllocation) (mm : MetalLBManager) :
  allNodeIPs (fold_left track allocs mm) = nodesOf allocs ∪ allNodeIPs mm.
Proof.
  revert mm. induction allocs as [|x allocs IH]; intros mm; cbn [fold_left].
  - unfold nodesOf. cbn. set_solver.
  - rewrite IH. unfold nodesOf. cbn. rewrite list_to_set_app_L. set_solver.
Qed.

(** [InitializeTracking] makes the indexes mirror the ledger. *)
Lemma InitializeTracking_mirrors (cm : ConfigStore) (mm mm' : MetalLBManager)
    (project : string) :
  InitializeTracking cm mm project = (None, mm') -> mirrors cm mm' project.
Proof.
  unfold InitializeTracking, mirrors, ledger.
  destruct (LoadConfig cm project) as [[config|]|err]; [| |discriminate];
    intros [= <-]; rewrite ?fold_track_usedRanges, ?fold_track_allNodeIPs;
    unfold keysOf, nodesOf; cbn; set_solver.
Qed.

Lemma LoadConfig_saved (fs : gmap string ConfigFile) (project : string)
    (config : ProjectConfig) :
  LoadConfig {| files := <[project := Stored config]> fs; writeError := None |} project
  = Ok (Some config).
Proof. unfold LoadConfig. cbn [files]. by rewrite lookup_insert_eq. Qed.

Lemma SaveAllocation_Ok (cm cm' : ConfigStore) (mm mm' : MetalLBManager) (project : string)
    (allocation : MetalLBAllocation) :
  SaveAllocation cm mm project allocation = (None, cm', mm') ->
  mm' = track mm allocation
  /\ ledger cm' project = upsert (ledger cm project) allocation
  /\ exists config, LoadConfig cm' project = Ok (Some config).
Proof.
  unfold SaveAllocation, ledger.
  destruct (LoadConfig cm project) as [loaded|err]; [|discriminate].
  unfold SaveConfig. destruct (writeError cm); [discriminate|].
  intros [= <- <-]. split; [done|].
  rewrite LoadConfig_saved. split; [|by eexists]. by destruct loaded.
Qed.

Lemma keysOf_upsert_sub (allocs : list MetalLBAllocation) (a : MetalLBAllocation) :
  keysOf (upsert allocs a) ⊆ keysOf allocs ∪ {[ keyOf a ]}.
Proof.
  induction allocs as [|x allocs IH]; cbn [upsert].
  - unfold keysOf. cbn. set_solver.
  - destruct (String.eqb _ _); unfold keysOf in *; cbn; set_solver.
Qed.

Lemma nodesOf_upsert_sub (allocs : list MetalLBAllocation) (a : MetalLBAllocation) :
  nodesOf (upsert allocs a) ⊆ nodesOf allocs ∪ list_to_set (NodeIPs a).
Proof.
  induction allocs as [|x allocs IH]; cbn [upsert].
  - unfold nodesOf. cbn. rewrite app_nil_r. set_solver.
  - destruct (String.eqb _ _); unfold nodesOf in *; cbn;
      rewrite !list_to_set_app_L; set_solver.
Qed.

Lemma keysOf_upsert_eq (allocs : list MetalLBAllocation) (a : MetalLBAllocation) :
  (forall x, x ∈ allocs -> ClusterName x = ClusterName a -> keyOf x = keyOf a) ->
  keysOf (upsert allocs a) = keysOf allocs ∪ {[ keyOf a ]}.
Proof.
  induction allocs as [|x allocs IH]; intros Hsame; cbn [upsert].
  - unfold keysOf. cbn. set_solver.
  - destruct (String.eqb_spec (ClusterName x) (ClusterName a)) as [Heq|Hne].
    + pose proof (Hsame x (list_elem_of_here _ _) Heq) as Hkey.
      unfold keysOf. cbn. rewrite Hkey. set_solver.
    + assert (keysOf (upsert allocs a) = keysOf allocs ∪ {[ keyOf a ]}) as IH'.
      { apply IH. intros y Hy. apply Hsame. by right. }
      unfold keysOf in *. cbn. rewrite IH'. set_solver.
Qed.

Lemma nodesOf_upsert_eq (allocs : list MetalLBAllocation) (a : MetalLBAllocation) :
  (forall x, x ∈ allocs -> ClusterName x = ClusterName a -> NodeIPs x ⊆ NodeIPs a) ->
  nodesOf (upsert allocs a) = nodesOf allocs ∪ list_to_set (NodeIPs a).
Proof.
  induction allocs as [|x allocs IH]; intros Hsame; cbn [upsert].
  - unfold nodesOf. cbn. rewrite app_nil_r. set_solver.
  - destruct (String.eqb_spec (ClusterName x) (ClusterName a)) as [Heq|Hne].
    + pose proof (Hsame x (list_elem_of_here _ _) Heq) as Hsub.
      unfold nodesOf. cbn. rewrite !list_to_set_app_L. set_solver.
    + assert (nodesOf (upsert allocs a) = nodesOf allocs ∪ list_to_set (NodeIPs a)) as IH'.
      { apply IH. intros y Hy. apply Hsame. by right. }
      unfold nodesOf in *. cbn. rewrite !list_to_set_app_L, IH'. set_solver.
Qed.

Lemma keysOf_upsert_replaced (allocs : list MetalLBAllocation) (a : MetalLBAllocation) :
  keysOf allocs ∪ {[ keyOf a ]}
  = keysOf (upsert allocs a)
    ∪ match replaced allocs a with Some old => {[ keyOf old ]} | None => ∅ end.
Proof.
  induction allocs as [|x allocs IH]; cbn [upsert replaced List.find].
  - unfold keysOf. cbn. set_solver.
  - destruct (String.eqb (ClusterName x) (ClusterName a)).
    + clear IH. unfold keysOf. cbn. set_solver.
    + fold (replaced allocs a). unfold keysOf in *. cbn.
      by rewrite <- !(assoc_L (∪)), IH.
Qed.

Lemma nodesOf_upsert_replaced (allocs : list MetalLBAllocation) (a : MetalLBAllocation) :
  nodesOf allocs ∪ list_to_set (NodeIPs a)
  = nodesOf (upsert allocs a)
    ∪ match replaced allocs a with Some old => list_to_set (NodeIPs old) | None => ∅ end.
Proof.
  induction allocs as [|x allocs IH]; cbn [upsert replaced List.find].
  - unfold nodesOf. cbn. rewrite app_nil_r. set_solver.
  - destruct (String.eqb (ClusterName x) (ClusterName a)).
    + clear IH. unfold nodesOf. cbn. rewrite !list_to_set_app_L. set_solver.
    + fold (replaced allocs a). unfold nodesOf in *. cbn.
      by rewrite !list_to_set_app_L, <- !(assoc_L (∪)), IH.
Qed.

(** C4, as the code has it.  When the in-memory indexes mirror the ledger
    and [SaveAllocation] succeeds, [InitializeTracking] on the same
    project succeeds and rebuilds the indexes of the ledger as saved,
    which are included in those present after the save.  What the reload
    drops is exactly the key, and the node IPs, of the entry the save
    replaced that no entry of the saved ledger has; so each index is the
    same after the reload exactly when the replaced entry's key, or its
    node IPs, are still in the saved ledger.  Both are the same when every
    ledger entry of the saved cluster name has the key of the saved
    allocation and node IPs among its node IPs, in particular when the
    cluster name is new. *)
Theorem SaveAllocation_InitializeTracking (cm cm' : ConfigStore) (mm mm' : MetalLBManager)
    (project : string) (allocation : MetalLBAllocation) :
  mirrors cm mm project ->
  SaveAllocation cm mm project allocation = (None, cm', mm') ->
  exists mm'',
    InitializeTracking cm' mm' project = (None, mm'')
    /\ usedRanges mm'' ⊆ usedRanges mm'
    /\ allNodeIPs mm'' ⊆ allNodeIPs mm'
    /\ ((forall existing,
            existing ∈ ledger cm project ->
            ClusterName existing = ClusterName allocation ->
            keyOf existing = keyOf allocation
            /\ NodeIPs existing ⊆ NodeIPs allocation) ->
        usedRanges mm'' = usedRanges mm' /\ allNodeIPs mm'' = allNodeIPs mm')
    /\ (ClusterName allocation ∉ (ClusterName <$> ledger cm project) ->
        usedRanges mm'' = usedRanges mm' /\ allNodeIPs mm'' = allNodeIPs mm')
    /\ mirrors cm' mm'' project
    /\ (forall key,
          key ∈ usedRanges mm' /\ key ∉ usedRanges mm''
          <-> (exists old,
                  replaced (ledger cm project) allocation = Some old /\ keyOf old = key)
              /\ key ∉ keysOf (ledger cm' project))
    /\ (forall ip,
          ip ∈ allNodeIPs mm' /\ ip ∉ allNodeIPs mm''
          <-> (exists old,
                  replaced (ledger cm project) allocation = Some old /\ ip ∈ NodeIPs old)
              /\ ip ∉ nodesOf (ledger cm' project))
    /\ (usedRanges mm'' = usedRanges mm'
        <-> forall old,
              replaced (ledger cm project) allocation = Some old ->
              keyOf old ∈ keysOf (ledger cm' project))
    /\ (allNodeIPs mm'' = allNodeIPs mm'
        <-> forall old ip,
              replaced (ledger cm project) allocation = Some old ->
              ip ∈ NodeIPs old -> ip ∈ nodesOf (ledger cm' project)).
Proof.
  intros [Hused Hnodes] Hsave.
  apply SaveAllocation_Ok in Hsave as (-> & Hledger & config & Hload).
  assert (InitializeTracking cm' (track mm allocation) project
          = (None, fold_left track (ledger cm' project) (clearTracking (track mm allocation))))
    as Hinit.
  { unfold InitializeTracking, ledger. by rewrite Hload. }
  eexists. split; [exact Hinit|].
  pose proof (InitializeTracking_mirrors _ _ _ _ Hinit) as Hmirror.
  destruct Hmirror as [Hused'' Hnodes''].
  assert (mirrors cm'
            (fold_left track (ledger cm' project) (clearTracking (track mm allocation)))
            project) as Hmirror by (by split).
  revert Hmirror. rewrite Hused'', Hnodes''. intros Hmirror.
  cbn [track usedRanges allNodeIPs]. rewrite Hused, Hnodes. fold (keyOf allocation).
  pose proof (keysOf_upsert_sub (ledger cm project) allocation) as Hksub.
  pose proof (nodesOf_upsert_sub (ledger cm project) allocation) as Hnsub.
  pose proof (keysOf_upsert_replaced (ledger cm project) allocation) as Hk.
  pose proof (nodesOf_upsert_replaced (ledger cm project) allocation) as Hn.
  rewrite <- Hledger in Hk, Hn, Hksub, Hnsub.
  assert ((forall existing,
              existing ∈ ledger cm project ->
              ClusterName existing = ClusterName allocation ->
              keyOf existing = keyOf allocation
              /\ NodeIPs existing ⊆ NodeIPs allocation) ->
          keysOf (ledger cm' project) = {[ keyOf allocation ]} ∪ keysOf (ledger cm project)
          /\ nodesOf (ledger cm' project)
             = list_to_set (NodeIPs allocation) ∪ nodesOf (ledger cm project)) as Hsame.
  { intros Hcond. rewrite Hledger.
    rewrite keysOf_upsert_eq by (intros x Hx Hname; by apply Hcond).
    rewrite nodesOf_upsert_eq by (intros x Hx Hname; by apply Hcond).
    clear. split; set_solver. }
  split; [clear -Hksub; set_solver|]. split; [clear -Hnsub; set_solver|].
  split; [exact Hsame|].
  split.
  { intros Hfresh. apply Hsame. intros existing Hin Hname. exfalso. apply Hfresh.
    rewrite <- Hname. by apply list_elem_of_fmap_2. }
  split; [exact Hmirror|].
  clear Hsame Hmirror Hinit Hload Hused Hnodes Hused'' Hnodes'' Hledger Hksub Hnsub.
  assert (forall x,
             x ∈ {[ keyOf allocation ]} ∪ keysOf (ledger cm project)
             <-> x ∈ keysOf (ledger cm' project)
                 \/ exists old,
                      replaced (ledger cm project) allocation = Some old /\ keyOf old = x)
    as Hkx.
  { intros x. rewrite (comm_L (∪)), Hk, elem_of_union.
    destruct (replaced (ledger cm project) allocation) as [old|].
    - rewrite elem_of_singleton. split; [intros [? | ->]; eauto|].
      intros [?|(old' & [= <-] & <-)]; auto.
    - rewrite elem_of_empty. split; [intros [?|Hf]; [auto | destruct Hf]|].
      intros [?|(old' & ? & _)]; [auto | done]. }
  assert (forall x,
             x ∈ list_to_set (C := gset Z) (NodeIPs allocation) ∪ nodesOf (ledger cm project)
             <-> x ∈ nodesOf (ledger cm' project)
                 \/ exists old,
                      replaced (ledger cm project) allocation = Some old /\ x ∈ NodeIPs old)
    as Hnx.
  { intros x. rewrite (comm_L (∪)), Hn, elem_of_union.
    destruct (replaced (ledger cm project) allocation) as [old|].
    - rewrite elem_of_list_to_set. split; [intros [?|?]; eauto|].
      intros [?|(old' & [= <-] & ?)]; auto.
    - rewrite elem_of_empty. split; [intros [?|Hf]; [auto | destruct Hf]|].
      intros [?|(old' & ? & _)]; [auto | done]. }
  clear Hk Hn.
  split; [|split; [|split]].
  - intros key. rewrite Hkx. tauto.
  - intros ip. rewrite Hnx. tauto.
  - split.
    + intros Heq old Hr. rewrite Heq. apply Hkx. right. by exists old.
    + intros Hall. apply set_eq. intros x. rewrite Hkx.
      split; [auto|]. intros [?|(old & Hr & <-)]; [done|]. by apply Hall.
  - split.
    + intros Heq old ip Hr Hip. rewrite Heq. apply Hnx. right. by exists old.
    + intros Hall. apply set_eq. intros x. rewrite Hnx.
      split; [auto|]. intros [?|(old & Hr & Hip)]; [done|]. by apply (Hall old).
Qed.

(** Saving demo-1 again, with another range and another node, next to
    demo-2: the reload drops the key of the replaced entry, and keeps its
    node 100, which demo-2 lists too. *)
Lemma SaveAllocation_InitializeTracking_witness :
  exists mm'',
    InitializeTracking storeE mmE "demo" = (None, mm'')
    /\ keyOf allocA ∈ usedRanges mmE
    /\ (keyOf allocA ∉ usedRanges mm'')
    /\ allNodeIPs mm'' = allNodeIPs mmE.
Proof.
  destruct (SaveAllocation_InitializeTracking storeD storeE mmD mmE "demo" allocB)
    as (mm'' & Hinit & _ & _ & _ & _ & _ & Hkeys & _ & _ & Hnodes).
  - apply (InitializeTracking_mirrors storeD mm0). reflexivity.
  - reflexivity.
  - exists mm''. split; [exact Hinit|].
    assert (replaced (ledger storeD "demo") allocB = Some allocA) as Hr by reflexivity.
    assert (keyOf allocA ∈ usedRanges mmE /\ keyOf allocA ∉ usedRanges mm'') as [Hin Hout].
    { apply Hkeys. split; [by exists allocA|].
      refine (proj1 (bool_decide_eq_false _) _). vm_compute. reflexivity. }
    split; [exact Hin|]. split; [exact Hout|].
    apply Hnodes. intros old ip Hold Hip. rewrite Hr in Hold. injection Hold as <-.
    apply list_elem_of_singleton in Hip as ->.
    refine (proj1 (bool_decide_eq_true _) _). vm_compute. reflexivity.
Defined.

(** C4 fails as stated when the saved allocation replaces an entry with a
    different range: the indexes mirror the ledger before the save, the
    save and the reload succeed, and the key and the node IP of the
    replaced entry are in the indexes after the save but not in the
    reloaded ones. *)
Lemma SaveAllocation_replace_leaves_stale :
  mirrors storeA mmA "demo"
  /\ SaveAllocation storeA mmA "demo" allocB = (None, storeB, mmB)
  /\ InitializeTracking storeB mmB "demo" = (None, mmC)
  /\ keyOf allocA ∈ usedRanges mmB
  /\ (keyOf allocA ∉ usedRanges mmC)
  /\ 100 ∈ allNodeIPs mmB
  /\ (100 ∉ allNodeIPs mmC)
  /\ usedRanges mmC <> usedRanges mmB
  /\ allNodeIPs mmC <> allNodeIPs mmB.
Proof.
  assert (keyOf allocA ∈ usedRanges mmB) as Hk1.
  { refine (proj1 (bool_decide_eq_true _) _). vm_compute. reflexivity. }
  assert (keyOf allocA ∉ usedRanges mmC) as Hk2.
  { refine (proj1 (bool_decide_eq_false _) _). vm_compute. reflexivity. }
  assert (100 ∈ allNodeIPs mmB) as Hn1.
  { refine (proj1 (bool_decide_eq_true _) _). vm_compute. reflexivity. }
  assert (100 ∉ allNodeIPs mmC) as Hn2.
  { refine (proj1 (bool_decide_eq_false _) _). vm_compute. reflexivity. }
  split; [apply (InitializeTracking_mirrors storeA mm0); reflexivity|].
  split; [reflexivity|]. split; [reflexivity|].
  repeat split;
    first [ done
          | intros Heq; rewrite Heq in Hk2; done
          | intros Heq; rewrite Heq in Hn2; done ].
Qed.

(** ** Fresh keys *)

Section FreshKey.
Context `{GoLib}.

(** A range search that ends without its warning found a window whose key
    is not recorded and that holds no node IP. *)
Lemma findNext_loop_found (mm : MetalLBManager) (rangeSize : Z) (nodeIPs : gset Z)
    (ipPrefix : string) (fuel : nat) (attempts s e s' e' : Z) :
  findNext_loop mm rangeSize nodeIPs ipPrefix fuel attempts s e = ((s', e'), []) ->
  (rangeKey ipPrefix s' e' ∉ usedRanges mm) /\ hasNodeIP nodeIPs s' e' = false.
Proof.
  revert attempts s e. induction fuel as [|fuel IH]; intros attempts s e; cbn [findNext_loop].
  - discriminate.
  - destruct (bool_decide (rangeKey ipPrefix s e ∈ usedRanges mm)) eqn:Hused.
    + destruct (nextWindow mm s rangeSize) as [s1 e1]. apply IH.
    + destruct (hasNodeIP nodeIPs s e) eqn:Hnode; cbn [negb].
      * destruct (nextWindow mm s rangeSize) as [s1 e1]. apply IH.
      * intros [= <- <-]. split; [|done]. by apply bool_decide_eq_false in Hused.
Qed.

Lemma findNext_loop_warning (mm : MetalLBManager) (rangeSize : Z) (nodeIPs : gset Z)
    (ipPrefix : string) (fuel : nat) (attempts s e : Z) :
  (findNext_loop mm rangeSize nodeIPs ipPrefix fuel attempts s e).2 = []
  \/ exists n, (findNext_loop mm rangeSize nodeIPs ipPrefix fuel attempts s e).2
               = [searchExhausted n].
Proof.
  revert attempts s e. induction fuel as [|fuel IH]; intros attempts s e; cbn [findNext_loop].
  - right. by eexists.
  - destruct (bool_decide _).
    + destruct (nextWindow mm s rangeSize) as [s1 e1]. apply IH.
    + destruct (hasNodeIP nodeIPs s e); cbn [negb].
      * destruct (nextWindow mm s rangeSize) as [s1 e1]. apply IH.
      * by left.
Qed.

(** C1, as the code has it.  When the range search does not fall back
    (no search warning is logged), and the window of the ordinal either
    has a recorded key (so that the search runs) or holds no known node
    IP (so that the node-IP adjustment does not move it), the key of the
    returned range is not among the recorded keys, and the range holds no
    known node IP.  Keys are compared as texts: of intervals, the code
    guarantees only that the windows of two different ordinals that fit
    in the octet window do not overlap. *)
Theorem generateMetalLBIPRange_fresh_key (mm : MetalLBManager)
    (clusterName minikubeIP : string) (clusterNumber totalClusters : Z)
    (clientManager : ClientManager) (ipRange : string) (allocation : MetalLBAllocation)
    (w : list string) :
  generateMetalLBIPRange mm clusterName minikubeIP clusterNumber totalClusters clientManager
  = (Ok (ipRange, allocation), w) ->
  (forall attempts, searchExhausted attempts ∉ w) ->
  ((rangeKey (IPPrefix allocation) (fst (candidateWindow mm clusterNumber))
      (snd (candidateWindow mm clusterNumber)) ∈ usedRanges mm)
   \/ hasNodeIP (combinedNodeIPsOf mm clientManager) (fst (candidateWindow mm clusterNumber))
        (snd (candidateWindow mm clusterNumber)) = false) ->
  (keyOf allocation ∉ usedRanges mm)
  /\ hasNodeIP (combinedNodeIPsOf mm clientManager) (StartOctet allocation)
       (EndOctet allocation) = false
  /\ (forall k k',
        - 2 ^ 32 <= minOctetRange mm <= 2 ^ 32 ->
        - 2 ^ 32 <= maxOctetRange mm <= 2 ^ 32 ->
        1 <= k -> k < k' -> k' <= maxClusters mm ->
        minOctetRange mm <= fst (candidateWindow mm k)
        /\ snd (candidateWindow mm k) = fst (candidateWindow mm k) + 19
        /\ snd (candidateWindow mm k) < fst (candidateWindow mm k')
        /\ snd (candidateWindow mm k') = fst (candidateWindow mm k') + 19
        /\ snd (candidateWindow mm k') <= maxOctetRange mm).
Proof.
  intros Hgen Hwarn Hcand.
  assert ((keyOf allocation ∉ usedRanges mm)
          /\ hasNodeIP (combinedNodeIPsOf mm clientManager) (StartOctet allocation)
               (EndOctet allocation) = false) as [Hfresh Hnodes].
  { revert Hgen. unfold generateMetalLBIPRange.
    destruct (ipPrefixOf minikubeIP) as [ipPrefix|]; [|discriminate].
    destruct (currentNodeIPsOf clientManager) as [cur w1] eqn:Hcur.
    destruct (Z.gtb_spec totalClusters (maxClusters mm)); [discriminate|].
    destruct (candidateWindow mm clusterNumber) as [s0 e0]. cbn [fst snd] in Hcand.
    destruct (bool_decide (rangeKey ipPrefix s0 e0 ∈ usedRanges mm)) eqn:Hused.
    - unfold findNextAvailableRange.
      pose proof (findNext_loop_warning mm ipsPerCluster
                    (combinedNodeIPsOf mm clientManager) ipPrefix 100 0 s0 e0) as Hw.
      destruct (findNext_loop mm ipsPerCluster (combinedNodeIPsOf mm clientManager)
                  ipPrefix 100 0 s0 e0) as [[s1 e1] w2] eqn:Hfind.
      cbn [snd] in Hw. destruct Hw as [->|[n ->]].
      + apply findNext_loop_found in Hfind as [Hkey Hnode].
        rewrite (adjustRangeForNodeIPs_free mm s1 e1 _ ipPrefix Hnode).
        intros [= <- <- <-]. unfold keyOf. cbn. done.
      + destruct (adjustRangeForNodeIPs _ _ _ _ _) as [[s2 e2] w3].
        intros [= <- <- <-]. exfalso. apply (Hwarn n).
        cbn [app]. rewrite elem_of_app, elem_of_cons. auto.
    - apply bool_decide_eq_false in Hused.
      destruct (adjustRangeForNodeIPs mm s0 e0 _ ipPrefix) as [[s2 e2] w3] eqn:Hadj.
      intros [= <- <- <-]. cbn [IPPrefix] in Hcand.
      destruct Hcand as [Hin|Hfree]; [done|].
      rewrite (adjustRangeForNodeIPs_free mm s0 e0 _ ipPrefix Hfree) in Hadj.
      injection Hadj as <- <- <-. unfold keyOf. cbn. done. }
  split; [exact Hfresh|]. split; [exact Hnodes|].
  intros k k' Hmin Hmax Hk Hlt Hk'.
  rewrite maxClusters_formula in Hk' by done.
  pose proof (Z.quot_rem' (maxOctetRange mm - minOctetRange mm + 1) 20) as Hqr.
  pose proof (Z.rem_bound_abs (maxOctetRange mm - minOctetRange mm + 1) 20) as Hrb.
  assert (0 <= maxOctetRange mm - minOctetRange mm + 1) as Hpos by lia.
  pose proof (Z.rem_nonneg (maxOctetRange mm - minOctetRange mm + 1) 20
                ltac:(lia) Hpos) as Hrn.
  rewrite !candidateWindow_formula by lia. cbn [fst snd]. lia.
Qed.
End FreshKey.

(** The second cluster of the two-cluster scenario: its window, 220 to
    239, has a key that is not recorded and holds no known node IP. *)
Lemma generateMetalLBIPRange_fresh_key_witness :
  @generateMetalLBIPRange goLib4 mm1 "demo-2" "192.168.102.51" 2 2 (oneNode "192.168.102.51")
  = (Ok ("192.168.102.220-192.168.102.239", alloc2), [])
  /\ (keyOf alloc2 ∉ usedRanges mm1).
Proof.
  assert (@generateMetalLBIPRange goLib4 mm1 "demo-2" "192.168.102.51" 2 2
            (oneNode "192.168.102.51")
          = (Ok ("192.168.102.220-192.168.102.239", alloc2), [])) as Hgen.
  { vm_compute. reflexivity. }
  split; [exact Hgen|].
  refine (proj1 (@generateMetalLBIPRange_fresh_key goLib4 mm1 "demo-2" "192.168.102.51" 2 2
                   (oneNode "192.168.102.51") _ alloc2 [] Hgen _ _)).
  - intros attempts. apply not_elem_of_nil.
  - right. vm_compute. reflexivity.
Defined.

(** C1 fails as stated.  First, with one allocation recorded (201 to 220
    for demo-2), the call for cluster 1, whose node has the address
    192.168.102.200, finds the key of its window 200 to 219 not recorded,
    moves the window up by one to avoid the node IP, and returns 201 to
    220 with no warning: a recorded key, and the recorded interval.
    Second, from an empty ledger, cluster 1 with node 192.168.102.205 is
    given and recorded 206 to 225; cluster 2 is then given 220 to 239,
    with no warning and a key that is not recorded, and the two intervals
    overlap. *)
Lemma generateMetalLBIPRange_reuses_key :
  (ledger storeK "demo" = [allocK]
   /\ InitializeTracking storeK mm0 "demo" = (None, mmK)
   /\ @generateMetalLBIPRange goLib4 mmK "demo-1" "192.168.102.200" 1 2
        (oneNode "192.168.102.200")
      = (Ok ("192.168.102.201-192.168.102.220", allocShift), [])
   /\ keyOf allocShift ∈ usedRanges mmK
   /\ overlap (StartOctet allocShift) (EndOctet allocShift)
        (StartOctet allocK) (EndOctet allocK))
  /\ (afterShift = (None, [], storeO, mmO)
      /\ ledger storeO "demo" = [allocO]
      /\ @generateMetalLBIPRange goLib4 mmO "demo-2" "192.168.102.51" 2 2
           (oneNode "192.168.102.51")
         = (Ok ("192.168.102.220-192.168.102.239", alloc2), [])
      /\ (keyOf alloc2 ∉ usedRanges mmO)
      /\ overlap (StartOctet alloc2) (EndOctet alloc2) (StartOctet allocO) (EndOctet allocO)).
Proof.
  split.
  - split; [reflexivity|]. split; [reflexivity|]. split; [vm_compute; reflexivity|].
    split.
    + refine (proj1 (bool_decide_eq_true _) _). vm_compute. reflexivity.
    + unfold overlap. cbn. lia.
  - split; [reflexivity|]. split; [vm_compute; reflexivity|].
    split; [vm_compute; reflexivity|]. split.
    + refine (proj1 (bool_decide_eq_false _) _). vm_compute. reflexivity.
    + unfold overlap. cbn. lia.
Qed.

(* ================================================================== *)
(** * Further properties: the range partitioner (metallb.go) *)
(* ================================================================== *)

(** ** The two range searches *)

Lemma hasNodeIP_false (nodeIPs : gset Z) (s e : Z) :
  hasNodeIP nodeIPs s e = false <-> forall octet, s <= octet <= e -> octet ∉ nodeIPs.
Proof.
  unfold hasNodeIP. split.
  - intros Hex octet Hr Hin.
    assert (existsb (fun octet => bool_decide (octet ∈ nodeIPs)) (seqZ s (e - s + 1)) = true)
      as Ht; [|congruence].
    apply existsb_exists. exists octet. split.
    + apply list_elem_of_In, elem_of_seqZ. lia.
    + by apply bool_decide_eq_true.
  - intros Hall. apply not_true_is_false. intros Ht.
    apply existsb_exists in Ht as (octet & Hin & Hd).
    apply list_elem_of_In, elem_of_seqZ in Hin. apply bool_decide_eq_true in Hd.
    apply (Hall octet); [lia | done].
Qed.

Lemma hasNodeIP_true (nodeIPs : gset Z) (s e : Z) :
  hasNodeIP nodeIPs s e = true <-> exists octet, s <= octet <= e /\ octet ∈ nodeIPs.
Proof.
  unfold hasNodeIP. rewrite existsb_exists. split.
  - intros (octet & Hin & Hd).
    apply list_elem_of_In, elem_of_seqZ in Hin. apply bool_decide_eq_true in Hd.
    exists octet. split; [lia | done].
  - intros (octet & Hr & Hin). exists octet. split.
    + apply list_elem_of_In, elem_of_seqZ. lia.
    + by apply bool_decide_eq_true.
Qed.

Lemma windowFree_true (mm : MetalLBManager) (nodeIPs : gset Z) (s e : Z) :
  windowFree mm nodeIPs s e = true
  <-> forall octet, s <= octet <= e -> (octet ∉ nodeIPs) /\ octet <= maxOctetRange mm.
Proof.
  unfold windowFree. rewrite forallb_forall. split.
  - intros Hall octet Hr.
    specialize (Hall octet). rewrite <- list_elem_of_In, elem_of_seqZ in Hall.
    specialize (Hall ltac:(lia)).
    apply negb_true_iff, orb_false_iff in Hall as [Hd Hm].
    apply bool_decide_eq_false in Hd. split; [done | lia].
  - intros Hall octet Hin. apply list_elem_of_In, elem_of_seqZ in Hin.
    destruct (Hall octet ltac:(lia)) as [Hd Hm].
    apply negb_true_iff, orb_false_iff. split; [by apply bool_decide_eq_false | lia].
Qed.

Lemma nextWindow_small (mm : MetalLBManager) (s size : Z) :
  - 2 ^ 40 <= s <= 2 ^ 40 -> - 2 ^ 40 <= size <= 2 ^ 40 ->
  - 2 ^ 40 <= minOctetRange mm <= 2 ^ 40 ->
  nextWindow mm s size
  = if s + size >? maxOctetRange mm
    then (minOctetRange mm, minOctetRange mm + size - 1)
    else (s + 1, s + size).
Proof.
  intros Hs Hz Hm. unfold nextWindow, add64, sub64.
  rewrite (wrap64_small (s + 1)) by lia.
  rewrite (wrap64_small (s + 1 + size)) by lia.
  rewrite (wrap64_small (s + 1 + size - 1)) by lia.
  rewrite (wrap64_small (minOctetRange mm + size)) by lia.
  rewrite (wrap64_small (minOctetRange mm + size - 1)) by lia.
  replace (s + 1 + size - 1) with (s + size) by lia. done.
Qed.

Lemma adjust_loop_Some (mm : MetalLBManager) (nodeIPs : gset Z) (size : Z) (fuel : nat)
    (s e s' e' : Z) :
  adjust_loop mm nodeIPs size fuel s e = Some (s', e') ->
  windowFree mm nodeIPs s' e' = true.
Proof.
  revert s e. induction fuel as [|fuel IH]; intros s e; cbn; [done|].
  destruct (windowFree mm nodeIPs s e) eqn:Hf.
  - by intros [= <- <-].
  - destruct (nextWindow mm s size) as [s1 e1]. apply IH.
Qed.

Lemma adjust_loop_size (mm : MetalLBManager) (nodeIPs : gset Z) (size : Z) (fuel : nat)
    (s e s' e' : Z) :
  - 2 ^ 39 <= s <= 2 ^ 39 - Z.of_nat fuel -> - 2 ^ 39 <= size <= 2 ^ 39 ->
  - 2 ^ 39 <= minOctetRange mm <= 2 ^ 39 - Z.of_nat fuel ->
  e = s + size - 1 ->
  adjust_loop mm nodeIPs size fuel s e = Some (s', e') ->
  e' = s' + size - 1.
Proof.
  revert s e. induction fuel as [|fuel IH]; intros s e Hs Hz Hm He; cbn; [done|].
  destruct (windowFree mm nodeIPs s e) eqn:Hf.
  - intros [= <- <-]. done.
  - rewrite nextWindow_small by lia.
    destruct (s + size >? maxOctetRange mm); apply IH; lia.
Qed.

(** X1.  adjustRangeForNodeIPs (metallb.go): a window returned without a warning
    holds no node IP, and when it was moved it has the size of the given one
    and lies at or below [maxOctetRange]; with the warning the given window
    comes back unchanged although it holds a node IP. *)
Theorem adjustRangeForNodeIPs_cases (mm : MetalLBManager) (startOctet endOctet : Z)
    (nodeIPs : gset Z) (ipPrefix : string) :
  let '((s', e'), w) := adjustRangeForNodeIPs mm startOctet endOctet nodeIPs ipPrefix in
  (w = [] -> forall octet, s' <= octet <= e' -> octet ∉ nodeIPs)
  /\ (w = [] -> (s', e') <> (startOctet, endOctet) ->
      forall octet, s' <= octet <= e' -> octet <= maxOctetRange mm)
  /\ (w <> [] ->
      w = ["could not find completely free range, using original range with potential overlap"]
      /\ (s', e') = (startOctet, endOctet)
      /\ exists octet, startOctet <= octet <= endOctet /\ octet ∈ nodeIPs)
  /\ (- 2 ^ 32 <= startOctet <= 2 ^ 32 -> - 2 ^ 32 <= endOctet <= 2 ^ 32 ->
      - 2 ^ 32 <= minOctetRange mm <= 2 ^ 32 ->
      e' - s' = endOctet - startOctet).
Proof.
  destruct (adjustRangeForNodeIPs mm startOctet endOctet nodeIPs ipPrefix)
    as [[s' e'] w] eqn:E.
  unfold adjustRangeForNodeIPs in E.
  destruct (hasNodeIP nodeIPs startOctet endOctet) eqn:Hn.
  - destruct (adjust_loop mm nodeIPs (add64 (sub64 endOctet startOctet) 1) 10
                startOctet endOctet) as [[s1 e1]|] eqn:Ha; injection E as <- <- <-.
    + pose proof (adjust_loop_Some _ _ _ _ _ _ _ _ Ha) as Hfree.
      rewrite windowFree_true in Hfree.
      split; [intros _ octet Hr; by apply Hfree|].
      split; [intros _ _ octet Hr; by apply Hfree|].
      split; [done|].
      intros Hs He Hm.
      unfold add64, sub64 in Ha.
      rewrite (wrap64_small (endOctet - startOctet)) in Ha by lia.
      rewrite (wrap64_small (endOctet - startOctet + 1)) in Ha by lia.
      pose proof (adjust_loop_size mm nodeIPs (endOctet - startOctet + 1) 10
                    startOctet endOctet s1 e1) as Hsz.
      cbn [Z.of_nat] in Hsz.
      specialize (Hsz ltac:(lia) ltac:(lia) ltac:(lia) ltac:(lia) Ha). lia.
    + split; [done|]. split; [done|]. split; [|intros; lia].
      intros _. split; [done|]. split; [done|].
      by apply hasNodeIP_true.
  - injection E as <- <- <-. pose proof (proj1 (hasNodeIP_false _ _ _) Hn) as Hfree.
    split; [intros _; exact Hfree|]. split; [done|]. split; [done|]. intros; lia.
Qed.


Lemma findNext_loop_window (mm : MetalLBManager) (rangeSize : Z) (nodeIPs : gset Z)
    (ipPrefix : string) (fuel : nat) (attempts s e s' e' : Z) (w : list string) :
  - 2 ^ 32 <= minOctetRange mm -> maxOctetRange mm <= 2 ^ 32 ->
  1 <= rangeSize ->
  minOctetRange mm + rangeSize - 1 <= maxOctetRange mm ->
  minOctetRange mm <= s <= 2 ^ 32 ->
  findNext_loop mm rangeSize nodeIPs ipPrefix fuel attempts s e = ((s', e'), w) ->
  (s', e') = (s, e)
  \/ (minOctetRange mm <= s' /\ e' = s' + rangeSize - 1 /\ e' <= maxOctetRange mm).
Proof.
  intros Hmin Hmax Hsz Hfit. revert attempts s e.
  assert (forall fuel attempts s e,
             minOctetRange mm <= s <= 2 ^ 32 -> e = s + rangeSize - 1 ->
             e <= maxOctetRange mm ->
             findNext_loop mm rangeSize nodeIPs ipPrefix fuel attempts s e = ((s', e'), w) ->
             minOctetRange mm <= s' /\ e' = s' + rangeSize - 1 /\ e' <= maxOctetRange mm)
    as Hstd.
  { clear fuel. induction fuel as [|fuel IH]; intros attempts s e Hs He Hle; cbn [findNext_loop].
    - intros [= <- <- _]. lia.
    - assert (let '(s1, e1) := nextWindow mm s rangeSize in
              minOctetRange mm <= s1 <= 2 ^ 32 /\ e1 = s1 + rangeSize - 1
              /\ e1 <= maxOctetRange mm) as Hnext.
      { rewrite nextWindow_small by lia.
        destruct (s + rangeSize >? maxOctetRange mm) eqn:Hw; lia. }
      destruct (nextWindow mm s rangeSize) as [s1 e1]. destruct Hnext as (H1 & H2 & H3).
      destruct (bool_decide (rangeKey ipPrefix s e ∈ usedRanges mm)); [by eapply IH|].
      destruct (hasNodeIP nodeIPs s e); cbn [negb]; [by eapply IH|].
      intros [= <- <- _]. lia. }
  intros attempts s e Hs. destruct fuel as [|fuel]; cbn [findNext_loop].
  - intros [= <- <- _]. by left.
  - assert (let '(s1, e1) := nextWindow mm s rangeSize in
            minOctetRange mm <= s1 <= 2 ^ 32 /\ e1 = s1 + rangeSize - 1
            /\ e1 <= maxOctetRange mm) as Hnext.
    { rewrite nextWindow_small by lia.
      destruct (s + rangeSize >? maxOctetRange mm) eqn:Hw; lia. }
    destruct (nextWindow mm s rangeSize) as [s1 e1]. destruct Hnext as (H1 & H2 & H3).
    destruct (bool_decide (rangeKey ipPrefix s e ∈ usedRanges mm));
      [right; by eapply Hstd|].
    destruct (hasNodeIP nodeIPs s e); cbn [negb]; [right; by eapply Hstd|].
    intros [= <- <- _]. by left.
Qed.






Lemma adjust_loop_min (mm : MetalLBManager) (nodeIPs : gset Z) (size : Z) (fuel : nat)
    (s e s' e' : Z) :
  - 2 ^ 39 <= size <= 2 ^ 39 ->
  - 2 ^ 39 <= minOctetRange mm <= 2 ^ 39 ->
  minOctetRange mm <= s <= 2 ^ 39 - Z.of_nat fuel ->
  adjust_loop mm nodeIPs size fuel s e = Some (s', e') ->
  minOctetRange mm <= s'.
Proof.
  intros Hz Hm. revert s e. induction fuel as [|fuel IH]; intros s e Hs; cbn; [done|].
  destruct (windowFree mm nodeIPs s e) eqn:Hf.
  - intros [= <- <-]. lia.
  - rewrite nextWindow_small by lia.
    destruct (s + size >? maxOctetRange mm); apply IH; lia.
Qed.

Lemma adjustRangeForNodeIPs_window (mm : MetalLBManager) (s e size : Z)
    (nodeIPs : gset Z) (ipPrefix : string) (s' e' : Z) (w : list string) :
  - 2 ^ 32 <= minOctetRange mm <= 2 ^ 32 -> - 2 ^ 32 <= maxOctetRange mm <= 2 ^ 32 ->
  1 <= size ->
  minOctetRange mm <= s -> e = s + size - 1 -> e <= maxOctetRange mm ->
  adjustRangeForNodeIPs mm s e nodeIPs ipPrefix = ((s', e'), w) ->
  minOctetRange mm <= s' /\ e' = s' + size - 1 /\ e' <= maxOctetRange mm.
Proof.
  intros Hmin Hmax Hsz Hs He Hle. unfold adjustRangeForNodeIPs.
  destruct (hasNodeIP nodeIPs s e); [|intros [= <- <- _]; lia].
  unfold add64, sub64.
  rewrite (wrap64_small (e - s)) by lia. rewrite (wrap64_small (e - s + 1)) by lia.
  replace (e - s + 1) with size by lia.
  destruct (adjust_loop mm nodeIPs size 10 s e) as [[s1 e1]|] eqn:Ha;
    [|intros [= <- <- _]; lia].
  intros [= <- <- _].
  pose proof (adjust_loop_min mm nodeIPs size 10 s e s1 e1) as H1.
  pose proof (adjust_loop_size mm nodeIPs size 10 s e s1 e1) as H2.
  pose proof (adjust_loop_Some _ _ _ _ _ _ _ _ Ha) as H3.
  rewrite windowFree_true in H3. cbn [Z.of_nat] in H1, H2.
  specialize (H1 ltac:(lia) ltac:(lia) ltac:(lia) Ha).
  specialize (H2 ltac:(lia) ltac:(lia) ltac:(lia) ltac:(lia) Ha).
  destruct (H3 e1 ltac:(lia)) as [_ H4]. lia.
Qed.

Section InWindow.
Context `{GoLib}.

(** X4.  generateMetalLBIPRange (metallb.go): for a cluster number between 1
    and [maxClusters], whatever the fallback search and the node-IP
    adjustment do, the allocated range has exactly 20 octets and lies
    inside the octet window [minOctetRange .. maxOctetRange]. *)
Theorem generateMetalLBIPRange_in_window (mm : MetalLBManager)
    (clusterName minikubeIP : string) (clusterNumber totalClusters : Z)
    (clientManager : ClientManager) (ipRange : string) (allocation : MetalLBAllocation)
    (w : list string) :
  - 2 ^ 32 <= minOctetRange mm <= 2 ^ 32 ->
  - 2 ^ 32 <= maxOctetRange mm <= 2 ^ 32 ->
  1 <= clusterNumber <= maxClusters mm ->
  generateMetalLBIPRange mm clusterName minikubeIP clusterNumber totalClusters clientManager
  = (Ok (ipRange, allocation), w) ->
  minOctetRange mm <= StartOctet allocation
  /\ EndOctet allocation = StartOctet allocation + 19
  /\ EndOctet allocation <= maxOctetRange mm.
Proof.
  intros Hmin Hmax Hk. rewrite maxClusters_formula in Hk by done.
  pose proof (Z.quot_rem' (maxOctetRange mm - minOctetRange mm + 1) 20) as Hqr.
  pose proof (Z.rem_bound_abs (maxOctetRange mm - minOctetRange mm + 1) 20) as Hrb.
  assert (0 <= maxOctetRange mm - minOctetRange mm + 1) as Hpos by lia.
  pose proof (Z.rem_nonneg (maxOctetRange mm - minOctetRange mm + 1) 20
                ltac:(lia) Hpos) as Hrn.
  unfold generateMetalLBIPRange.
  destruct (ipPrefixOf minikubeIP) as [ipPrefix|]; [|discriminate].
  destruct (currentNodeIPsOf clientManager) as [cur w1].
  destruct (totalClusters >? maxClusters mm); [discriminate|].
  rewrite candidateWindow_formula by lia.
  set (s0 := minOctetRange mm + (clusterNumber - 1) * 20).
  replace (Z.min (s0 + 19) (maxOctetRange mm)) with (s0 + 19) by (unfold s0; lia).
  assert (exists s1 e1 w2,
             (if bool_decide (rangeKey ipPrefix s0 (s0 + 19) ∈ usedRanges mm)
              then findNextAvailableRange mm s0 (s0 + 19) ipsPerCluster
                     (combinedNodeIPsOf mm clientManager) ipPrefix
              else ((s0, s0 + 19), [])) = ((s1, e1), w2)
             /\ minOctetRange mm <= s1 /\ e1 = s1 + 20 - 1 /\ e1 <= maxOctetRange mm)
    as (s1 & e1 & w2 & -> & Hs1 & He1 & Hle1).
  { destruct (bool_decide (rangeKey ipPrefix s0 (s0 + 19) ∈ usedRanges mm)).
    - unfold findNextAvailableRange, ipsPerCluster.
      destruct (findNext_loop mm 20 (combinedNodeIPsOf mm clientManager) ipPrefix 100 0
                  s0 (s0 + 19)) as [[s1 e1] w2] eqn:E.
      exists s1, e1, w2. split; [done|].
      assert (minOctetRange mm <= s0 <= 2 ^ 32) as Hs0 by (unfold s0; lia).
      destruct (findNext_loop_window mm 20 _ _ _ _ _ _ _ _ _
                  (proj1 Hmin) (proj2 Hmax) ltac:(lia) ltac:(lia) Hs0 E)
        as [[= -> ->]|?]; [lia | done].
    - exists s0, (s0 + 19), []. split; [done|]. unfold s0; lia. }
  destruct (adjustRangeForNodeIPs mm s1 e1 (combinedNodeIPsOf mm clientManager) ipPrefix)
    as [[s2 e2] w3] eqn:E2.
  intros [= _ <- _]. cbn [StartOctet EndOctet].
  pose proof (adjustRangeForNodeIPs_window mm s1 e1 20 _ _ _ _ _
                Hmin Hmax ltac:(lia) Hs1 He1 Hle1 E2). lia.
Qed.
End InWindow.

(** The cluster whose node sits at octet 205 of the window 200 to 254 gets
    the 20 octets 206 to 225. *)
Lemma generateMetalLBIPRange_in_window_witness :
  @generateMetalLBIPRange goLib4 mm0 "demo-1" "192.168.102.205" 1 2
    (oneNode "192.168.102.205")
  = (Ok ("192.168.102.206-192.168.102.225", allocO), [])
  /\ minOctetRange mm0 <= 206 /\ 225 = 206 + 19 /\ 225 <= maxOctetRange mm0.
Proof.
  assert (@generateMetalLBIPRange goLib4 mm0 "demo-1" "192.168.102.205" 1 2
            (oneNode "192.168.102.205")
          = (Ok ("192.168.102.206-192.168.102.225", allocO), [])) as Hgen.
  { vm_compute. reflexivity. }
  split; [exact Hgen|].
  refine (@generateMetalLBIPRange_in_window goLib4 mm0 "demo-1" "192.168.102.205" 1 2
            (oneNode "192.168.102.205") _ allocO [] _ _ _ Hgen).
  - vm_compute. split; discriminate.
  - vm_compute. split; discriminate.
  - vm_compute. split; discriminate.
Defined.

(** ** Node IPs *)

Lemma strconv_Atoi_unsigned (c : ascii) (r : string) :
  Ascii.eqb c "-" = false -> Ascii.eqb c "+" = false ->
  strconv_Atoi (String c r)
  = match digits (String c r) with
    | Some n => if (- 2 ^ 63 <=? n) && (n <? 2 ^ 63) then Some n else None
    | None => None
    end.
Proof.
  intros Hm Hp. unfold strconv_Atoi.
  destruct c as [b0 b1 b2 b3 b4 b5 b6 b7].
  destruct b0, b1, b2, b3, b4, b5, b6, b7; try reflexivity; discriminate.
Qed.

Lemma strconv_Atoi_digits (s : string) (n : Z) :
  digits s = Some n -> n < 2 ^ 63 -> strconv_Atoi s = Some n.
Proof.
  intros Hd Hn. pose proof (digits_nonneg s n Hd) as H0.
  destruct s as [|c r]; [discriminate|].
  assert (isDigit c = true) as Hc.
  { cbn in Hd. destruct (isDigit c); [done | discriminate]. }
  rewrite strconv_Atoi_unsigned.
  - rewrite Hd.
    destruct (Z.leb_spec (- 2 ^ 63) n); [|lia]. destruct (Z.ltb_spec n (2 ^ 63)); [done | lia].
  - destruct (Ascii.eqb_spec c "-"); [subst; discriminate | done].
  - destruct (Ascii.eqb_spec c "+"); [subst; discriminate | done].
Qed.

Lemma parseOctet_digits (f : string) (v : Z) : parseOctet f = Some v -> digits f = Some v.
Proof.
  unfold parseOctet. destruct (String.prefix "0" f && negb (String.eqb f "0")); [done|].
  destruct (digits f) as [x|]; [|done]. destruct (x <=? 255); [by intros [= ->] | done].
Qed.

Lemma firstSep_noChar (s : string) (c : ascii) :
  firstSep s = Some c -> noChar c s = false.
Proof.
  induction s as [|x s IH]; cbn; [done|].
  destruct (Ascii.eqb x "." || Ascii.eqb x ":" || Ascii.eqb x "%") eqn:Hx.
  - intros [= <-]. by rewrite Ascii.eqb_refl.
  - intros Hs. rewrite (IH Hs). apply andb_false_r.
Qed.

Section NodeIPs.
Context `{GoLib}.

Lemma strings_Split_quad (a b c d : Z) :
  isByte a -> isByte b -> isByte c -> isByte d ->
  strings_Split (IP_String [a; b; c; d]) "." = [fmt_d a; fmt_d b; fmt_d c; fmt_d d].
Proof.
  intros Ha Hb Hc Hd. rewrite IP_String_v4.
  destruct (octetText a Ha) as [Da _]. destruct (octetText b Hb) as [Db _].
  destruct (octetText c Hc) as [Dc _]. destruct (octetText d Hd) as [Dd _].
  rewrite !strings_Split_app by (by apply allDigits_noChar).
  rewrite strings_Split_nosep by (by apply allDigits_noChar). done.
Qed.

Lemma nodeOctet_quad (T : string) (a b c d : Z) :
  isByte a -> isByte b -> isByte c -> isByte d ->
  T = "InternalIP" \/ T = "ExternalIP" ->
  nodeOctet {| Addr_Type := T; Addr_Address := IP_String [a; b; c; d] |} = Some d.
Proof.
  intros Ha Hb Hc Hd HT. unfold nodeOctet. cbn [Addr_Type Addr_Address].
  assert (String.eqb T "InternalIP" || String.eqb T "ExternalIP" = true) as ->.
  { destruct HT as [-> | ->]; reflexivity. }
  rewrite ParseIP_String by done. rewrite strings_Split_quad by done.
  destruct (octetText d Hd) as [_ Pd]. apply parseOctet_digits in Pd.
  apply strconv_Atoi_digits; [done|]. unfold isByte in Hd. lia.
Qed.

Lemma nodeOctet_inv (addr : NodeAddress) (z : Z) :
  nodeOctet addr = Some z ->
  (Addr_Type addr = "InternalIP" \/ Addr_Type addr = "ExternalIP")
  /\ is_Some (ParseIP (Addr_Address addr))
  /\ (noChar ":" (Addr_Address addr) = true ->
      isByte z /\ exists a b c, parseIPv4 (Addr_Address addr) = Some [a; b; c; z]).
Proof.
  unfold nodeOctet.
  destruct (String.eqb (Addr_Type addr) "InternalIP") eqn:Hi;
    [|destruct (String.eqb (Addr_Type addr) "ExternalIP") eqn:He; [|done]]; cbn [orb].
  all: destruct (ParseIP (Addr_Address addr)) as [ip|] eqn:Hp; [|done]; cbn [mbind option_bind].
  all: destruct (To4 ip) as [ip4|]; [|done].
  all: destruct (strings_Split (Addr_Address addr) ".") as [|f0 [|f1 [|f2 [|f3 [|]]]]] eqn:Hs;
    try done.
  all: intros Hat.
  all: split; [first [left; by apply String.eqb_eq | right; by apply String.eqb_eq]|].
  all: split; [done|].
  all: intros Hnc; unfold ParseIP, ParseAddr in Hp.
  all: destruct (firstSep (Addr_Address addr)) as [sep|] eqn:Hf; [|done].
  all: destruct (Ascii.eqb sep ".") eqn:Hdot;
    [|destruct (Ascii.eqb_spec sep ":") as [->|];
      [apply firstSep_noChar in Hf; congruence | done]].
  all: unfold parseIPv4 in *; rewrite Hs in *.
  all: destruct (parseOctet f0) as [a|]; [|done].
  all: destruct (parseOctet f1) as [b|]; [|done].
  all: destruct (parseOctet f2) as [c|]; [|done].
  all: destruct (parseOctet f3) as [d|] eqn:P3; [|done].
  all: pose proof (parseOctet_byte _ _ P3) as Bd.
  all: apply parseOctet_digits in P3.
  all: rewrite (strconv_Atoi_digits f3 d P3 ltac:(unfold isByte in Bd; lia)) in Hat.
  all: injection Hat as <-.
  all: split; [done|]; by exists a, b, c.
Qed.

(** X5.  getNodeIPs (metallb.go): the last octet of every dotted-quad address
    of type InternalIP or ExternalIP is recorded; every recorded octet
    comes from an address of one of these two types that [net.ParseIP]
    accepts, and when the address has no colon it is the fourth field of a
    valid dotted quad, so it lies between 0 and 255. *)
Theorem getNodeIPs_octets (nodes : list (list NodeAddress)) :
  exists ips,
    getNodeIPs (NodeList nodes) = Ok ips
    /\ (forall addrs T a b c d,
          addrs ∈ nodes ->
          {| Addr_Type := T; Addr_Address := IP_String [a; b; c; d] |} ∈ addrs ->
          T = "InternalIP" \/ T = "ExternalIP" ->
          isByte a -> isByte b -> isByte c -> isByte d ->
          d ∈ ips)
    /\ (forall z,
          z ∈ ips ->
          exists addrs addr,
            addrs ∈ nodes /\ addr ∈ addrs
            /\ (Addr_Type addr = "InternalIP" \/ Addr_Type addr = "ExternalIP")
            /\ is_Some (ParseIP (Addr_Address addr))
            /\ (noChar ":" (Addr_Address addr) = true ->
                0 <= z <= 255
                /\ exists a b c, parseIPv4 (Addr_Address addr) = Some [a; b; c; z])).
Proof.
  eexists. split; [reflexivity|]. split.
  - intros addrs T a b c d Hn Ha HT Ba Bb Bc Bd.
    apply elem_of_list_to_set, list_elem_of_omap.
    exists {| Addr_Type := T; Addr_Address := IP_String [a; b; c; d] |}.
    split; [|by apply nodeOctet_quad].
    apply list_elem_of_In, in_concat. exists addrs.
    split; by apply list_elem_of_In.
  - intros z Hz. apply elem_of_list_to_set, list_elem_of_omap in Hz as (addr & Hin & Ho).
    apply list_elem_of_In, in_concat in Hin as (addrs & Hn & Ha).
    apply list_elem_of_In in Hn, Ha.
    exists addrs, addr. split; [done|]. split; [done|].
    destruct (nodeOctet_inv addr z Ho) as (HT & HP & Hq).
    split; [done|]. split; [done|].
    intros Hnc. destruct (Hq Hnc) as [Bz Hex]. split; [|done]. unfold isByte in Bz. lia.
Qed.

(** X6.  generateMetalLBIPRange (metallb.go): when the nodes cannot be listed
    the range is generated as for a cluster without nodes, and the failure
    is only logged as a warning, first in the log. *)
Theorem generateMetalLBIPRange_nodes_fail (mm : MetalLBManager)
    (clusterName minikubeIP : string) (clusterNumber totalClusters : Z) (err : string) :
  let failing :=
    generateMetalLBIPRange mm clusterName minikubeIP clusterNumber totalClusters
      (NodesFail err) in
  let empty :=
    generateMetalLBIPRange mm clusterName minikubeIP clusterNumber totalClusters
      (NodeList []) in
  fst failing = fst empty
  /\ ((3 <= length (strings_Split minikubeIP "."))%nat ->
      snd failing
      = ("failed to get node IPs, continuing without overlap check: failed to list nodes: "
         +:+ err) :: snd empty)
  /\ ((length (strings_Split minikubeIP ".") < 3)%nat ->
      failing = (Err (invalidIPFormat minikubeIP), [])).
Proof.
  cbv zeta. unfold generateMetalLBIPRange.
  destruct (ipPrefixOf minikubeIP) as [ipPrefix|] eqn:Hp.
  - assert (3 <= length (strings_Split minikubeIP "."))%nat as Hlen
      by (apply ipPrefixOf_is_Some; by eexists).
    assert (combinedNodeIPsOf mm (NodesFail err) = combinedNodeIPsOf mm (NodeList []))
      as -> by reflexivity.
    change (currentNodeIPsOf (NodesFail err))
      with ((∅ : gset Z),
            ["failed to get node IPs, continuing without overlap check: "
             +:+ ("failed to list nodes: " +:+ err)]).
    change (currentNodeIPsOf (NodeList [])) with ((∅ : gset Z), @nil string).
    cbv iota beta.
    destruct (totalClusters >? maxClusters mm).
    + split; [done|]. split; [done | lia].
    + destruct (candidateWindow mm clusterNumber) as [s0 e0].
      destruct (if bool_decide (rangeKey ipPrefix s0 e0 ∈ usedRanges mm)
                then findNextAvailableRange mm s0 e0 ipsPerCluster
                       (combinedNodeIPsOf mm (NodeList [])) ipPrefix
                else ((s0, e0), [])) as [[s1 e1] w2].
      destruct (adjustRangeForNodeIPs mm s1 e1 (combinedNodeIPsOf mm (NodeList [])) ipPrefix)
        as [[s2 e2] w3].
      split; [done|]. split; [done | lia].
  - assert (~ (3 <= length (strings_Split minikubeIP "."))%nat) as Hlen.
    { intros Hl. apply ipPrefixOf_is_Some in Hl as [x Hx]. congruence. }
    split; [done|]. split; [lia | done].
Qed.
End NodeIPs.

(** ** The ledger and the tracking *)

Lemma upsert_elem (allocs : list MetalLBAllocation) (a : MetalLBAllocation) :
  a ∈ upsert allocs a.
Proof.
  induction allocs as [|x allocs IH]; cbn; [apply list_elem_of_here|].
  destruct (String.eqb (ClusterName x) (ClusterName a));
    [apply list_elem_of_here | by apply list_elem_of_further].
Qed.

Lemma upsert_others (allocs : list MetalLBAllocation) (a : MetalLBAllocation) :
  filter (fun x => ClusterName x ≠ ClusterName a) (upsert allocs a)
  = filter (fun x => ClusterName x ≠ ClusterName a) allocs.
Proof.
  induction allocs as [|x allocs IH]; cbn [upsert].
  - rewrite filter_cons_False by (intros Hne; by apply Hne). done.
  - destruct (String.eqb_spec (ClusterName x) (ClusterName a)) as [Heq|Hne].
    + rewrite !filter_cons_False by (intros Hne; by apply Hne). done.
    + rewrite !filter_cons_True by done. by rewrite IH.
Qed.

Lemma upsert_length (allocs : list MetalLBAllocation) (a : MetalLBAllocation) :
  length (upsert allocs a)
  = if bool_decide (ClusterName a ∈ ClusterName <$> allocs)
    then length allocs else S (length allocs).
Proof.
  induction allocs as [|x allocs IH]; cbn; [done|].
  destruct (String.eqb_spec (ClusterName x) (ClusterName a)) as [Heq|Hne].
  - rewrite bool_decide_eq_true_2; [done|]. rewrite Heq. apply list_elem_of_here.
  - cbn. rewrite IH.
    destruct (bool_decide (ClusterName a ∈ ClusterName <$> allocs)) eqn:Hd.
    + apply bool_decide_eq_true in Hd.
      rewrite bool_decide_eq_true_2; [done | by apply list_elem_of_further].
    + apply bool_decide_eq_false in Hd.
      rewrite bool_decide_eq_false_2; [done|].
      intros [Hh|Ht]%elem_of_cons; congruence.
Qed.

Lemma upsert_names (allocs : list MetalLBAllocation) (a : MetalLBAllocation) (n : string) :
  n ∈ ClusterName <$> upsert allocs a <-> n = ClusterName a \/ n ∈ ClusterName <$> allocs.
Proof.
  induction allocs as [|x allocs IH]; cbn.
  - rewrite list_elem_of_singleton. split; [by left|]. intros [->|Hn]; [done|].
    by apply elem_of_nil in Hn.
  - destruct (String.eqb_spec (ClusterName x) (ClusterName a)) as [Heq|Hne]; cbn.
    + rewrite !elem_of_cons, Heq. tauto.
    + rewrite !elem_of_cons, IH. tauto.
Qed.

Lemma upsert_NoDup (allocs : list MetalLBAllocation) (a : MetalLBAllocation) :
  NoDup (ClusterName <$> allocs) -> NoDup (ClusterName <$> upsert allocs a).
Proof.
  induction allocs as [|x allocs IH]; cbn; intros Hnd.
  - apply NoDup_singleton.
  - apply NoDup_cons in Hnd as [Hx Hnd].
    destruct (String.eqb_spec (ClusterName x) (ClusterName a)) as [Heq|Hne]; cbn.
    + apply NoDup_cons. split; [by rewrite <- Heq | done].
    + apply NoDup_cons. split; [|by apply IH].
      rewrite upsert_names. intros [Hn|Hn]; congruence.
Qed.

Lemma LoadConfig_other (fs : gmap string ConfigFile) (project q : string)
    (config : ProjectConfig) :
  q <> project ->
  LoadConfig {| files := <[project := Stored config]> fs; writeError := None |} q
  = LoadConfig {| files := fs; writeError := None |} q.
Proof.
  intros Hq. unfold LoadConfig. cbn [files]. by rewrite lookup_insert_ne.
Qed.


(** X8.  SaveAllocation (metallb.go): after a successful save the ledger of
    the project holds the allocation, the entries of the other clusters
    are kept in their order, the ledger grows by one entry exactly when
    the cluster had none, and a ledger with one entry per cluster name
    stays so. *)
Theorem SaveAllocation_ledger (cm cm' : ConfigStore) (mm mm' : MetalLBManager)
    (project : string) (allocation : MetalLBAllocation) :
  SaveAllocation cm mm project allocation = (None, cm', mm') ->
  allocation ∈ ledger cm' project
  /\ filter (fun x => ClusterName x ≠ ClusterName allocation) (ledger cm' project)
     = filter (fun x => ClusterName x ≠ ClusterName allocation) (ledger cm project)
  /\ length (ledger cm' project)
     = (if bool_decide (ClusterName allocation ∈ ClusterName <$> ledger cm project)
        then length (ledger cm project) else S (length (ledger cm project)))
  /\ (NoDup (ClusterName <$> ledger cm project) ->
      NoDup (ClusterName <$> ledger cm' project)).
Proof.
  intros Hs. apply SaveAllocation_Ok in Hs as (_ & -> & _).
  split; [apply upsert_elem|]. split; [apply upsert_others|].
  split; [apply upsert_length | apply upsert_NoDup].
Qed.

(** Saving demo-1 into an empty ledger records it as the only entry. *)
Lemma SaveAllocation_ledger_witness :
  allocA ∈ ledger storeS "demo" /\ length (ledger storeS "demo") = 1%nat.
Proof.
  assert (SaveAllocation emptyStore mm0 "demo" allocA = (None, storeS, mmS)) as Hs
    by reflexivity.
  destruct (SaveAllocation_ledger emptyStore storeS mm0 mmS "demo" allocA Hs)
    as (H1 & _ & H3 & _).
  split; [exact H1 | exact H3].
Defined.

Lemma fold_track_window (allocs : list MetalLBAllocation) (mm : MetalLBManager) :
  minOctetRange (fold_left track allocs mm) = minOctetRange mm
  /\ maxOctetRange (fold_left track allocs mm) = maxOctetRange mm.
Proof.
  revert mm. induction allocs as [|a allocs IH]; intros mm; cbn; [done|].
  destruct (IH (track mm a)) as [-> ->]. done.
Qed.

(** X9.  InitializeTracking (metallb.go): a failed load returns the error and
    leaves the tracking as it was; a successful one forgets the previous
    tracking, keeps the octet window, and leaves exactly the range keys and
    node IPs of the ledger; initialising again changes nothing. *)
Theorem InitializeTracking_idempotent (cm : ConfigStore) (mm : MetalLBManager)
    (project : string) :
  let '(r, mm') := InitializeTracking cm mm project in
  InitializeTracking cm mm' project = (r, mm')
  /\ (forall e, LoadConfig cm project = Err e ->
        r = Some ("failed to load project config: " +:+ e) /\ mm' = mm)
  /\ ((forall e, LoadConfig cm project <> Err e) ->
      r = None
      /\ InitializeTracking cm (clearTracking mm) project = (None, mm')
      /\ (forall key, key ∈ usedRanges mm'
                      <-> exists alloc, alloc ∈ ledger cm project /\ keyOf alloc = key)
      /\ (forall octet, octet ∈ allNodeIPs mm'
                        <-> exists alloc, alloc ∈ ledger cm project
                                          /\ octet ∈ NodeIPs alloc))
  /\ minOctetRange mm' = minOctetRange mm /\ maxOctetRange mm' = maxOctetRange mm.
Proof.
  unfold InitializeTracking at 1.
  destruct (LoadConfig cm project) as [loaded|e0] eqn:HL.
  - set (allocs := default [] (MetalLBAllocations <$> loaded)).
    destruct (fold_track_window allocs (clearTracking mm)) as [Hmin Hmax].
    cbn [clearTracking NewMetalLBManagerWithOptions minOctetRange maxOctetRange] in Hmin, Hmax.
    assert (clearTracking (fold_left track allocs (clearTracking mm)) = clearTracking mm)
      as Hclear by (unfold clearTracking at 1 3; by rewrite Hmin, Hmax).
    assert (ledger cm project = allocs) as Hled.
    { unfold ledger, allocs. rewrite HL. by destruct loaded. }
    split; [unfold InitializeTracking; rewrite HL; fold allocs; by rewrite Hclear|].
    split; [done|].
    split; [|done].
    intros _. split; [done|].
    split; [unfold InitializeTracking; rewrite HL; fold allocs; done|].
    rewrite Hled. split.
    + intros key. rewrite fold_track_usedRanges. unfold keysOf, clearTracking. cbn.
      rewrite elem_of_union, elem_of_list_to_set, list_elem_of_fmap. set_solver.
    + intros octet. rewrite fold_track_allNodeIPs. unfold nodesOf, clearTracking. cbn.
      rewrite elem_of_union, elem_of_list_to_set, list_elem_of_In, in_concat.
      split.
      * intros [(l & Hl & Ho)|Hemp]; [|set_solver].
        apply list_elem_of_In, list_elem_of_fmap in Hl as (alloc & -> & Ha).
        exists alloc. split; [done | by apply list_elem_of_In].
      * intros (alloc & Ha & Ho). left. exists (NodeIPs alloc).
        split; [apply list_elem_of_In, list_elem_of_fmap; by exists alloc
               | by apply list_elem_of_In].
  - split; [unfold InitializeTracking; by rewrite HL|].
    split; [by intros e [= ->]|]. split; [|done].
    intros Hno. by destruct (Hno e0).
Qed.




Lemma track_grows (mm : MetalLBManager) (allocation : MetalLBAllocation) :
  minOctetRange (track mm allocation) = minOctetRange mm
  /\ maxOctetRange (track mm allocation) = maxOctetRange mm
  /\ usedRanges mm ⊆ usedRanges (track mm allocation)
  /\ allNodeIPs mm ⊆ allNodeIPs (track mm allocation)
  /\ keyOf allocation ∈ usedRanges (track mm allocation).
Proof. unfold track, keyOf. cbn. repeat split; set_solver. Qed.

Section ConfigureProps.
Context `{GoLib}.


(** X11.  ConfigureMetalLB (metallb.go): after a success that logged no save
    failure, for a named project, the ledger holds an allocation of the
    cluster whose range is the one applied to the cluster, and the range
    key is tracked. *)
Theorem ConfigureMetalLB_recorded (cm cm' : ConfigStore) (mm mm' : MetalLBManager)
    (api : ClusterAPI) (clusterName minikubeIp : string) (clusterNumber totalClusters : Z)
    (project : string) (w : list string) :
  ConfigureMetalLB cm mm api clusterName minikubeIp clusterNumber totalClusters project
  = (None, w, cm', mm') ->
  project <> "" ->
  (forall e, "failed to save MetalLB allocation to config: " +:+ e ∉ w) ->
  exists allocation,
    allocation ∈ ledger cm' project
    /\ ClusterName allocation = clusterName
    /\ ipPrefixOf minikubeIp = Some (IPPrefix allocation)
    /\ IPRange allocation
       = rangeString (IPPrefix allocation) (StartOctet allocation) (EndOctet allocation)
    /\ applyManifest api (ipPool (IPRange allocation)) = None
    /\ mm' = track mm allocation
    /\ keyOf allocation ∈ usedRanges mm'.
Proof.
  unfold ConfigureMetalLB. intros Hc Hp Hw.
  destruct (newClientManager api) as [clientManager|e0]; [|done].
  destruct (generateMetalLBIPRange mm clusterName minikubeIp clusterNumber totalClusters
              clientManager) as [[[ipRange allocation]|e1] w0] eqn:Hg; [|done].
  destruct (applyManifest api (ipPool ipRange)) as [e2|] eqn:Ha; [done|].
  destruct (String.eqb_spec project "") as [->|_]; [done|]. cbn [negb] in Hc.
  destruct (SaveAllocation cm mm project allocation) as [[[e3|] cm1] mm1] eqn:Hs.
  - injection Hc as <- <- <-. exfalso. apply (Hw e3).
    apply elem_of_app. right. apply list_elem_of_here.
  - injection Hc as <- <- <-.
    apply generateMetalLBIPRange_Ok in Hg as (Hpre & Hr & Hir & Hn & _).
    apply SaveAllocation_Ok in Hs as (-> & Hled & _).
    exists allocation. split; [rewrite Hled; apply upsert_elem|].
    split; [done|]. split; [done|]. split; [congruence|].
    split; [by rewrite Hir|]. split; [done|]. apply track_grows.
Qed.

End ConfigureProps.

(** The first cluster of the two-cluster scenario: its allocation is in
    the ledger afterwards. *)
Lemma ConfigureMetalLB_recorded_witness :
  exists allocation,
    allocation ∈ ledger store1 "demo"
    /\ ClusterName allocation = "demo-1"
    /\ keyOf allocation ∈ usedRanges mm1.
Proof.
  assert (@ConfigureMetalLB goLib4 emptyStore mm0 (healthy "192.168.102.50")
            "demo-1" "192.168.102.50" 1 2 "demo" = (None, [], store1, mm1)) as Hc
    by (vm_compute; reflexivity).
  destruct (@ConfigureMetalLB_recorded goLib4 emptyStore store1 mm0 mm1
              (healthy "192.168.102.50") "demo-1" "192.168.102.50" 1 2 "demo" [] Hc
              ltac:(discriminate) ltac:(intros e; apply not_elem_of_nil))
    as (allocation & H1 & H2 & _ & _ & _ & _ & H7).
  exists allocation. split; [exact H1|]. split; [exact H2 | exact H7].
Defined.


(* ================================================================== *)
(** * Further properties: the prober and the search (part_001) *)
(* ================================================================== *)

(** ** The search, for every start *)

Section SearchAny.
Context `{GoLib}.

(** X13.  FindFreeLibvirtSubnet (part_001): for every start, IPv4 or not, a
    returned subnet is one of the candidates within the try budget, it
    parses as a CIDR, it was not reported as overlapping while every
    candidate before it was, and when libvirt listed its networks it
    overlaps none of those the prober can read. *)
Theorem FindFreeLibvirtSubnet_sound (lv : Libvirt) (start : string) (step tries : Z)
    (c : string) :
  FindFreeLibvirtSubnet lv start step tries = Ok c ->
  0 < tries
  /\ exists i ipNet,
       (i < Z.to_nat tries)%nat /\ candidate step start i = Some c
       /\ ParseCIDR c = Some ipNet
       /\ reportsOverlap lv c = false
       /\ (forall j, (j < i)%nat ->
             exists c', candidate step start j = Some c' /\ reportsOverlap lv c' = true)
       /\ (forall nets elems ipElem existing,
             lv = Networks nets -> Some elems ∈ nets -> ipElem ∈ elems ->
             readsAs ipElem existing ->
             Contains existing (IP ipNet) = false /\ Contains ipNet (IP existing) = false).
Proof.
  unfold FindFreeLibvirtSubnet. intros Hf.
  destruct (findFree_loop_Ok _ _ _ _ _ _ _ Hf) as (i & ipNet & Hi & Hc & Hp & Hr & Hb).
  split; [lia|]. exists i, ipNet. split; [done|]. split; [done|]. split; [done|].
  split; [done|]. split; [done|].
  intros nets elems ipElem existing -> Hn He Hx%existingNet_Some.
  unfold reportsOverlap in Hr. rewrite Hp in Hr. cbn [checkLibvirtSubnetOverlap] in Hr.
  destruct (checkNets ipNet nets) as [err|] eqn:Hck.
  - destruct (checkNets_Some _ _ _ Hck) as (? & ? & ex & _ & _ & _ & _ & ->).
    by rewrite overlapError_overlaps in Hr.
  - pose proof (checkNets_None _ _ Hck elems ipElem existing Hn He Hx) as Hno.
    unfold netsOverlap in Hno. by apply orb_false_iff in Hno.
Qed.

End SearchAny.

(** The search from 10.250.0.0/16 in steps of 8, three tries, with the
    network 10.250.0.0/16 defined: 10.2.0.0/16 is returned. *)
Lemma FindFreeLibvirtSubnet_sound_witness :
  exists i ipNet,
    (i < 3)%nat /\ @candidate goLib4 8 "10.250.0.0/16" i = Some "10.2.0.0/16"
    /\ @ParseCIDR goLib4 "10.2.0.0/16" = Some ipNet
    /\ @reportsOverlap goLib4 lvDemo "10.2.0.0/16" = false.
Proof.
  destruct (@FindFreeLibvirtSubnet_sound goLib4 lvDemo "10.250.0.0/16" 8 3 "10.2.0.0/16"
              ltac:(vm_compute; reflexivity))
    as (_ & i & ipNet & H1 & H2 & H3 & H4 & _).
  exists i, ipNet. split; [exact H1|]. split; [exact H2|]. split; [exact H3 | exact H4].
Defined.

Lemma CIDRMask_wide (p : Z) :
  0 <= p <= 8 -> exists m0, CIDRMask p 32 = [m0; 0; 0; 0].
Proof.
  intros Hp.
  assert (p = 0 \/ p = 1 \/ p = 2 \/ p = 3 \/ p = 4 \/ p = 5 \/ p = 6 \/ p = 7 \/ p = 8)
    as Hcases by lia.
  repeat (destruct Hcases as [->|Hcases]; [eexists; reflexivity|]).
  subst. eexists; reflexivity.
Qed.

Section Stall.
Context `{GoLib}.

Lemma nextSubnet_Ok_text (step : Z) (x y next : string) (ipNet : IPNet) :
  nextSubnet step x ipNet = Ok next -> nextSubnet step y ipNet = Ok next.
Proof.
  unfold nextSubnet. destruct (IPMask_Size (Mask ipNet)) as [prefix bits].
  by destruct (ParseIP (IP_String (IP ipNet)) ≫= To4).
Qed.

Lemma findFree_loop_stall (lv : Libvirt) (start : string) (step tries : Z)
    (ipNet : IPNet) (err x next : string) :
  ParseCIDR x = Some ipNet ->
  checkLibvirtSubnetOverlap lv ipNet = Some err ->
  strings_Contains err "overlaps" = true ->
  nextSubnet step x ipNet = Ok next ->
  ParseCIDR next = Some ipNet ->
  forall fuel, findFree_loop lv start step tries fuel x = Err (noFreeSubnet tries start).
Proof.
  intros Hp Hc Ho Hn Hp'.
  assert (forall fuel,
             findFree_loop lv start step tries fuel next = Err (noFreeSubnet tries start))
    as Hnext.
  { induction fuel as [|fuel IH]; cbn [findFree_loop]; [done|].
    by rewrite Hp', Hc, Ho, (nextSubnet_Ok_text step x next next ipNet Hn). }
  intros [|fuel]; cbn [findFree_loop]; [done|]. by rewrite Hp, Hc, Ho, Hn.
Qed.

(** X14.  FindFreeLibvirtSubnet (part_001): the step is added to the network
    address and the result is parsed again under the same mask, so for an
    IPv4 start of prefix length 8 or less, whose mask leaves the stepped
    octet to the hosts, every candidate denotes the network of the start:
    when the start is reported as overlapping, the search fails with the
    no-free-subnet error for every step and every budget. *)
Theorem FindFreeLibvirtSubnet_wide_prefix (lv : Libvirt) (start : string)
    (step tries : Z) (ipNet : IPNet) :
  ParseCIDR start = Some ipNet ->
  length (IP ipNet) = 4%nat ->
  prefixOf ipNet <= 8 ->
  reportsOverlap lv start = true ->
  FindFreeLibvirtSubnet lv start step tries = Err (noFreeSubnet tries start)
  /\ forall i c, candidate step start i = Some c -> ParseCIDR c = Some ipNet.
Proof.
  intros Hp Hlen Hpre Hr.
  destruct (ParseCIDR_v4_inv _ _ Hp Hlen)
    as (a & b & c & d & p & Ha & Hb & Hc & Hd & Hp32 & ->).
  destruct (cidr4_shape a b c d p Ha Hb Hc Hd Hp32)
    as (n0 & n1 & n2 & n3 & Hip & H0 & H1 & H2 & H3 & Hpp).
  rewrite Hpp in Hpre.
  destruct (CIDRMask_wide p ltac:(lia)) as [m0 Hm].
  assert (cidr4 a b c d p = {| IP := [Z.land a m0; 0; 0; 0]; Mask := [m0; 0; 0; 0] |})
    as Hnet.
  { unfold cidr4. rewrite Hm. cbn [zip_with]. by rewrite !Z.land_0_r. }
  destruct (nextSubnet_v4 step start _ Hp Hlen) as [Hn _]. cbv zeta in Hn.
  rewrite Hpp in Hn. rewrite Hnet in Hn at 2. cbn [IP] in Hn.
  assert (isByte (Z.land a m0)) as Hb0.
  { rewrite Hnet in Hip. cbn [IP] in Hip. by injection Hip as <- _ _ _. }
  assert (advance p step [Z.land a m0; 0; 0; 0] = [Z.land a m0; step `mod` 256; 0; 0])
    as Hadv.
  { unfold advance. destruct (Z.leb_spec p 16); [done | lia]. }
  rewrite Hadv in Hn.
  assert (isByte (step `mod` 256)) as Hbs by (unfold isByte; apply Z.mod_pos_bound; lia).
  assert (ParseCIDR (IP_String [Z.land a m0; step `mod` 256; 0; 0] +:+ "/" +:+ fmt_d p)
          = Some (cidr4 a b c d p)) as Hp'.
  { rewrite ParseCIDR_String by (done || (unfold isByte; lia)).
    f_equal. rewrite Hnet. unfold cidr4. rewrite Hm. cbn [zip_with].
    rewrite !Z.land_0_r, <- Z.land_assoc, Z.land_diag. done. }
  unfold reportsOverlap in Hr. rewrite Hp in Hr.
  destruct (checkLibvirtSubnetOverlap lv (cidr4 a b c d p)) as [err|] eqn:Hck; [|done].
  split.
  - unfold FindFreeLibvirtSubnet. by eapply findFree_loop_stall.
  - intros i. induction i as [|i IH]; cbn [candidate].
    + by intros x [= <-].
    + intros x. destruct (candidate step start i) as [cur|]; [|done].
      rewrite (IH cur eq_refl).
      rewrite (nextSubnet_Ok_text step start cur _ _ Hn). by intros [= <-].
Qed.
End Stall.

(** With the network 10.0.0.1/8 defined in libvirt, the search from
    10.0.0.0/8 fails after its 50 tries. *)
Lemma FindFreeLibvirtSubnet_wide_prefix_witness :
  @FindFreeLibvirtSubnet goLib4
    (Networks [Some [ {| Address := "10.0.0.1"; Elem_Prefix := "8"; Elem_Netmask := "" |} ]])
    "10.0.0.0/8" 1 50
  = Err (noFreeSubnet 50 "10.0.0.0/8").
Proof.
  exact (proj1 (@FindFreeLibvirtSubnet_wide_prefix goLib4
                  (Networks [Some [ {| Address := "10.0.0.1"; Elem_Prefix := "8";
                                       Elem_Netmask := "" |} ]])
                  "10.0.0.0/8" 1 50 {| IP := [10; 0; 0; 0]; Mask := [255; 0; 0; 0] |}
                  ltac:(vm_compute; reflexivity) eq_refl
                  ltac:(vm_compute; discriminate) ltac:(vm_compute; reflexivity))).
Defined.

Section ProberMore.
Context `{GoLib}.

Lemma checkNets_app (ipNet : IPNet) (nets1 nets2 : list (option (list libvirtIPElement))) :
  checkNets ipNet (nets1 ++ nets2)
  = match checkNets ipNet nets1 with
    | Some e => Some e
    | None => checkNets ipNet nets2
    end.
Proof.
  induction nets1 as [|net nets1 IH]; cbn [checkNets app]; [done|].
  by destruct (checkElems ipNet (default [] net)).
Qed.

Lemma checkNets_free_iff (ipNet : IPNet) (nets : list (option (list libvirtIPElement))) :
  checkNets ipNet nets = None
  <-> forall elems ipElem existing,
        Some elems ∈ nets -> ipElem ∈ elems -> existingNet ipElem = Some existing ->
        netsOverlap ipNet existing = false.
Proof.
  split; [apply checkNets_None|].
  intros Hall. destruct (checkNets ipNet nets) as [e|] eqn:Hc; [|done].
  destruct (checkNets_Some _ _ _ Hc) as (elems & ipElem & existing & Hn & He & Hx & Ho & _).
  rewrite (Hall elems ipElem existing Hn He Hx) in Ho. done.
Qed.

(** X15.  checkLibvirtSubnetOverlap (part_001): over a list of networks the
    check reports the first overlap in list order; a network whose
    description cannot be read is skipped; and whether the subnet is free
    does not depend on the order of the networks. *)
Theorem checkLibvirtSubnetOverlap_networks (ipNet : IPNet)
    (nets1 nets2 : list (option (list libvirtIPElement))) :
  checkLibvirtSubnetOverlap (Networks (nets1 ++ nets2)) ipNet
  = match checkLibvirtSubnetOverlap (Networks nets1) ipNet with
    | Some e => Some e
    | None => checkLibvirtSubnetOverlap (Networks nets2) ipNet
    end
  /\ checkLibvirtSubnetOverlap (Networks (None :: nets1)) ipNet
     = checkLibvirtSubnetOverlap (Networks nets1) ipNet
  /\ (nets1 ≡ₚ nets2 ->
      (checkLibvirtSubnetOverlap (Networks nets1) ipNet = None
       <-> checkLibvirtSubnetOverlap (Networks nets2) ipNet = None))
  /\ (checkLibvirtSubnetOverlap (Networks (nets1 ++ nets2)) ipNet = None
      <-> checkLibvirtSubnetOverlap (Networks nets1) ipNet = None
          /\ checkLibvirtSubnetOverlap (Networks nets2) ipNet = None).
Proof.
  cbn [checkLibvirtSubnetOverlap]. split; [apply checkNets_app|]. split; [done|]. split.
  - intros Hperm. rewrite !checkNets_free_iff.
    split; intros Hall elems ipElem existing Hn; apply Hall;
      [by rewrite Hperm | by rewrite <- Hperm].
  - rewrite checkNets_app. destruct (checkNets ipNet nets1); [|tauto].
    split; [done | by intros [? _]].
Qed.

Lemma ParseCIDR_Contains_self (s : string) (n : IPNet) :
  ParseCIDR s = Some n -> Contains n (IP n) = true.
Proof.
  unfold ParseCIDR. destruct (cut s "/") as [[addr mask]|]; [|done].
  destruct (ParseAddr addr) as [[ip16 bitLen]|] eqn:Ha; [|done].
  destruct (dtoi mask) as [k|] eqn:Hk; [|done].
  destruct (Z.ltb_spec bitLen k) as [|Hle]; [done|]. intros [= <-].
  assert (0 <= k) as Hk0.
  { unfold dtoi in Hk. destruct (digits mask) as [v|] eqn:Hd; [|done].
    pose proof (digits_nonneg _ _ Hd). destruct (v <? 16777215); [|done].
    by injection Hk as <-. }
  unfold ParseAddr in Ha. destruct (firstSep addr) as [sep|]; [|done].
  destruct (Ascii.eqb sep ".").
  - destruct (parseIPv4 addr) as [[|a [|b [|c [|d [|]]]]]|]; try done.
    injection Ha as <- <-.
    rewrite IP_Mask_v4 by lia.
    destruct (CIDRMask_v4 k ltac:(lia)) as (m0 & m1 & m2 & m3 & -> & _).
    unfold Contains, networkNumberAndMask. cbn. by rewrite bool_decide_eq_true_2.
  - destruct (Ascii.eqb sep ":"); [|done].
    destruct (parseAddr6 addr) as [ip|] eqn:H6; [|done]. injection Ha as <- <-.
    pose proof (parseAddr6_length _ _ H6) as Hlen.
    assert (length (CIDRMask k 128) = 16%nat) as Hml.
    { unfold CIDRMask. cbn [Z.eqb negb orb].
      destruct (Z.ltb_spec k 0); [lia|]. destruct (Z.ltb_spec 128 k); [lia|]. cbn [orb].
      apply maskBytes_length. }
    pose proof (IP_Mask_length16 ip (CIDRMask k 128) Hlen Hml) as Hl.
    set (nip := IP_Mask ip (CIDRMask k 128)) in *. set (m := CIDRMask k 128) in *.
    unfold Contains, networkNumberAndMask. cbn [IP Mask].
    rewrite Hml, Hl. cbn [Nat.eqb].
    destruct (To4 nip) as [ip4|] eqn:H4.
    + assert (length ip4 = 4%nat) as Hl4.
      { unfold To4 in H4. rewrite Hl in H4. cbn [Nat.eqb andb] in H4.
        destruct (bool_decide (take 12 nip = v4InV6Prefix)); [|done].
        injection H4 as <-. rewrite length_drop. lia. }
      rewrite Hl4. cbn [Nat.eqb]. cbv [default from_option id]. cbv beta iota.
      rewrite Nat.eqb_refl. by rewrite bool_decide_eq_true_2.
    + cbv [default from_option id]. cbv beta iota. rewrite Hl. cbn [Nat.eqb].
      rewrite Hl. by rewrite bool_decide_eq_true_2.
Qed.

(** X16.  checkLibvirtSubnetOverlap (part_001): the subnet of a network that
    libvirt lists is never reported as free: asked about the network the
    prober reads from one of the listed IP elements, the check returns an
    overlap error. *)
Theorem checkLibvirtSubnetOverlap_existing
    (nets : list (option (list libvirtIPElement))) (elems : list libvirtIPElement)
    (ipElem : libvirtIPElement) (existing : IPNet) :
  Some elems ∈ nets -> ipElem ∈ elems -> readsAs ipElem existing ->
  exists other,
    checkLibvirtSubnetOverlap (Networks nets) existing
    = Some (overlapError existing other)
    /\ strings_Contains (overlapError existing other) "overlaps" = true.
Proof.
  intros Hn He Hx%existingNet_Some. cbn [checkLibvirtSubnetOverlap].
  assert (Contains existing (IP existing) = true) as Hself.
  { unfold existingNet in Hx. destruct (String.eqb (Address ipElem) ""); [done|].
    destruct (ParseIP (Address ipElem)); [|done].
    destruct (elemPrefixLen ipElem); [|done]. by eapply ParseCIDR_Contains_self. }
  destruct (checkNets existing nets) as [e|] eqn:Hc.
  - destruct (checkNets_Some _ _ _ Hc) as (? & ? & other & _ & _ & _ & _ & ->).
    exists other. split; [done | apply overlapError_overlaps].
  - pose proof (checkNets_None _ _ Hc elems ipElem existing Hn He Hx) as Hno.
    unfold netsOverlap in Hno. rewrite Hself in Hno. done.
Qed.
End ProberMore.

(** The network 10.250.0.0/16 of [lvDemo] is reported as overlapping. *)
Lemma checkLibvirtSubnetOverlap_existing_witness :
  exists other,
    @checkLibvirtSubnetOverlap goLib4 lvDemo net_10_250
    = Some (@overlapError goLib4 net_10_250 other).
Proof.
  destruct (@checkLibvirtSubnetOverlap_existing goLib4
              [Some [ {| Address := "10.250.0.1"; Elem_Prefix := "";
                         Elem_Netmask := "255.255.0.0" |} ]]
              [ {| Address := "10.250.0.1"; Elem_Prefix := ""; Elem_Netmask := "255.255.0.0" |} ]
              {| Address := "10.250.0.1"; Elem_Prefix := ""; Elem_Netmask := "255.255.0.0" |}
              net_10_250
              ltac:(apply list_elem_of_here) ltac:(apply list_elem_of_here)
              ltac:(apply existingNet_Some; vm_compute; reflexivity)) as (other & Ho & _).
  exists other. exact Ho.
Defined.

(* ================================================================== *)
(** * Further properties: the kind driver (manager.go) *)
(* ================================================================== *)

(** X17.  getAvailableRegistryPort (manager.go): port 5000 when it is
    available, else the lowest available port of 30000 to 65535; a
    returned port is available; and the error is returned exactly when
    neither 5000 nor any port of that range is available. *)
Theorem getAvailableRegistryPort_spec (isPortAvailable : Z -> bool) :
  (isPortAvailable 5000 = true -> getAvailableRegistryPort isPortAvailable = Ok 5000)
  /\ (forall port,
        isPortAvailable 5000 = false ->
        30000 <= port <= 65535 ->
        isPortAvailable port = true ->
        (forall q, 30000 <= q < port -> isPortAvailable q = false) ->
        getAvailableRegistryPort isPortAvailable = Ok port)
  /\ (forall port,
        getAvailableRegistryPort isPortAvailable = Ok port ->
        isPortAvailable port = true /\ (port = 5000 \/ 30000 <= port <= 65535))
  /\ (forall e,
        getAvailableRegistryPort isPortAvailable = Err e <->
        e = "no available ports found above 30000"
        /\ isPortAvailable 5000 = false
        /\ forall port, 30000 <= port <= 65535 -> isPortAvailable port = false).
Proof.
  unfold getAvailableRegistryPort, KindRegistryPort, registryPorts.
  split; [|split; [|split]].
  - by intros ->.
  - intros port -> Hr Ha Hb.
    rewrite (find_seqZ_first isPortAvailable _ 30000 port); [done | lia | done | done].
  - intros port. destruct (isPortAvailable 5000) eqn:H5.
    + intros [= <-]. split; [done | by left].
    + destruct (List.find isPortAvailable (seqZ 30000 (65535 - 30000 + 1))) as [p|] eqn:Hf;
        [|done].
      intros [= <-]. apply find_some in Hf as [Hin Hp].
      apply list_elem_of_In, elem_of_seqZ in Hin. split; [done | right; lia].
  - intros e. destruct (isPortAvailable 5000) eqn:H5.
    + split; [done | by intros (_ & ? & _)].
    + destruct (List.find isPortAvailable (seqZ 30000 (65535 - 30000 + 1))) as [p|] eqn:Hf.
      * split; [done|]. intros (_ & _ & Hall).
        apply find_some in Hf as [Hin Hp].
        apply list_elem_of_In, elem_of_seqZ in Hin. rewrite Hall in Hp by lia. done.
      * split.
        -- intros [= <-]. split; [done|]. split; [done|].
           intros port Hr. apply (proj1 (find_seqZ_none isPortAvailable 30000 _) Hf). lia.
        -- by intros (-> & _ & _).
Qed.

(** X18.  getRegion and getZone (manager.go): the zone of an index is always
    the zone "a" of its region; an index outside 0 to 3 gets the first
    region; the indexes 0 to 3 get four different regions. *)
Theorem getZone_getRegion (index : Z) :
  getZone index = getRegion index +:+ "-a"
  /\ (index < 0 \/ 4 <= index -> getRegion index = "us-east1")
  /\ (forall other,
        0 <= index < 4 -> 0 <= other < 4 -> getRegion index = getRegion other ->
        index = other).
Proof.
  assert (forall i, 0 <= i < 4 -> i = 0 \/ i = 1 \/ i = 2 \/ i = 3) as Hfour by lia.
  assert (forall i, i < 0 \/ 4 <= i -> getRegion i = "us-east1" /\ getZone i = "us-east1-a")
    as Hout.
  { intros i Hi. unfold getRegion, getZone. cbn [length]. change (Z.of_nat 4) with 4.
    destruct (Z.ltb_spec i 0); [split; reflexivity|].
    destruct (Z.geb_spec i 4); [split; reflexivity | lia]. }
  split; [|split].
  - destruct (Z_lt_le_dec index 0) as [Hneg|Hpos].
    { destruct (Hout index ltac:(lia)) as [-> ->]. reflexivity. }
    destruct (Z_lt_le_dec index 4) as [Hsmall|Hbig].
    + destruct (Hfour index ltac:(lia)) as [-> | [-> | [-> | ->]]]; reflexivity.
    + destruct (Hout index ltac:(lia)) as [-> ->]. reflexivity.
  - intros Hi. apply Hout, Hi.
  - intros other Hi Ho.
    destruct (Hfour index Hi) as [-> | [-> | [-> | ->]]];
      destruct (Hfour other Ho) as [-> | [-> | [-> | ->]]];
      cbn; intros Heq; first [reflexivity | discriminate Heq].
Qed.

(** X19.  validateLoadBalancerOptions (manager.go): on success exactly one of
    MetalLB and cloud-provider-kind is selected; the call fails exactly
    when both are requested off Darwin; on Darwin it never fails and
    always selects cloud-provider-kind; off Darwin a request for MetalLB
    alone is kept and no request selects cloud-provider-kind; and no other
    option is changed. *)
Theorem validateLoadBalancerOptions_spec (isDarwin : bool) (opts : Kind.CreateOptions) :
  let '(r, opts', w) := Kind.validateLoadBalancerOptions isDarwin opts in
  (r = None -> Kind.InstallMetalLB opts' = negb (Kind.InstallCloudProvider opts'))
  /\ (r <> None <->
      isDarwin = false /\ Kind.InstallMetalLB opts = true
      /\ Kind.InstallCloudProvider opts = true)
  /\ (isDarwin = true ->
      r = None /\ Kind.InstallMetalLB opts' = false
      /\ Kind.InstallCloudProvider opts' = true)
  /\ (isDarwin = false ->
      Kind.InstallMetalLB opts' = Kind.InstallMetalLB opts
      /\ Kind.InstallCloudProvider opts'
         = (Kind.InstallCloudProvider opts || negb (Kind.InstallMetalLB opts))
      /\ w = [])
  /\ Kind.Project opts' = Kind.Project opts
  /\ Kind.GatewayIP opts' = Kind.GatewayIP opts
  /\ Kind.SubnetCIDR opts' = Kind.SubnetCIDR opts
  /\ Kind.NumClusters opts' = Kind.NumClusters opts
  /\ Kind.NodeCount opts' = Kind.NodeCount opts
  /\ Kind.K8sVersion opts' = Kind.K8sVersion opts
  /\ Kind.CNI opts' = Kind.CNI opts
  /\ Kind.ContainerRuntime opts' = Kind.ContainerRuntime opts
  /\ Kind.PreferredContainerEngine opts' = Kind.PreferredContainerEngine opts
  /\ Kind.Recreate opts' = Kind.Recreate opts.
Proof.
  unfold Kind.validateLoadBalancerOptions.
  destruct opts as [p g s nc nn k mlb cp cni cr pce rc]. cbn.
  destruct mlb, cp, isDarwin; cbn; repeat split; try done; try (by intros (? & ? & ?)).
Qed.

(** ** Gateways and subnet parameters *)

Section GatewayProps.
Context `{GoLib}.

Lemma ParseCIDR_lengths (s : string) (n : IPNet) :
  ParseCIDR s = Some n ->
  (length (IP n) = 4%nat /\ length (Mask n) = 4%nat)
  \/ (length (IP n) = 16%nat /\ length (Mask n) = 16%nat).
Proof.
  unfold ParseCIDR. destruct (cut s "/") as [[addr mask]|]; [|done].
  destruct (ParseAddr addr) as [[ip16 bitLen]|] eqn:Ha; [|done].
  destruct (dtoi mask) as [k|] eqn:Hk; [|done].
  destruct (Z.ltb_spec bitLen k) as [|Hle]; [done|]. intros [= <-].
  assert (0 <= k) as Hk0.
  { unfold dtoi in Hk. destruct (digits mask) as [v|] eqn:Hd; [|done].
    pose proof (digits_nonneg _ _ Hd). destruct (v <? 16777215); [|done].
    by injection Hk as <-. }
  unfold ParseAddr in Ha. destruct (firstSep addr) as [sep|]; [|done].
  destruct (Ascii.eqb sep ".").
  - destruct (parseIPv4 addr) as [[|a [|b [|c [|d [|]]]]]|]; try done.
    injection Ha as <- <-. left. cbn [IP Mask].
    rewrite IP_Mask_v4 by lia.
    destruct (CIDRMask_v4 k ltac:(lia)) as (m0 & m1 & m2 & m3 & -> & _). done.
  - destruct (Ascii.eqb sep ":"); [|done].
    destruct (parseAddr6 addr) as [ip|] eqn:H6; [|done]. injection Ha as <- <-.
    pose proof (parseAddr6_length _ _ H6) as Hlen.
    assert (length (CIDRMask k 128) = 16%nat) as Hml.
    { unfold CIDRMask. cbn [Z.eqb negb orb].
      destruct (Z.ltb_spec k 0); [lia|]. destruct (Z.ltb_spec 128 k); [lia|]. cbn [orb].
      apply maskBytes_length. }
    right. cbn [IP Mask]. split; [by apply IP_Mask_length16 | done].
Qed.

Lemma To4_length (ip ip4 : list Z) : To4 ip = Some ip4 -> length ip4 = 4%nat.
Proof.
  unfold To4. destruct (length ip =? 4)%nat eqn:H4.
  - intros [= <-]. by apply Nat.eqb_eq.
  - destruct (length ip =? 16)%nat eqn:H16; [|done]. cbn [andb].
    destruct (bool_decide (take 12 ip = v4InV6Prefix)); [|done].
    intros [= <-]. apply Nat.eqb_eq in H16. rewrite length_drop. lia.
Qed.

Lemma calculateSubnetParameters_Some (n : IPNet) :
  (length (IP n) = 4%nat /\ length (Mask n) = 4%nat)
  \/ (length (IP n) = 16%nat /\ length (Mask n) = 16%nat) ->
  exists params,
    calculateSubnetParameters n = Some params
    /\ Gateway params = IP_String (incLast (default (IP n) (To4 (IP n))))
    /\ Params_IP params = IP_String (default (IP n) (To4 (IP n)))
    /\ CIDR params = IPNet_String n
    /\ IsPrivate params = isPrivateIP (default (IP n) (To4 (IP n)))
    /\ Prefix params = prefixOf n.
Proof.
  intros Hlen. unfold calculateSubnetParameters, prefixOf.
  destruct (IPMask_Size (Mask n)) as [ones bits].
  set (ip := default (IP n) (To4 (IP n))).
  assert ((length ip = 4%nat \/ length ip = 16%nat) /\ (length ip <= length (Mask n))%nat)
    as [Hip Hle].
  { unfold ip. destruct (To4 (IP n)) as [ip4|] eqn:H4; cbn [default from_option].
    - apply To4_length in H4. unfold id. split; [by left | lia].
    - unfold id. split; lia. }
  destruct (length ip =? 0)%nat eqn:H0; [apply Nat.eqb_eq in H0; lia|].
  destruct (Nat.ltb_spec (length (Mask n)) (length ip)) as [|_]; [lia|].
  destruct (Mask n) as [|m0 [|m1 [|m2 [|m3 rest]]]]; try (cbn in Hle; lia).
  eexists. split; [reflexivity|]. cbn. done.
Qed.

(** X20.  generateGatewayIPFromSubnet (manager.go): a text that does not parse
    as a CIDR gives the parse error; for every text that parses, IPv4 or
    IPv6, the function does not panic, and neither does
    calculateSubnetParameters (network_linux.go) on the parsed network;
    the gateway of the kind driver is the Gateway parameter of the
    minikube driver. *)
Theorem generateGatewayIPFromSubnet_spec (subnetCIDR : string) :
  (ParseCIDR subnetCIDR = None ->
   generateGatewayIPFromSubnet subnetCIDR
   = Some (Err ("failed to parse subnet CIDR " +:+ subnetCIDR +:+ ": invalid CIDR address: "
                +:+ subnetCIDR)))
  /\ (forall ipNet,
        ParseCIDR subnetCIDR = Some ipNet ->
        exists params,
          calculateSubnetParameters ipNet = Some params
          /\ generateGatewayIPFromSubnet subnetCIDR = Some (Ok (Gateway params))).
Proof.
  unfold generateGatewayIPFromSubnet. split; [by intros ->|].
  intros ipNet Hp. rewrite Hp.
  pose proof (ParseCIDR_lengths _ _ Hp) as Hlen.
  destruct (calculateSubnetParameters_Some ipNet Hlen) as (params & Hc & Hg & _).
  exists params. split; [done|]. rewrite Hg.
  set (ip := default (IP ipNet) (To4 (IP ipNet))).
  assert (length ip = 4%nat \/ length ip = 16%nat) as Hip.
  { unfold ip. destruct (To4 (IP ipNet)) as [ip4|] eqn:H4; cbn [default from_option].
    - apply To4_length in H4. by left.
    - unfold id. lia. }
  destruct (length ip =? 0)%nat eqn:H0; [apply Nat.eqb_eq in H0; lia | done].
Qed.

Lemma gatewayMask (d m : Z) :
  isByte d -> m ∈ maskBytes4 -> m <> 255 ->
  Z.land d m + 1 < 256 /\ Z.land (Z.land d m + 1) m = Z.land d m.
Proof.
  intros Hd Hm Hne.
  assert (forallb gatewayMaskOk (seqZ 0 256) = true) as Hall by (vm_compute; reflexivity).
  pose proof (forallb_seqZ _ _ _ Hall d ltac:(unfold isByte in Hd; lia)) as Hok.
  unfold gatewayMaskOk in Hok. rewrite forallb_forall in Hok.
  specialize (Hok m ltac:(by apply list_elem_of_In)).
  apply orb_true_iff in Hok as [H255|Hok]; [lia|].
  apply andb_true_iff in Hok as [H1 H2]. lia.
Qed.

Lemma lastMask (p : Z) :
  0 <= p <= 31 ->
  exists m0 m1 m2 m3,
    CIDRMask p 32 = [m0; m1; m2; m3]
    /\ m0 ∈ maskBytes4 /\ m1 ∈ maskBytes4 /\ m2 ∈ maskBytes4 /\ m3 ∈ maskBytes4
    /\ m3 <> 255.
Proof.
  intros Hp.
  assert (forallb lastMaskOk (seqZ 0 33) = true) as Hall by (vm_compute; reflexivity).
  pose proof (forallb_seqZ _ _ _ Hall p ltac:(lia)) as Hok. unfold lastMaskOk in Hok.
  destruct (CIDRMask_v4 p ltac:(lia)) as (m0 & m1 & m2 & m3 & Hm & H0 & H1 & H2 & H3 & _).
  rewrite Hm in Hok. exists m0, m1, m2, m3. repeat split; try done.
  apply orb_true_iff in Hok as [Hok|Hok]; [lia|]. apply negb_true_iff in Hok. lia.
Qed.

(** X21.  generateGatewayIPFromSubnet (manager.go): for an IPv4 subnet of
    prefix length at most 31 the gateway is the network address plus one
    and is an address of the subnet. *)
Theorem generateGatewayIPFromSubnet_in_subnet (subnetCIDR : string) (ipNet : IPNet) :
  ParseCIDR subnetCIDR = Some ipNet ->
  length (IP ipNet) = 4%nat ->
  prefixOf ipNet <= 31 ->
  exists gateway gatewayIP,
    generateGatewayIPFromSubnet subnetCIDR = Some (Ok gateway)
    /\ ParseIP gateway ≫= To4 = Some gatewayIP
    /\ ipToZ gatewayIP = ipToZ (IP ipNet) + 1
    /\ Contains ipNet gatewayIP = true.
Proof.
  intros Hp Hlen Hpre.
  destruct (ParseCIDR_v4_inv _ _ Hp Hlen)
    as (a & b & c & d & p & Ha & Hb & Hc & Hd & Hp32 & ->).
  destruct (cidr4_shape a b c d p Ha Hb Hc Hd Hp32)
    as (n0 & n1 & n2 & n3 & Hip & H0 & H1 & H2 & H3 & Hpp).
  rewrite Hpp in Hpre.
  destruct (lastMask p ltac:(lia)) as (m0 & m1 & m2 & m3 & Hm & M0 & M1 & M2 & M3 & Hne).
  assert (n3 = Z.land d m3) as Hn3.
  { unfold cidr4 in Hip. rewrite Hm in Hip. cbn in Hip. by injection Hip as _ _ _ <-. }
  destruct (gatewayMask d m3 Hd M3 Hne) as (Hlt & Hland). rewrite <- Hn3 in Hlt, Hland.
  assert (isByte (n3 + 1)) as H3' by (unfold isByte in *; lia).
  unfold generateGatewayIPFromSubnet. rewrite Hp, Hip.
  assert (To4 [n0; n1; n2; n3] = Some [n0; n1; n2; n3]) as -> by reflexivity.
  cbn [default from_option length Nat.eqb]. unfold id.
  assert (incLast [n0; n1; n2; n3] = [n0; n1; n2; n3 + 1]) as ->.
  { unfold incLast, byte_add, byte. cbn. rewrite Z.mod_small by (unfold isByte in *; lia).
    done. }
  exists (IP_String [n0; n1; n2; n3 + 1]), [n0; n1; n2; n3 + 1].
  split; [done|]. split; [by apply ParseIP_String|].
  split; [rewrite !ipToZ_4; lia|].
  unfold Contains, networkNumberAndMask. rewrite Hip. cbn [Mask cidr4]. rewrite Hm.
  cbn. rewrite Hland.
  assert (Z.land n3 m3 = n3) as -> by (by rewrite Hn3, <- Z.land_assoc, Z.land_diag).
  by rewrite bool_decide_eq_true_2.
Qed.

(** X22.  calculateSubnetParameters (network_linux.go): the function does not
    panic on a network that net.ParseCIDR returns; for an IPv4 network
    the CIDR parameter is the network address and the prefix length, its
    text parses back to the same network, and the IP parameter is the
    text of the network address. *)
Theorem calculateSubnetParameters_parsed (subnet : string) (ipNet : IPNet) :
  ParseCIDR subnet = Some ipNet ->
  exists params,
    calculateSubnetParameters ipNet = Some params
    /\ Prefix params = prefixOf ipNet
    /\ (length (IP ipNet) = 4%nat ->
        CIDR params = IP_String (IP ipNet) +:+ "/" +:+ fmt_d (prefixOf ipNet)
        /\ ParseCIDR (CIDR params) = Some ipNet
        /\ Params_IP params = IP_String (IP ipNet)
        /\ ParseIP (Params_IP params) ≫= To4 = Some (IP ipNet)
        /\ IsPrivate params = isPrivateIP (IP ipNet)).
Proof.
  intros Hp. pose proof (ParseCIDR_lengths _ _ Hp) as Hlen.
  destruct (calculateSubnetParameters_Some ipNet Hlen)
    as (params & Hc & _ & Hpi & Hcidr & Hpriv & Hpre).
  exists params. split; [done|]. split; [done|].
  intros H4.
  destruct (ParseCIDR_v4_inv _ _ Hp H4)
    as (a & b & c & d & p & Ha & Hb & Hc' & Hd & Hp32 & ->).
  destruct (cidr4_shape a b c d p Ha Hb Hc' Hd Hp32)
    as (n0 & n1 & n2 & n3 & Hip & H0 & H1 & H2 & H3 & Hpp).
  destruct (CIDRMask_v4 p Hp32) as (m0 & m1 & m2 & m3 & Hm & M0 & M1 & M2 & M3 & Hsize).
  rewrite Hip in Hpi, Hpriv.
  assert (To4 [n0; n1; n2; n3] = Some [n0; n1; n2; n3]) as HT by reflexivity.
  rewrite HT in Hpi, Hpriv. cbn [default from_option] in Hpi, Hpriv. unfold id in Hpi, Hpriv.
  assert (IPNet_String (cidr4 a b c d p)
          = IP_String [n0; n1; n2; n3] +:+ "/" +:+ fmt_d p) as Hstr.
  { unfold IPNet_String, networkNumberAndMask. rewrite Hip. cbn [Mask cidr4]. rewrite HT, Hm.
    cbn [length Nat.eqb]. rewrite <- Hm.
    assert (simpleMaskLength (CIDRMask p 32) = p) as ->.
    { unfold IPMask_Size in Hsize.
      destruct (simpleMaskLength (CIDRMask p 32) =? -1) eqn:Hs; [injection Hsize; lia|].
      by injection Hsize. }
    destruct (Z.eqb_spec p (-1)); [lia | done]. }
  assert (cidr4 n0 n1 n2 n3 p = cidr4 a b c d p) as Hsame.
  { unfold cidr4 in Hip |- *. rewrite Hm in Hip |- *. cbn in Hip |- *.
    injection Hip as <- <- <- <-.
    by rewrite <- !Z.land_assoc, !Z.land_diag. }
  rewrite Hip, Hpp, Hcidr, Hstr, Hpi.
  split; [done|]. split; [by rewrite ParseCIDR_String, Hsame|].
  split; [done|]. split; [by apply ParseIP_String | done].
Qed.
End GatewayProps.

(** The default subnet of the kind network, 10.89.0.0/16, has the
    gateway 10.89.0.1. *)
Lemma generateGatewayIPFromSubnet_in_subnet_witness :
  exists gateway gatewayIP,
    @generateGatewayIPFromSubnet goLib4 "10.89.0.0/16" = Some (Ok gateway)
    /\ @ParseIP goLib4 gateway ≫= To4 = Some gatewayIP
    /\ Contains net_10_89 gatewayIP = true.
Proof.
  destruct (@generateGatewayIPFromSubnet_in_subnet goLib4 "10.89.0.0/16" net_10_89
              ltac:(vm_compute; reflexivity) eq_refl ltac:(vm_compute; discriminate))
    as (gateway & gatewayIP & H1 & H2 & _ & H4).
  exists gateway, gatewayIP. split; [exact H1|]. split; [exact H2 | exact H4].
Defined.

(** The parameters of 10.89.0.0/16. *)
Lemma calculateSubnetParameters_parsed_witness :
  exists params,
    @calculateSubnetParameters goLib4 net_10_89 = Some params
    /\ Prefix params = prefixOf net_10_89.
Proof.
  destruct (@calculateSubnetParameters_parsed goLib4 "10.89.0.0/16" net_10_89
              ltac:(vm_compute; reflexivity)) as (params & H1 & H2 & _).
  exists params. split; [exact H1 | exact H2].
Defined.

(** ** Private addresses *)

Lemma Contains_quad (r : IPNet) (n0 n1 n2 n3 m0 m1 m2 m3 a b c d : Z) :
  networkNumberAndMask r = Some ([n0; n1; n2; n3], [m0; m1; m2; m3]) ->
  Contains r [a; b; c; d]
  = bool_decide ([Z.land n0 m0; Z.land n1 m1; Z.land n2 m2; Z.land n3 m3]
                 = [Z.land a m0; Z.land b m1; Z.land c m2; Z.land d m3]).
Proof. intros Hn. unfold Contains. rewrite Hn. reflexivity. Qed.

Lemma Contains_not4 (r : IPNet) (nn m ip : list Z) :
  networkNumberAndMask r = Some (nn, m) -> length nn = 4%nat -> To4 ip = None ->
  Contains r ip = false.
Proof.
  intros Hr Hl Hn. unfold Contains. rewrite Hr, Hn. cbn [default from_option]. unfold id.
  rewrite Hl. destruct (Nat.eqb_spec (length ip) 4) as [H4|]; [|done].
  unfold To4 in Hn. by rewrite H4 in Hn.
Qed.

Lemma isPrivateIP_quad (a b c d : Z) :
  isPrivateIP [a; b; c; d]
  = bool_decide ([10; 0; 0; 0] = [Z.land a 255; 0; 0; 0])
    || (bool_decide ([172; 16; 0; 0] = [Z.land a 255; Z.land b 240; 0; 0])
        || (bool_decide ([192; 168; 0; 0] = [Z.land a 255; Z.land b 255; 0; 0]) || false)).
Proof.
  unfold isPrivateIP. cbn [existsb].
  rewrite (Contains_quad _ 10 0 0 0 255 0 0 0) by (vm_compute; reflexivity).
  rewrite (Contains_quad _ 172 16 0 0 255 240 0 0) by (vm_compute; reflexivity).
  rewrite (Contains_quad _ 192 168 0 0 255 255 0 0) by (vm_compute; reflexivity).
  rewrite !Z.land_0_r. reflexivity.
Qed.

Lemma isPrivateIP_low (a b c d : Z) : isPrivateIP [a; b; c; d] = isPrivateIP [a; b; 0; 0].
Proof. by rewrite !isPrivateIP_quad. Qed.

Lemma isPrivateIP_16 (a b c d : Z) : isPrivateIP (IPv4 a b c d) = isPrivateIP [a; b; c; d].
Proof. reflexivity. Qed.

(** X23.  isPrivateIP (network_linux.go): an IPv4 address, in its 4-byte or its
    16-byte form, is private exactly when it lies in 10.0.0.0/8,
    172.16.0.0/12 or 192.168.0.0/16; an address that has no IPv4 form is
    never private. *)
Theorem isPrivateIP_rfc1918 (a b c d : Z) :
  isByte a -> isByte b ->
  isPrivateIP [a; b; c; d] = rfc1918 a b
  /\ isPrivateIP (IPv4 a b c d) = rfc1918 a b
  /\ (isPrivateIP [a; b; c; d] = true
      <-> a = 10 \/ (a = 172 /\ 16 <= b <= 31) \/ (a = 192 /\ b = 168))
  /\ (forall ip, To4 ip = None -> isPrivateIP ip = false).
Proof.
  intros Ha Hb.
  assert (isPrivateIP [a; b; c; d] = rfc1918 a b) as Hr.
  { rewrite isPrivateIP_low.
    assert (forallb privateOk (seqZ 0 256) = true) as Hall by (vm_compute; reflexivity).
    pose proof (forallb_seqZ _ _ _ Hall a ltac:(unfold isByte in Ha; lia)) as Hok.
    unfold privateOk in Hok.
    pose proof (forallb_seqZ _ _ _ Hok b ltac:(unfold isByte in Hb; lia)) as Hab.
    by apply Bool.eqb_prop in Hab. }
  split; [done|]. split; [by rewrite isPrivateIP_16|]. split.
  - rewrite Hr. unfold rfc1918.
    rewrite !orb_true_iff, !andb_true_iff, !Z.eqb_eq, !Z.leb_le. tauto.
  - intros ip Hn. unfold isPrivateIP. cbn [existsb].
    rewrite (Contains_not4 _ [10; 0; 0; 0] [255; 0; 0; 0])
      by (done || (vm_compute; reflexivity)).
    rewrite (Contains_not4 _ [172; 16; 0; 0] [255; 240; 0; 0])
      by (done || (vm_compute; reflexivity)).
    rewrite (Contains_not4 _ [192; 168; 0; 0] [255; 255; 0; 0])
      by (done || (vm_compute; reflexivity)).
    reflexivity.
Qed.

(** 192.168.102.50 is private, 8.8.8.8 is not. *)
Lemma isPrivateIP_rfc1918_witness :
  isPrivateIP [192; 168; 102; 50] = true /\ isPrivateIP [8; 8; 8; 8] = false.
Proof.
  split.
  - exact (proj1 (isPrivateIP_rfc1918 192 168 102 50 ltac:(unfold isByte; lia)
                    ltac:(unfold isByte; lia))).
  - exact (proj1 (isPrivateIP_rfc1918 8 8 8 8 ltac:(unfold isByte; lia)
                    ltac:(unfold isByte; lia))).
Defined.

(* ================================================================== *)
(** * Further properties: project settings (config.go) *)
(* ================================================================== *)

Lemma pretty_N_char_nonzero (x : N) :
  (0 < x < 10)%N -> Ascii.eqb (pretty_N_char x) "0" = false.
Proof.
  intros Hx.
  assert (x = 1 \/ x = 2 \/ x = 3 \/ x = 4 \/ x = 5 \/ x = 6 \/ x = 7 \/ x = 8 \/ x = 9)%N
    as Hc by lia.
  repeat (destruct Hc as [-> | Hc]; [reflexivity|]). subst. reflexivity.
Qed.

Lemma pretty_N_go_head (x : N) (s : string) :
  (0 < x)%N ->
  exists c r, pretty_N_go x s = String c r /\ Ascii.eqb c "0" = false
              /\ Ascii.eqb c "-" = false.
Proof.
  revert s. induction (N.lt_wf_0 x) as [x _ IH]. intros s Hx.
  rewrite pretty_N_go_step by done.
  destruct (decide (x < 10)%N) as [Hlt|Hge].
  - rewrite N.div_small by done. rewrite pretty_N_go_0.
    rewrite N.mod_small by done.
    exists (pretty_N_char x), s. split; [done|].
    split; [by apply pretty_N_char_nonzero|].
    assert (x = 1 \/ x = 2 \/ x = 3 \/ x = 4 \/ x = 5 \/ x = 6 \/ x = 7 \/ x = 8 \/ x = 9)%N
      as Hc by lia.
    repeat (destruct Hc as [-> | Hc]; [reflexivity|]). subst. reflexivity.
  - apply IH.
    + apply N.div_lt; lia.
    + apply N.div_str_pos. lia.
Qed.

Lemma fmt_d_pos_head (n : Z) :
  0 < n -> exists c r, fmt_d n = String c r /\ Ascii.eqb c "0" = false.
Proof.
  intros Hn. destruct n as [|p|p]; try lia.
  destruct (pretty_N_go_head (Npos p) "" ltac:(lia)) as (c & r & Hc & H0 & _).
  exists c, r. split; [exact Hc | done].
Qed.

Lemma strings_TrimLeft_head (c : ascii) (r cutset : string) :
  inCutset c cutset = false -> strings_TrimLeft (String c r) cutset = String c r.
Proof. intros Hc. cbn. by rewrite Hc. Qed.

Lemma strings_TrimLeft_zero (s : string) :
  strings_TrimLeft (String "0" s) "0" = strings_TrimLeft s "0".
Proof. reflexivity. Qed.

Lemma GetMinikubeServiceIPRange_text (clusterIndex : Z) :
  GetMinikubeServiceIPRange clusterIndex = "10.255." +:+ fmt_d clusterIndex +:+ ".0/24".
Proof.
  unfold GetMinikubeServiceIPRange, fmt_02d, MinikubeServiceIPRangeBase.
  destruct (Z_lt_le_dec clusterIndex 0) as [Hneg|Hpos].
  - destruct (Z.leb_spec 0 clusterIndex); [lia|]. cbn [andb].
    destruct clusterIndex as [|p|p]; try lia.
    change (fmt_d (Z.neg p)) with ("-" +:+ pretty (Npos p)).
    change ("-" +:+ pretty (N.pos p)) with (String "-" (pretty (N.pos p))).
    rewrite strings_TrimLeft_head by reflexivity. reflexivity.
  - destruct (Z.leb_spec 0 clusterIndex); [|lia]. cbn [andb].
    destruct (decide (clusterIndex = 0)) as [->|Hnz]; [reflexivity|].
    destruct (fmt_d_pos_head clusterIndex ltac:(lia)) as (c & r & Hc & H0).
    destruct (Z.ltb_spec clusterIndex 10).
    + rewrite Hc. change ("0" +:+ String c r) with (String "0" (String c r)).
      rewrite strings_TrimLeft_zero.
      rewrite strings_TrimLeft_head by (cbn; by rewrite H0). reflexivity.
    + rewrite Hc. rewrite strings_TrimLeft_head by (cbn; by rewrite H0). reflexivity.
Qed.

Lemma string_app_assoc (s t u : string) : (s +:+ t) +:+ u = s +:+ (t +:+ u).
Proof.
  induction s as [|c s IH]; [reflexivity|].
  change ((String c s +:+ t) +:+ u) with (String c ((s +:+ t) +:+ u)).
  change (String c s +:+ (t +:+ u)) with (String c (s +:+ (t +:+ u))).
  by rewrite IH.
Qed.

Lemma app_String (c : ascii) (s t : string) : String c s +:+ t = String c (s +:+ t).
Proof. reflexivity. Qed.

Lemma app_empty (t : string) : "" +:+ t = t.
Proof. reflexivity. Qed.

Lemma land_255 (a : Z) : isByte a -> Z.land a 255 = a.
Proof.
  intros Ha. change 255 with (Z.ones 8). rewrite Z.land_ones by lia.
  apply Z.mod_small. unfold isByte in Ha. lia.
Qed.

Section ServiceRange.
Context `{GoLib}.

(** X24.  GetMinikubeServiceIPRange (config.go): the zero padding and the
    trimming of zeros cancel out, so the range of every index is
    10.255.<index>.0/24 with the index in plain decimal; for an index
    from 0 to 255 the text parses as the /24 network 10.255.<index>.0,
    and the networks of two different indexes do not overlap. *)
Theorem GetMinikubeServiceIPRange_spec (clusterIndex : Z) :
  GetMinikubeServiceIPRange clusterIndex = "10.255." +:+ fmt_d clusterIndex +:+ ".0/24"
  /\ (0 <= clusterIndex <= 255 ->
      ParseCIDR (GetMinikubeServiceIPRange clusterIndex)
      = Some {| IP := [10; 255; clusterIndex; 0]; Mask := [255; 255; 255; 0] |})
  /\ (forall other ipNet otherNet,
        0 <= clusterIndex <= 255 -> 0 <= other <= 255 -> clusterIndex <> other ->
        ParseCIDR (GetMinikubeServiceIPRange clusterIndex) = Some ipNet ->
        ParseCIDR (GetMinikubeServiceIPRange other) = Some otherNet ->
        Contains ipNet (IP otherNet) = false /\ Contains otherNet (IP ipNet) = false).
Proof.
  assert (forall i, 0 <= i <= 255 ->
                    ParseCIDR (GetMinikubeServiceIPRange i)
                    = Some {| IP := [10; 255; i; 0]; Mask := [255; 255; 255; 0] |}) as Hparse.
  { intros i Hi. rewrite GetMinikubeServiceIPRange_text.
    assert ("10.255." +:+ fmt_d i +:+ ".0/24"
            = IP_String [10; 255; i; 0] +:+ "/" +:+ fmt_d 24) as ->.
    { rewrite IP_String_v4.
      change (fmt_d 10) with "10". change (fmt_d 255) with "255".
      change (fmt_d 0) with "0". change (fmt_d 24) with "24".
      generalize (fmt_d i). intros x.
      repeat (rewrite string_app_assoc || rewrite app_String || rewrite app_empty).
      reflexivity. }
    rewrite ParseCIDR_String by (unfold isByte; lia).
    f_equal. unfold cidr4.
    change (CIDRMask 24 32) with [255; 255; 255; 0]. cbn [zip_with].
    rewrite (land_255 i) by (unfold isByte; lia). reflexivity. }
  split; [apply GetMinikubeServiceIPRange_text|]. split; [apply Hparse|].
  intros other ipNet otherNet Hi Ho Hne Hp1 Hp2.
  rewrite Hparse in Hp1, Hp2 by done. injection Hp1 as <-. injection Hp2 as <-. cbn [IP].
  rewrite !(Contains_quad _ 10 255 _ 0 255 255 255 0) by reflexivity.
  rewrite !land_255 by (unfold isByte; lia).
  split; apply bool_decide_eq_false; intros [= Heq]; lia.
Qed.
End ServiceRange.






(* ================================================================== *)
(** * Further properties: version comparison (version.go) *)
(* ================================================================== *)

Lemma String_ltb_irrefl (s : string) : String.ltb s s = false.
Proof.
  unfold String.ltb. pose proof (String.compare_antisym s s) as Ha.
  destruct (String.compare s s); cbn in Ha; congruence.
Qed.

Lemma compareParts_refl (l : list string) : compareParts l l = 0.
Proof.
  induction l as [|s l IH]; cbn [compareParts]; [done|].
  destruct (strconv_Atoi s) as [n|].
  - destruct (Z.ltb_spec n n); [lia|]. destruct (Z.gtb_spec n n); [lia | done].
  - by rewrite String_ltb_irrefl.
Qed.

Lemma compareParts_antisym (l1 l2 : list string) :
  compareParts l1 l2 = - compareParts l2 l1.
Proof.
  revert l2. induction l1 as [|a l1 IH]; intros [|b l2]; cbn [compareParts]; try done.
  assert ((if String.ltb a b then -1 else if String.ltb b a then 1 else compareParts l1 l2)
          = - (if String.ltb b a then -1 else if String.ltb a b then 1
               else compareParts l2 l1)) as Hstr.
  { unfold String.ltb. rewrite (String.compare_antisym b a).
    destruct (String.compare a b); cbn [CompOpp]; [apply IH | done | done]. }
  destruct (strconv_Atoi a) as [n1|], (strconv_Atoi b) as [n2|]; try exact Hstr.
  destruct (Z.ltb_spec n1 n2), (Z.gtb_spec n1 n2), (Z.ltb_spec n2 n1), (Z.gtb_spec n2 n1);
    first [lia | done | apply IH].
Qed.

Lemma compareParts_range (l1 l2 : list string) : -1 <= compareParts l1 l2 <= 1.
Proof.
  revert l2. induction l1 as [|a l1 IH]; intros [|b l2]; cbn [compareParts]; try lia.
  destruct (strconv_Atoi a) as [n1|], (strconv_Atoi b) as [n2|].
  2-4: destruct (String.ltb a b); [lia|]; destruct (String.ltb b a); [lia | apply IH].
  destruct (n1 <? n2); [lia|]. destruct (n1 >? n2); [lia | apply IH].
Qed.

Lemma lexCompare_refl (l : list Z) : lexCompare l l = 0.
Proof.
  induction l as [|x l IH]; cbn [lexCompare]; [done|].
  destruct (Z.ltb_spec x x); [lia|]. destruct (Z.gtb_spec x x); [lia | done].
Qed.

Lemma compareParts_numeric (l1 l2 : list string) :
  Forall (fun s => exists x, digits s = Some x /\ x < 2 ^ 63) l1 ->
  Forall (fun s => exists x, digits s = Some x /\ x < 2 ^ 63) l2 ->
  compareParts l1 l2 = lexCompare (omap digits l1) (omap digits l2).
Proof.
  intros H1. revert l2. induction H1 as [|a l1 (x & Hx & Bx) _ IH]; intros l2 H2.
  - by destruct l2.
  - destruct H2 as [|b l2 (y & Hy & By) H2].
    + cbn. rewrite Hx. done.
    + cbn [compareParts omap list_omap]. 
      rewrite (strconv_Atoi_digits a x Hx Bx), (strconv_Atoi_digits b y Hy By).
      change (omap digits (a :: l1)) with
        (match digits a with Some z => z :: omap digits l1 | None => omap digits l1 end).
      change (omap digits (b :: l2)) with
        (match digits b with Some z => z :: omap digits l2 | None => omap digits l2 end).
      rewrite Hx, Hy. cbn [lexCompare]. by rewrite IH.
Qed.

Lemma strings_Split_nonempty (s : string) (sep : ascii) : strings_Split s sep <> [].
Proof.
  induction s as [|c s IH]; cbn [strings_Split]; [done|].
  destruct (Ascii.eqb c sep); [done|]. by destruct (strings_Split s sep).
Qed.

Lemma strings_Split_join (s t : string) (sep : ascii) :
  strings_Split (s +:+ String sep t) sep = strings_Split s sep ++ strings_Split t sep.
Proof.
  induction s as [|c s IH].
  - change ("" +:+ String sep t) with (String sep t). cbn [strings_Split].
    by rewrite Ascii.eqb_refl.
  - change (String c s +:+ String sep t) with (String c (s +:+ String sep t)).
    cbn [strings_Split]. rewrite IH.
    destruct (Ascii.eqb c sep); [done|].
    pose proof (strings_Split_nonempty s sep).
    by destruct (strings_Split s sep).
Qed.

Lemma strings_TrimPrefix_v_app (v t : string) :
  t <> "" -> (forall r, t <> String "v" r) ->
  strings_TrimPrefix (v +:+ t) "v" = strings_TrimPrefix v "v" +:+ t.
Proof.
  intros Ht Hv. unfold strings_TrimPrefix. destruct v as [|b s].
  - change ("" +:+ t) with t. destruct t as [|c r]; [done|]. cbn [stripPrefix].
    destruct (Ascii.eqb_spec "v" c) as [<-|]; [by destruct (Hv r) | done].
  - change (String b s +:+ t) with (String b (s +:+ t)). cbn [stripPrefix].
    by destruct (Ascii.eqb "v" b).
Qed.

Lemma string_app_length (s t : string) :
  String.length (s +:+ t) = (String.length s + String.length t)%nat.
Proof.
  induction s as [|c s IH]; [done|].
  change (String c s +:+ t) with (String c (s +:+ t)). cbn [String.length]. by rewrite IH.
Qed.

(** X26.  Compare (version.go): swapping the arguments negates the result; the
    result is -1, 0 or 1; a version equals itself; and a missing component
    counts as zero, so that a version equals itself followed by ".0". *)
Theorem Compare_antisym (v1 v2 : string) :
  Compare v1 v2 = - Compare v2 v1
  /\ -1 <= Compare v1 v2 <= 1
  /\ Compare v1 v1 = 0
  /\ Compare v1 (v1 +:+ ".0") = 0.
Proof.
  split; [|split; [|split]].
  - unfold Compare. cbv zeta.
    rewrite (String.eqb_sym (strings_TrimPrefix v2 "v")).
    destruct (String.eqb (strings_TrimPrefix v1 "v") (strings_TrimPrefix v2 "v")); [done|].
    rewrite (Nat.max_comm (length (strings_Split (strings_TrimPrefix v2 "v") "."))).
    apply compareParts_antisym.
  - unfold Compare. cbv zeta.
    destruct (String.eqb (strings_TrimPrefix v1 "v") (strings_TrimPrefix v2 "v")); [lia|].
    apply compareParts_range.
  - unfold Compare. cbv zeta. by rewrite String.eqb_refl.
  - unfold Compare. cbv zeta. rewrite strings_TrimPrefix_v_app by done.
    set (t := strings_TrimPrefix v1 "v").
    destruct (String.eqb_spec t (t +:+ ".0")) as [Heq|_]; [done|].
    change (t +:+ ".0") with (t +:+ String "." "0"). rewrite strings_Split_join.
    change (strings_Split "0" ".") with ["0"]. rewrite length_app. cbn [length].
    rewrite Nat.max_r by lia. unfold padParts. rewrite length_app. cbn [length].
    replace (length (strings_Split t ".") + 1 - length (strings_Split t "."))%nat
      with 1%nat by lia.
    rewrite Nat.sub_diag. cbn [replicate]. rewrite app_nil_r. apply compareParts_refl.
Qed.

Lemma digits_go_allDigits (s : string) (acc : Z) :
  allDigits s = true -> exists x, digits_go acc s = Some x.
Proof.
  revert acc. induction s as [|c s IH]; intros acc; cbn; [by eexists|].
  destruct (isDigit c); [|done]. cbn. intros Hs. by apply IH.
Qed.

Lemma digitRun_digits (s : string) : digitRun s = true -> exists x, digits s = Some x.
Proof.
  unfold digitRun. intros [Hne Hd]%andb_true_iff.
  destruct s as [|c s]; [done|]. unfold digits. by apply digits_go_allDigits.
Qed.

(** X27.  Compare (version.go): on two valid semantic versions, with or without
    the prefix "v", whose numbers fit in an int, the result is the numeric
    order of the three numbers taken in turn, not the order of the
    texts. *)
Theorem Compare_semver (v1 v2 : string) :
  IsValidSemver v1 = true -> IsValidSemver v2 = true ->
  Forall (fun x => x < 2 ^ 63) (versionNumbers v1) ->
  Forall (fun x => x < 2 ^ 63) (versionNumbers v2) ->
  Compare v1 v2 = lexCompare (versionNumbers v1) (versionNumbers v2)
  /\ length (versionNumbers v1) = 3%nat /\ length (versionNumbers v2) = 3%nat.
Proof.
  assert (forall v,
             IsValidSemver v = true -> Forall (fun x => x < 2 ^ 63) (versionNumbers v) ->
             exists a b c,
               strings_Split (strings_TrimPrefix v "v") "." = [a; b; c]
               /\ Forall (fun s => exists x, digits s = Some x /\ x < 2 ^ 63) [a; b; c]
               /\ length (versionNumbers v) = 3%nat) as Hshape.
  { intros v Hv Hb. unfold IsValidSemver, versionNumbers in *.
    destruct (strings_Split (strings_TrimPrefix v "v") ".") as [|a [|b [|c [|]]]]; try done.
    apply andb_true_iff in Hv as [Hv Hc]. apply andb_true_iff in Hv as [Ha Hb'].
    destruct (digitRun_digits _ Ha) as [x Hx]. destruct (digitRun_digits _ Hb') as [y Hy].
    destruct (digitRun_digits _ Hc) as [z Hz].
    cbn in Hb |- *. rewrite Hx, Hy, Hz in Hb |- *. cbn in Hb |- *.
    apply Forall_cons in Hb as [Bx Hb]. apply Forall_cons in Hb as [By Hb].
    apply Forall_cons in Hb as [Bz _].
    exists a, b, c. split; [done|]. split; [|done].
    repeat apply Forall_cons_2; try apply Forall_nil_2; eauto. }
  intros Hv1 Hv2 Hb1 Hb2.
  destruct (Hshape v1 Hv1 Hb1) as (a1 & b1 & c1 & Hs1 & Hd1 & Hl1).
  destruct (Hshape v2 Hv2 Hb2) as (a2 & b2 & c2 & Hs2 & Hd2 & Hl2).
  split; [|done].
  unfold Compare, versionNumbers. cbv zeta.
  destruct (String.eqb_spec (strings_TrimPrefix v1 "v") (strings_TrimPrefix v2 "v"))
    as [Heq|_].
  - rewrite Heq. by rewrite lexCompare_refl.
  - rewrite Hs1, Hs2. cbn [length Nat.max]. unfold padParts. cbn [length Nat.sub replicate].
    rewrite !app_nil_r. by apply compareParts_numeric.
Qed.

(** Version 1.10.0 is above v1.9.0. *)
Lemma Compare_semver_witness : Compare "1.10.0" "v1.9.0" = 1.
Proof.
  assert (IsValidSemver "1.10.0" = true) as H1 by (vm_compute; reflexivity).
  assert (IsValidSemver "v1.9.0" = true) as H2 by (vm_compute; reflexivity).
  assert (versionNumbers "1.10.0" = [1; 10; 0]) as E1 by (vm_compute; reflexivity).
  assert (versionNumbers "v1.9.0" = [1; 9; 0]) as E2 by (vm_compute; reflexivity).
  destruct (Compare_semver "1.10.0" "v1.9.0" H1 H2) as [-> _].
  - rewrite E1. repeat constructor.
  - rewrite E2. repeat constructor.
  - rewrite E1, E2. reflexivity.
Defined.

(* ================================================================== *)
(** * Further properties: load balancer ports (part_002) *)
(* ================================================================== *)

Lemma dedup_loop_keys (seen : gset string) (l : list Tunnel.LoadBalancerPortInfo)
    (k : string) :
  k ∈ Tunnel.portKey <$> Tunnel.dedup_loop seen l
  <-> k ∈ Tunnel.portKey <$> l /\ k ∉ seen.
Proof.
  revert seen. induction l as [|x l IH]; intros seen; cbn [Tunnel.dedup_loop].
  - rewrite fmap_nil. set_solver.
  - destruct (bool_decide (Tunnel.portKey x ∈ seen)) eqn:Hd.
    + apply bool_decide_eq_true in Hd. rewrite IH, fmap_cons, elem_of_cons.
      split; [tauto|]. intros [[->|Hk] Hn]; [done | tauto].
    + apply bool_decide_eq_false in Hd. rewrite !fmap_cons, !elem_of_cons, IH.
      rewrite not_elem_of_union, not_elem_of_singleton.
      split.
      * intros [->|(Hk & Hne & Hn)]; [split; [by left | done] | tauto].
      * intros [[->|Hk] Hn]; [by left|].
        destruct (decide (k = Tunnel.portKey x)) as [->|Hne]; [by left | right; tauto].
Qed.

Lemma dedup_loop_NoDup (seen : gset string) (l : list Tunnel.LoadBalancerPortInfo) :
  NoDup (Tunnel.portKey <$> Tunnel.dedup_loop seen l).
Proof.
  revert seen. induction l as [|x l IH]; intros seen; cbn [Tunnel.dedup_loop].
  - rewrite fmap_nil. apply NoDup_nil_2.
  - destruct (bool_decide (Tunnel.portKey x ∈ seen)); [apply IH|].
    rewrite fmap_cons. apply NoDup_cons. split; [|apply IH].
    rewrite dedup_loop_keys. set_solver.
Qed.

Lemma dedup_loop_sublist (seen : gset string) (l : list Tunnel.LoadBalancerPortInfo) :
  Tunnel.dedup_loop seen l `sublist_of` l.
Proof.
  revert seen. induction l as [|x l IH]; intros seen; cbn [Tunnel.dedup_loop]; [done|].
  destruct (bool_decide (Tunnel.portKey x ∈ seen));
    [by apply sublist_cons | by apply sublist_skip].
Qed.

Lemma dedup_loop_id (seen : gset string) (l : list Tunnel.LoadBalancerPortInfo) :
  NoDup (Tunnel.portKey <$> l) ->
  (forall k, k ∈ Tunnel.portKey <$> l -> k ∉ seen) ->
  Tunnel.dedup_loop seen l = l.
Proof.
  revert seen. induction l as [|x l IH]; intros seen Hnd Hseen; cbn [Tunnel.dedup_loop];
    [done|].
  rewrite fmap_cons in Hnd, Hseen. apply NoDup_cons in Hnd as [Hx Hnd].
  rewrite bool_decide_eq_false_2 by (apply Hseen, list_elem_of_here).
  f_equal. apply IH; [done|].
  intros k Hk. rewrite not_elem_of_union, not_elem_of_singleton. split.
  - intros ->. done.
  - apply Hseen. by apply list_elem_of_further.
Qed.

(** X28.  deduplicatePorts (part_002): the entries kept have pairwise different
    keys; they are entries of the input, in the order of the input; every
    input entry has a kept entry with its key; the first entry is always
    kept; an input without repeated keys is returned as it is, so that
    deduplicating twice changes nothing more. *)
Theorem deduplicatePorts_spec (portInfos : list Tunnel.LoadBalancerPortInfo) :
  NoDup (Tunnel.portKey <$> Tunnel.deduplicatePorts portInfos)
  /\ Tunnel.deduplicatePorts portInfos `sublist_of` portInfos
  /\ (forall info,
        info ∈ portInfos ->
        exists kept,
          kept ∈ Tunnel.deduplicatePorts portInfos
          /\ Tunnel.portKey kept = Tunnel.portKey info)
  /\ head (Tunnel.deduplicatePorts portInfos) = head portInfos
  /\ (NoDup (Tunnel.portKey <$> portInfos) -> Tunnel.deduplicatePorts portInfos = portInfos)
  /\ Tunnel.deduplicatePorts (Tunnel.deduplicatePorts portInfos)
     = Tunnel.deduplicatePorts portInfos.
Proof.
  unfold Tunnel.deduplicatePorts.
  split; [apply dedup_loop_NoDup|]. split; [apply dedup_loop_sublist|].
  split.
  { intros info Hin.
    assert (Tunnel.portKey info ∈ Tunnel.portKey <$> Tunnel.dedup_loop ∅ portInfos) as Hk.
    { apply dedup_loop_keys. split; [by apply list_elem_of_fmap_2 | set_solver]. }
    apply list_elem_of_fmap in Hk as (kept & Hkey & Hkept). by exists kept. }
  split.
  { destruct portInfos as [|x l]; [done|]. cbn [Tunnel.dedup_loop].
    rewrite bool_decide_eq_false_2 by set_solver. done. }
  split.
  - intros Hnd. apply dedup_loop_id; [done | set_solver].
  - apply dedup_loop_id; [apply dedup_loop_NoDup | set_solver].
Qed.
